(** * The generative-table router (owl/routers/gen_table.py)

    A shallow embedding of the request handlers, of the two periodic
    maintenance jobs and of the file-ingestion pipeline of the router,
    together with the properties its design document states about them.

    The router is orchestration code: almost every line is a call into a
    collaborator (the storage engine, the LLM and embedding clients, the
    file loader, numpy, hashlib, filelock).  Collaborators are taken as
    parameters (record [Env]); what the router does with their answers,
    in which order it calls them, what it schedules and what it lets
    escape as an exception is modelled here, in a state-and-exception
    monad over a [World] that records the observable effects. *)

From Stdlib Require Import ZArith String Ascii List Bool Lia.
From Stdlib Require QArith Qabs Lqa SpecFloat.
From stdpp Require Import base option list gmap sets strings.

Local Open Scope string_scope.
Local Open Scope Z_scope.
Local Open Scope list_scope.
Local Open Scope stdpp_scope.

(** ** Exceptions

    Only [Exception] subclasses are modelled; the router has no handler
    for anything else. *)

Inductive exn : Type :=
| OwlException (msg : string)
| TableSchemaFixedError (msg : string)
| Timeout (lock_file : string)
| RuntimeError (msg : string)
| IndexError (msg : string)
| OverflowError
| OtherException (msg : string).

(** Modelled from the spec: the class hierarchy of owl.utils.exceptions is
    not part of the router.  [TableSchemaFixedError] is a domain error
    ("schema-fixed-column violations ... are recognized, left unwrapped,
    and surfaced to the caller as client-correctable"), so it is caught by
    [except OwlException]. *)
Definition is_OwlException (e : exn) : bool :=
  match e with
  | OwlException _ | TableSchemaFixedError _ => true
  | _ => false
  end.

Definition is_Timeout (e : exn) : bool :=
  match e with Timeout _ => true | _ => false end.

(** What a collaborator call gives back. *)
Inductive result (A : Type) : Type :=
| Ok (a : A)
| Err (e : exn).
Arguments Ok {A} a.
Arguments Err {A} e.

(** What a piece of router code does: return, raise, or never come back
    (only the pagination loop of [_iter_all_tables] can do the latter). *)
Inductive outcome (A : Type) : Type :=
| Ret (a : A)
| Raise (e : exn)
| Stall.
Arguments Ret {A} a.
Arguments Raise {A} e.
Arguments Stall {A}.

(** ** Configuration *)

Record Config : Type := {
  owl_db_dir : string;
  owl_reindex_period_sec : Z;
  owl_immediate_reindex_max_rows : Z;
  owl_optimize_period_sec : Z;
  owl_remove_version_older_than_days : Z;
  owl_concurrent_rows_batch_size : Z;
  owl_concurrent_cols_batch_size : Z
}.

Definition default_config : Config := {|
  owl_db_dir := "db";
  owl_reindex_period_sec := 60;
  owl_immediate_reindex_max_rows := 2000;
  owl_optimize_period_sec := 60;
  owl_remove_version_older_than_days := 7;
  owl_concurrent_rows_batch_size := 3;
  owl_concurrent_cols_batch_size := 5
|}.

(** ** Table addressing *)

Inductive TableType : Type := action | knowledge | chat.

Global Instance TableType_eq_dec : EqDecision TableType.
Proof. solve_decision. Defined.

Definition TableType_value (t : TableType) : string :=
  match t with
  | action => "action"
  | knowledge => "knowledge"
  | chat => "chat"
  end.

(** The three table classes share one constructor signature:
    sqlite path, lance path, read-consistency interval (seconds). *)
Inductive GenerativeTable : Type :=
| ActionTable (sqlite_path lance_path : string) (read_consistency_interval : Z)
| KnowledgeTable (sqlite_path lance_path : string) (read_consistency_interval : Z)
| ChatTable (sqlite_path lance_path : string) (read_consistency_interval : Z).

Record FileTable : Type := {
  ft_path : string;
  ft_table_name : string;
  ft_read_consistency_interval : Z
}.

Definition _get_gen_table (config : Config) (org_id project_id : string)
    (table_type : TableType) : GenerativeTable :=
  let lance_path :=
    owl_db_dir config +:+ "/" +:+ org_id +:+ "/" +:+ project_id +:+ "/"
      +:+ TableType_value table_type in
  let sqlite_path := "sqlite:///" +:+ lance_path +:+ ".db" in
  let read_consistency_interval := 0 in
  match table_type with
  | action => ActionTable sqlite_path lance_path read_consistency_interval
  | knowledge => KnowledgeTable sqlite_path lance_path read_consistency_interval
  | chat => ChatTable sqlite_path lance_path read_consistency_interval
  end.

Definition _get_file_table (config : Config) (org_id project_id : string)
    : FileTable :=
  {| ft_path := owl_db_dir config +:+ "/" +:+ org_id +:+ "/" +:+ project_id
                  +:+ "/file";
     ft_table_name := "file";
     ft_read_consistency_interval := 0 |}.

(** ** Requests *)

Record Request : Type := {
  org_id : string;
  project_id : string;
  request_id : string
}.

Record ApiKeys : Type := {
  openai_api_key : string;
  anthropic_api_key : string;
  gemini_api_key : string;
  cohere_api_key : string;
  groq_api_key : string;
  together_api_key : string;
  jina_api_key : string;
  voyage_api_key : string
}.

(** ** Strings

    A Python [str] is modelled by its UTF-8 encoding, byte by byte.
    [lower] is [str.lower] on the ASCII range; Python also lowers non-ASCII
    letters, but no non-ASCII character lowers to a string of ASCII letters
    other than 'k', so membership of the two all-ASCII names tested by
    [update_row] is the same under both. *)

Definition lower_ascii (c : ascii) : ascii :=
  let n := nat_of_ascii c in
  if ((65 <=? n) && (n <=? 90))%nat then ascii_of_nat (n + 32) else c.

Fixpoint lower (s : string) : string :=
  match s with
  | EmptyString => EmptyString
  | String c s' => String (lower_ascii c) (lower s')
  end.

(** The characters of a string: in UTF-8 every byte that is not a
    continuation byte (10xxxxxx) starts a character. *)
Definition is_continuation (c : ascii) : bool :=
  let n := nat_of_ascii c in ((128 <=? n) && (n <=? 191))%nat.

Fixpoint chars (s : string) : list string :=
  match s with
  | EmptyString => []
  | String c s' =>
      match s' with
      | EmptyString => [String c EmptyString]
      | String c' _ =>
          if is_continuation c' then
            match chars s' with
            | ch :: rest => String c ch :: rest
            | [] => [String c EmptyString]
            end
          else String c EmptyString :: chars s'
      end
  end.

(** The white space of [str.strip()] with no argument.  On the ASCII
    range: *)
Definition is_space (c : ascii) : bool :=
  let n := nat_of_ascii c in
  (((9 <=? n) && (n <=? 13)) || ((28 <=? n) && (n <=? 32)))%nat.

(** and beyond it U+0085, U+00A0, U+1680, U+2000 to U+200A, U+2028,
    U+2029, U+202F, U+205F and U+3000, by their encodings. *)
Definition unicode_spaces : list (list N) :=
  [ [194; 133]; [194; 160]; [225; 154; 128];
    [226; 128; 128]; [226; 128; 129]; [226; 128; 130]; [226; 128; 131];
    [226; 128; 132]; [226; 128; 133]; [226; 128; 134]; [226; 128; 135];
    [226; 128; 136]; [226; 128; 137]; [226; 128; 138];
    [226; 128; 168]; [226; 128; 169]; [226; 128; 175];
    [226; 129; 159]; [227; 128; 128] ]%N.

Definition codes (ch : string) : list N :=
  N_of_ascii <$> list_ascii_of_string ch.

Definition is_whitespace (ch : string) : bool :=
  match ch with
  | String c EmptyString => is_space c
  | _ => bool_decide (codes ch ∈ unicode_spaces)
  end.

Fixpoint drop_while {A} (p : A → bool) (l : list A) : list A :=
  match l with
  | [] => []
  | x :: l' => if p x then drop_while p l' else l
  end.

Definition lstrip (chs : list string) : list string :=
  drop_while is_whitespace chs.

Definition rstrip (chs : list string) : list string :=
  reverse (drop_while is_whitespace (reverse chs)).

Definition strip (s : string) : string :=
  String.concat "" (rstrip (lstrip (chars s))).

Definition startswith (p s : string) : bool := String.prefix p s.

Fixpoint last_char (s : string) : option ascii :=
  match s with
  | EmptyString => None
  | String c EmptyString => Some c
  | String _ s' => last_char s'
  end.

(** [s[1:-1]] *)
Fixpoint drop_last (s : string) : string :=
  match s with
  | EmptyString => EmptyString
  | String _ EmptyString => EmptyString
  | String c s' => String c (drop_last s')
  end.

Definition slice_1_m1 (s : string) : string :=
  match s with
  | EmptyString => EmptyString
  | String _ s' => drop_last s'
  end.

Definition dquote : ascii := ascii_of_nat 34.

(** The post-processing of the generated title in [_add_file]. *)
Definition clean_title (text : string) : string :=
  let title := strip text in
  if startswith (String dquote EmptyString) title
     && bool_decide (last_char title = Some dquote)
  then slice_1_m1 title else title.

(** ** Data model of the requests and of the observable effects *)

Abbreviation bytes := (list Byte.byte).

Section Router.

(** Opaque data of the collaborators: a row of a numpy array, a whole
    numpy array, what [embed_documents] returns, a column's raw generation
    config, and what the row executor produces. *)
Context {Vector NDArray RawEmbeddings GenConfig GenOutput : Type}.

(** A cell value of a row payload ([dict[str, Any]]). *)
Inductive Value : Type :=
| VNone
| VBool (b : bool)
| VInt (z : Z)
| VStr (s : string)
| VVec (v : Vector).

(** Modelled from the spec: the request classes of jamaibase.protocol are
    not part of the router.  A generation request is "target table id,
    list of row payloads (existing row id for regenerate, or raw values
    for add), reindex intent: force-yes, force-no, auto, stream flag"; the
    intent is [Some true], [Some false], [None].  The fields are the ones
    the router reads. *)
Record RowAddRequest : Type := {
  add_table_id : string;
  add_data : list (gmap string Value);
  add_stream : bool;
  add_reindex : option bool
}.

Record RowRegenRequest : Type := {
  regen_table_id : string;
  regen_row_ids : list string;
  regen_stream : bool;
  regen_reindex : option bool
}.

Record RowUpdateRequest : Type := {
  update_table_id : string;
  update_row_id : string;
  update_data : gmap string Value;
  update_reindex : option bool
}.

Record RowDeleteRequest : Type := {
  delete_table_id : string;
  delete_where : string;
  delete_reindex : option bool
}.

(** The [body] handed to [MultiRowsGenExecutor]. *)
Inductive GenBody : Type :=
| AddBody (body : RowAddRequest)
| RegenBody (body : RowRegenRequest).

Inductive Response : Type :=
| StreamingResponse (content : GenOutput) (status_code : Z)
    (media_type : string) (headers : list (string * string))
| Materialized (content : GenOutput).

Inductive OkResponse : Type := OkResponse_ok.

(** Modelled from the spec: column and table metadata belong to
    owl.db.gen_table.  A column has a "name, ... generation config ...,
    vector length (0 if non-embedding)"; the router also reads its dtype. *)
Record ColumnSchema : Type := {
  col_id : string;
  col_vlen : Z;
  col_dtype : string;
  col_gen_config : GenConfig
}.

Record TableMeta : Type := {
  meta_id : string;
  meta_cols : list ColumnSchema
}.

(** Modelled from the spec: a chunk is "text, position"; a file record is
    "id, name, content bytes, ..." ([file_info] is read at "ID",
    "File Name" and "Content"). *)
Record Chunk : Type := {
  chunk_text : string;
  chunk_position : Z
}.

Record FileInfo : Type := {
  fi_ID : string;
  fi_File_Name : string;
  fi_Content : bytes
}.

Record CloudEmbedder : Type := {
  embedder_name : string;
  api_key : string
}.

Record ChatEntry : Type := {
  role : string;
  content : string
}.

(** A table handle as the maintenance jobs see it. *)
Inductive AnyTable : Type :=
| GenT (t : GenerativeTable)
| FileT (t : FileTable).

(** A job handed to [BackgroundTasks.add_task]; it runs after the response
    has been sent, outside the handler. *)
Inductive Task : Type :=
| TaskCreateIndexes (table : GenerativeTable) (table_id : string).

Inductive LogMsg : Type :=
| LogReindexStarted
| LogReindexTableFailed (table_path : string)
| LogReindexCompleted (num_ok num_skipped num_failed : nat)
| LogReindexSkipped
| LogReindexError
| LogOptimizeStarted
| LogOptimizeTableFailed (table_path : string)
| LogOptimizeCompleted (num_ok num_skipped num_failed : nat)
| LogOptimizeSkipped
| LogOptimizeError
| LogAddRowFailed (body : RowAddRequest)
| LogRegenRowFailed (body : RowRegenRequest)
| LogUpdateRowsFailed (body : RowUpdateRequest)
| LogDeleteRowsFailed (body : RowDeleteRequest)
| LogDeleteRowFailed (row_id table_id : string)
| LogSplittingFile (file_name : string)
| LogTitleExtractionUsing (request_id model : string)
| LogTitleExtractionErrored (request_id excerpt : string)
| LogUploading (request_id file_name table_id : string)
    (chunk_size chunk_overlap : Z)
| LogUploadFailed (org_id project_id file_name : string).

Inductive LogLevel : Type := debug | info | exception.

(** Calls into the storage engine, the lock and the logger, in the order
    the router makes them. *)
Inductive Event : Type :=
| EvAcquire (lock_file : string)
| EvRelease (lock_file : string)
| EvLog (level : LogLevel) (msg : LogMsg)
| EvGenRows (table : GenerativeTable) (body : GenBody)
| EvUpdateRows (table : GenerativeTable) (table_id where_ : string)
    (values : gmap string Value)
| EvDeleteRows (table : GenerativeTable) (table_id where_ : string)
| EvDeleteRow (table : GenerativeTable) (table_id row_id : string)
| EvCreateIndexes (table : AnyTable) (table_id : string)
| EvCompactFiles (table : AnyTable) (table_id : option string)
| EvCleanupOldVersions (table : AnyTable) (table_id : option string)
    (older_than_days : Z)
| EvFileAdd (table : FileTable) (file_name : string) (content : bytes)
    (blake2b_checksum : string).

Record World : Type := {
  trace : list Event;        (* effects so far, oldest first *)
  bg_tasks : list Task;      (* the request's BackgroundTasks *)
  held : gset string         (* lock files currently held by anyone *)
}.

(** ** The monad *)

Definition M (A : Type) : Type := World → outcome A * World.

Global Instance M_ret : MRet M := λ A a w, (Ret a, w).

Global Instance M_bind : MBind M := λ A B f m w,
  match m w with
  | (Ret a, w') => f a w'
  | (Raise e, w') => (Raise e, w')
  | (Stall, w') => (Stall, w')
  end.

Definition raise {A} (e : exn) : M A := λ w, (Raise e, w).

Definition stall {A} : M A := λ w, (Stall, w).

(** [try: m except Exception as e: h e] *)
Definition try_except {A} (m : M A) (h : exn → M A) : M A := λ w,
  match m w with
  | (Raise e, w') => h e w'
  | r => r
  end.

Definition emit (ev : Event) : M unit := λ w,
  (Ret tt, {| trace := trace w ++ [ev]; bg_tasks := bg_tasks w;
              held := held w |}).

Definition logger (level : LogLevel) (msg : LogMsg) : M unit :=
  emit (EvLog level msg).

Definition add_task (t : Task) : M unit := λ w,
  (Ret tt, {| trace := trace w; bg_tasks := bg_tasks w ++ [t];
              held := held w |}).

(** Code that only chains collaborator calls, with no effect of its own
    to record, is written in the plain error monad. *)
Global Instance result_ret : MRet result := λ A a, Ok a.

Global Instance result_bind : MBind result := λ A B f r,
  match r with
  | Ok a => f a
  | Err e => Err e
  end.

(** A collaborator call returns or raises; [call_ev] records it first. *)
Definition call {A} (r : result A) : M A :=
  match r with
  | Ok a => mret a
  | Err e => raise e
  end.

Definition call_ev {A} (ev : Event) (r : result A) : M A :=
  emit ev ;; call r.

(** The handlers' common epilogue:
    [except OwlException: raise] / [except Exception: logger.exception(..); raise]. *)
Definition reraising {A} (msg : LogMsg) (m : M A) : M A :=
  try_except m (λ e,
    if is_OwlException e then raise e
    else logger exception msg ;; raise e).


(** ** Collaborators

    Everything the router imports and calls, as functions of the call's
    arguments: within one run a collaborator answers the same call the
    same way.  Nothing else is assumed about them. *)

(** [hashlib.blake2b()]: a hasher object is a state that [update] moves. *)
Record Hasher : Type := {
  hasher_state : Type;
  hasher_new : hasher_state;
  hasher_update : hasher_state → bytes → hasher_state;
  hasher_hexdigest : hasher_state → string
}.

Record DirEntry : Type := {
  de_path : string;      (* str(path) *)
  de_name : string;      (* path.name *)
  de_is_dir : bool
}.

Record Env : Type := {
  (* pathlib *)
  iterdir : string → result (list DirEntry);
  (* owl.db.gen_table / owl.db.file *)
  list_meta : GenerativeTable → Z → Z → result (list TableMeta * Z);
  open_meta : GenerativeTable → string → result TableMeta;
  count_rows : GenerativeTable → string → result Z;
  update_rows :
    GenerativeTable → string → string → gmap string Value → result unit;
  delete_rows : GenerativeTable → string → string → result unit;
  delete_row : GenerativeTable → string → string → result unit;
  create_indexes : AnyTable → string → result bool;
  compact_files : AnyTable → option string → result bool;
  cleanup_old_versions : AnyTable → option string → Z → result bool;
  add_file : FileTable → string → bytes → string → result FileInfo;
  (* owl.db.gen_executor: MultiRowsGenExecutor(...).gen_rows() *)
  gen_rows :
    GenerativeTable → Request → GenBody → Z → Z → ApiKeys → result GenOutput;
  (* owl.loaders *)
  load_file : string → bytes → result (list Chunk);
  split_chunks : list Chunk → Z → Z → result (list Chunk);
  (* owl.llm *)
  model_names : string → list string → ApiKeys → result (list string);
  predict :
    Request → string → list ChatEntry → Z → QArith_base.Q → QArith_base.Q → bool → ApiKeys →
    result string;
  (* jamaibase.protocol *)
  DEFAULT_CHAT_MODEL : string;
  RowAddRequest_reindex_default : option bool;
  EmbedGenConfig_model_validate : GenConfig → result string;
  (* owl.utils, owl.models *)
  get_api_key : string → ApiKeys → result string;
  embed_documents : CloudEmbedder → list string → result RawEmbeddings;
  (* numpy *)
  np_asarray : RawEmbeddings → string → result NDArray;
  np_linalg_norm_axis1_keepdims : NDArray → result NDArray;
  np_divide : NDArray → NDArray → result NDArray;
  np_rows : NDArray → list Vector;
  (* hashlib *)
  blake2b : Hasher
}.

Context (config : Config) (env : Env).

(** ** Row handlers *)

(** [body.reindex or (body.reindex is None and
      table.count_rows(body.table_id) <= config.owl_immediate_reindex_max_rows)] *)
Definition reindex_now (reindex : option bool) (table : GenerativeTable)
    (table_id : string) : result bool :=
  if default false reindex then mret true
  else if bool_decide (reindex = None) then
    n ← count_rows env table table_id;
    mret (Z.leb n (owl_immediate_reindex_max_rows config))
  else mret false.

Definition run_executor (table : GenerativeTable) (request : Request)
    (body : GenBody) (keys : ApiKeys) : M GenOutput :=
  call_ev (EvGenRows table body)
    (gen_rows env table request body
       (owl_concurrent_rows_batch_size config)
       (owl_concurrent_cols_batch_size config) keys).

Definition respond (stream : bool) (out : GenOutput) : Response :=
  if stream then
    StreamingResponse out 200 "text/event-stream" [("X-Accel-Buffering", "no")]
  else Materialized out.

Definition add_rows (request : Request) (table_type : TableType)
    (body : RowAddRequest) (keys : ApiKeys) : M Response :=
  reraising (LogAddRowFailed body) (
    let table := _get_gen_table config (org_id request) (project_id request)
                   table_type in
    now ← call (reindex_now (add_reindex body) table (add_table_id body));
    (if now : bool
     then add_task (TaskCreateIndexes table (add_table_id body))
     else mret tt) ;;
    out ← run_executor table request (AddBody body) keys;
    mret (respond (add_stream body) out)).

Definition regen_rows (request : Request) (table_type : TableType)
    (body : RowRegenRequest) (keys : ApiKeys) : M Response :=
  reraising (LogRegenRowFailed body) (
    let table := _get_gen_table config (org_id request) (project_id request)
                   table_type in
    now ← call (reindex_now (regen_reindex body) table (regen_table_id body));
    (if now : bool
     then add_task (TaskCreateIndexes table (regen_table_id body))
     else mret tt) ;;
    out ← run_executor table request (RegenBody body) keys;
    mret (respond (regen_stream body) out)).

Definition fixed_column_error : exn :=
  TableSchemaFixedError "Cannot update 'Text Embed' or 'Title Embed'.".

Definition update_row (request : Request) (table_type : TableType)
    (body : RowUpdateRequest) : M OkResponse :=
  reraising (LogUpdateRowsFailed body) (
    let table := _get_gen_table config (org_id request) (project_id request)
                   table_type in
    (if bool_decide (table_type = knowledge) then
       let col_names : gset string := set_map lower (dom (update_data body)) in
       if bool_decide ("text embed" ∈ col_names)
          || bool_decide ("title embed" ∈ col_names)
       then raise fixed_column_error
       else mret tt
     else mret tt) ;;
    let where_ := "`ID` = '" +:+ update_row_id body +:+ "'" in
    call_ev
      (EvUpdateRows table (update_table_id body) where_ (update_data body))
      (update_rows env table (update_table_id body) where_ (update_data body)) ;;
    now ← call (reindex_now (update_reindex body) table (update_table_id body));
    (if now : bool
     then add_task (TaskCreateIndexes table (update_table_id body))
     else mret tt) ;;
    mret OkResponse_ok).

Definition delete_rows_handler (request : Request) (table_type : TableType)
    (body : RowDeleteRequest) : M OkResponse :=
  reraising (LogDeleteRowsFailed body) (
    let table := _get_gen_table config (org_id request) (project_id request)
                   table_type in
    call_ev (EvDeleteRows table (delete_table_id body) (delete_where body))
      (delete_rows env table (delete_table_id body) (delete_where body)) ;;
    now ← call (reindex_now (delete_reindex body) table (delete_table_id body));
    (if now : bool
     then add_task (TaskCreateIndexes table (delete_table_id body))
     else mret tt) ;;
    mret OkResponse_ok).

Definition delete_row_handler (request : Request) (table_type : TableType)
    (table_id row_id : string) (reindex : bool) : M OkResponse :=
  reraising (LogDeleteRowFailed row_id table_id) (
    let table := _get_gen_table config (org_id request) (project_id request)
                   table_type in
    call_ev (EvDeleteRow table table_id row_id)
      (delete_row env table table_id row_id) ;;
    (if reindex then add_task (TaskCreateIndexes table table_id) else mret tt) ;;
    mret OkResponse_ok).

(** ** Maintenance jobs *)

(** What [_iter_all_tables] yields: [(session, table, meta, table_path)]. *)
Inductive Session : Type := SessionOf (t : GenerativeTable).

Record Item : Type := {
  it_session : option Session;
  it_table : AnyTable;
  it_meta : option TableMeta;
  it_path : string
}.

(** A generator run to its end: the items it yields, closed by normal
    exhaustion, by an exception raised from inside the generator, or
    never closed. *)
Inductive Gen : Type :=
| GDone
| GYield (it : Item) (rest : Gen)
| GRaise (e : exn)
| GStall.

Fixpoint gen_seq (g k : Gen) : Gen :=
  match g with
  | GDone => k
  | GYield it rest => GYield it (gen_seq rest k)
  | GRaise e => GRaise e
  | GStall => GStall
  end.

(** [for x in xs: <body x>] inside a generator. *)
Fixpoint gen_for {A} (xs : list A) (body : A → Gen) : Gen :=
  match xs with
  | [] => GDone
  | x :: xs' => gen_seq (body x) (gen_for xs' body)
  end.

Definition table_types : list TableType := [action; knowledge; chat].

(** The pagination loop
    [offset, total = 0, 1
     while offset < total:
         metas, total = table.list_meta(session, offset=offset, limit=batch_size, ...)
         offset += batch_size
         for meta in metas: yield ...].
    [fuel] bounds the number of pages requested; a loop that wants more
    is [GStall]. *)
Fixpoint iter_pages (fuel : nat) (batch_size : Z) (table : GenerativeTable)
    (project_dir : string) (table_type : TableType) (offset total : Z) : Gen :=
  if bool_decide (offset < total) then
    match fuel with
    | O => GStall
    | S fuel' =>
        match list_meta env table offset batch_size with
        | Err e => GRaise e
        | Ok (metas, total') =>
            gen_seq
              (gen_for metas (λ meta,
                 GYield {| it_session := Some (SessionOf table);
                           it_table := GenT table;
                           it_meta := Some meta;
                           it_path := project_dir +:+ "/"
                             +:+ TableType_value table_type +:+ "/"
                             +:+ meta_id meta |} GDone))
              (iter_pages fuel' batch_size table project_dir table_type
                 (offset + batch_size) total')
        end
    end
  else GDone.

Definition iter_project (fuel : nat) (batch_size : Z) (org_dir project_dir : DirEntry)
    : Gen :=
  if negb (de_is_dir project_dir) then GDone
  else
    gen_seq
      (gen_for table_types (λ table_type,
         let table := _get_gen_table config (de_name org_dir)
                        (de_name project_dir) table_type in
         iter_pages fuel batch_size table (de_path project_dir) table_type 0 1))
      (let table := _get_file_table config (de_name org_dir)
                      (de_name project_dir) in
       GYield {| it_session := None;
                 it_table := FileT table;
                 it_meta := None;
                 it_path := de_path project_dir +:+ "/file/file" |} GDone).

Definition iter_org (fuel : nat) (batch_size : Z) (org_dir : DirEntry) : Gen :=
  if negb (de_is_dir org_dir) then GDone
  else
    match iterdir env (de_path org_dir) with
    | Err e => GRaise e
    | Ok project_dirs => gen_for project_dirs (iter_project fuel batch_size org_dir)
    end.

Definition _iter_all_tables (fuel : nat) (batch_size : Z) : Gen :=
  match iterdir env (owl_db_dir config) with
  | Err e => GRaise e
  | Ok org_dirs => gen_for org_dirs (iter_org fuel batch_size)
  end.

(** [FileLock(path, blocking=False).acquire()]: one attempt, [Timeout] at
    once when the lock is held by anyone. *)
Definition acquire (lock_file : string) : M unit :=
  emit (EvAcquire lock_file) ;;
  (λ w,
     if bool_decide (lock_file ∈ held w) then (Raise (Timeout lock_file), w)
     else (Ret tt, {| trace := trace w; bg_tasks := bg_tasks w;
                      held := {[lock_file]} ∪ held w |})) : M unit.

Definition release (lock_file : string) : M unit := λ w,
  (Ret tt, {| trace := trace w ++ [EvRelease lock_file];
              bg_tasks := bg_tasks w;
              held := held w ∖ {[lock_file]} |}).

(** [try: m finally: cleanup]: the cleanup runs when [m] returns and when
    it raises; it never runs while [m] has not come back. *)
Definition finally {A} (m : M A) (cleanup : M unit) : M A := λ w,
  let '(r, w') := m w in
  match r with
  | Stall => (Stall, w')
  | _ => (r, (cleanup w').2)
  end.

(** [with lock: body] *)
Definition with_lock {A} (lock_file : string) (body : M A) : M A :=
  acquire lock_file ;; finally body (release lock_file).

Inductive IndexJobOutcome : Type := job_ok | job_skipped | job_failed.

Global Instance IndexJobOutcome_eq_dec : EqDecision IndexJobOutcome.
Proof. solve_decision. Defined.

Record Tally : Type := {
  num_ok : nat;
  num_skipped : nat;
  num_failed : nat
}.

Definition tally_zero : Tally :=
  {| num_ok := 0; num_skipped := 0; num_failed := 0 |}.

Definition tally_add (o : IndexJobOutcome) (t : Tally) : Tally :=
  match o with
  | job_ok => {| num_ok := S (num_ok t); num_skipped := num_skipped t;
                 num_failed := num_failed t |}
  | job_skipped => {| num_ok := num_ok t; num_skipped := S (num_skipped t);
                      num_failed := num_failed t |}
  | job_failed => {| num_ok := num_ok t; num_skipped := num_skipped t;
                     num_failed := S (num_failed t) |}
  end.

(** [meta.id]; on [None] Python raises AttributeError. *)
Definition meta_id_of (meta : option TableMeta) : M string :=
  match meta with
  | Some m => mret (meta_id m)
  | None => raise (OtherException "AttributeError")
  end.

(** The body of the reindex loop for an item that has a session. *)
Definition reindex_visit (it : Item) : M IndexJobOutcome :=
  try_except
    (table_id ← meta_id_of (it_meta it);
     reindexed ← call_ev (EvCreateIndexes (it_table it) table_id)
                   (create_indexes env (it_table it) table_id);
     mret (if reindexed : bool then job_ok else job_skipped))
    (λ _, logger exception (LogReindexTableFailed (it_path it)) ;;
          mret job_failed).

Fixpoint reindex_loop (g : Gen) (t : Tally) : M Tally :=
  match g with
  | GDone => mret t
  | GRaise e => raise e
  | GStall => stall
  | GYield it rest =>
      match it_session it with
      | None => reindex_loop rest t
      | Some _ =>
          o ← reindex_visit it;
          reindex_loop rest (tally_add o t)
      end
  end.

Definition periodic_reindex (fuel : nat) : M unit :=
  let lock := owl_db_dir config +:+ "/periodic_reindex.lock" in
  try_except
    (t ← with_lock lock
           (logger info LogReindexStarted ;;
            reindex_loop (_iter_all_tables fuel 200) tally_zero);
     logger info (LogReindexCompleted (num_ok t) (num_skipped t) (num_failed t)))
    (λ e, if is_Timeout e then logger info LogReindexSkipped
          else logger exception LogReindexError).

(** [done = done and <call>]: the call is made only while [done] holds. *)
Definition and_then (done : bool) (m : M bool) : M bool :=
  if done then m else mret done.

(** [timedelta(days=n)], as a number of days: the constructor raises
    OverflowError for a magnitude above 999999999 days. *)
Definition timedelta_days (days : Z) : result Z :=
  if bool_decide (-999999999 ≤ days ≤ 999999999)%Z then Ok days
  else Err OverflowError.

(** The body of the optimize loop.  The arguments of a call are evaluated
    before the call: [timedelta(days=...)] is built, and can raise, after
    [done and] has let the call through and before
    [cleanup_old_versions] is entered. *)
Definition optimize_visit (it : Item) : M IndexJobOutcome :=
  let days := owl_remove_version_older_than_days config in
  let table := it_table it in
  try_except
    (let done := true in
     done ←
       match it_meta it with
       | None =>
           done ← and_then done
                    (call_ev (EvCompactFiles table None)
                       (compact_files env table None));
           and_then done
             (older_than ← call (timedelta_days days);
              call_ev (EvCleanupOldVersions table None older_than)
                (cleanup_old_versions env table None older_than))
       | Some meta =>
           done ← and_then done
                    (call_ev (EvCompactFiles table (Some (meta_id meta)))
                       (compact_files env table (Some (meta_id meta))));
           and_then done
             (older_than ← call (timedelta_days days);
              call_ev (EvCleanupOldVersions table (Some (meta_id meta)) older_than)
                (cleanup_old_versions env table (Some (meta_id meta)) older_than))
       end;
     mret (if done : bool then job_ok else job_skipped))
    (λ _, logger exception (LogOptimizeTableFailed (it_path it)) ;;
          mret job_failed).

Fixpoint optimize_loop (g : Gen) (t : Tally) : M Tally :=
  match g with
  | GDone => mret t
  | GRaise e => raise e
  | GStall => stall
  | GYield it rest =>
      o ← optimize_visit it;
      optimize_loop rest (tally_add o t)
  end.

Definition periodic_optimize (fuel : nat) : M unit :=
  let lock := owl_db_dir config +:+ "/periodic_optimization.lock" in
  try_except
    (t ← with_lock lock
           (logger info LogOptimizeStarted ;;
            optimize_loop (_iter_all_tables fuel 200) tally_zero);
     logger info (LogOptimizeCompleted (num_ok t) (num_skipped t) (num_failed t)))
    (λ e, if is_Timeout e then logger info LogOptimizeSkipped
          else logger exception LogOptimizeError).

(** ** File ingestion *)

Definition _embed (embedder : CloudEmbedder) (texts : list string)
    (embed_dtype : string) : result NDArray :=
  embeddings ← embed_documents env embedder texts;
  embeddings ← np_asarray env embeddings embed_dtype;
  norms ← np_linalg_norm_axis1_keepdims env embeddings;
  np_divide env embeddings norms.

(** [array[0]] *)
Definition getitem_0 (a : NDArray) : result Vector :=
  match np_rows env a with
  | v :: _ => Ok v
  | [] => Err (IndexError "index 0 is out of bounds for axis 0 with size 0")
  end.

Definition nl : string := String (ascii_of_nat 10) EmptyString.

Definition title_messages (excerpt : string) : list ChatEntry :=
  [ {| role := "system"; content := "You are an concise assistant." |};
    {| role := "user";
       content :=
         "CONTEXT:" +:+ nl +:+ excerpt +:+ nl +:+ nl
         +:+ "From the excerpt, extract the document title or guess a possible title. "
         +:+ "Provide the title without explanation." |} ].

(** The title-generation request of [_add_file]. *)
Definition predict_title (request : Request) (model excerpt : string)
    (keys : ApiKeys) : result string :=
  predict env request model (title_messages excerpt) 200
    (QArith_base.Qmake 1 100) (QArith_base.Qmake 1 100) false keys.

(** The [try: ... except Exception: ... title = ""] block. *)
Definition extract_title (request : Request) (request_id model excerpt : string)
    (keys : ApiKeys) : M string :=
  try_except
    (text ← call (predict_title request model excerpt keys);
     mret (clean_title text))
    (λ _, logger exception (LogTitleExtractionErrored request_id excerpt) ;;
          mret "").

(** The [for col in meta.cols] loop, threading [title_embed] and
    [text_embeds]. *)
Fixpoint embed_columns (cols : list ColumnSchema) (title : string)
    (chunks : list Chunk) (keys : ApiKeys)
    (title_embed : option Vector) (text_embeds : list Vector)
    : result (option Vector * list Vector) :=
  match cols with
  | [] => Ok (title_embed, text_embeds)
  | col :: cols' =>
      if bool_decide (col_vlen col = 0) then
        embed_columns cols' title chunks keys title_embed text_embeds
      else
        embedding_model ← EmbedGenConfig_model_validate env (col_gen_config col);
        api_key ← get_api_key env embedding_model keys;
        let embedder := {| embedder_name := embedding_model; api_key := api_key |} in
        if bool_decide (col_id col = "Title Embed") then
          a ← _embed embedder [title] (col_dtype col);
          v ← getitem_0 a;
          embed_columns cols' title chunks keys (Some v) text_embeds
        else if bool_decide (col_id col = "Text Embed") then
          a ← _embed embedder (chunk_text <$> chunks) (col_dtype col);
          embed_columns cols' title chunks keys title_embed (np_rows env a)
        else
          embed_columns cols' title chunks keys title_embed text_embeds
  end.

Definition embedding_error : exn :=
  RuntimeError
    "Sorry we encountered an issue during embedding. Please try again later.".

Definition ingest_row (title file_id : string) (title_embed : Vector)
    (ce : Chunk * Vector) : gmap string Value :=
  {[ "Text" := VStr (chunk_text ce.1);
     "Text Embed" := VVec ce.2;
     "Title" := VStr title;
     "Title Embed" := VVec title_embed;
     "File ID" := VStr file_id ]}.

(** The second half of [_add_file], under its comment
    "--- Add into Knowledge Table ---". *)
Definition add_into_knowledge_table (request : Request) (table_id : string)
    (file_info : FileInfo) (chunks : list Chunk) (title : string)
    (keys : ApiKeys) : M OkResponse :=
  let table := _get_gen_table config (org_id request) (project_id request)
                 knowledge in
  meta ← call (open_meta env table table_id);
  '(title_embed, text_embeds) ←
    call (embed_columns (meta_cols meta) title chunks keys None []);
  match title_embed with
  | Some title_embed =>
      if bool_decide (length text_embeds = 0%nat) then raise embedding_error
      else
        let row_add_data :=
          ingest_row title (fi_ID file_info) title_embed
            <$> zip chunks text_embeds in
        add_rows request knowledge
          {| add_table_id := table_id; add_data := row_add_data;
             add_stream := false;
             add_reindex := RowAddRequest_reindex_default env |} keys ;;
        call_ev (EvCreateIndexes (GenT table) table_id)
          (create_indexes env (GenT table) table_id) ;;
        mret OkResponse_ok
  | None => raise embedding_error
  end.

Definition _add_file (request : Request) (request_id table_id : string)
    (file_info : FileInfo) (chunk_size chunk_overlap : Z) (keys : ApiKeys)
    : M OkResponse :=
  let file_name := fi_File_Name file_info in
  chunks ← call (load_file env file_name (fi_Content file_info));
  logger debug (LogSplittingFile file_name) ;;
  chunks ← call (split_chunks env chunks chunk_size chunk_overlap);
  (* --- Extract title --- *)
  let excerpt := String.concat "" (chunk_text <$> take 8 chunks) in
  model ← call (model_names env (DEFAULT_CHAT_MODEL env) ["chat"] keys);
  model ← match model with
          | m :: _ => mret m
          | [] => raise (IndexError "list index out of range")
          end;
  logger debug (LogTitleExtractionUsing request_id model) ;;
  title ← extract_title request request_id model excerpt keys;
  (* --- Add into Knowledge Table --- *)
  add_into_knowledge_table request table_id file_info chunks title keys.

(** [range(0, stop, step)] for a positive step. *)
Definition range_0 (stop step : Z) : list Z :=
  (λ k, k * step) <$> seqZ 0 ((stop + step - 1) `div` step).

(** [content[i : j]] for [0 <= i <= j]. *)
Definition slice (content : bytes) (i j : Z) : bytes :=
  take (Z.to_nat (j - i)) (drop (Z.to_nat i) content).

(** The checksum loop of [upload_file], for any block size. *)
Definition checksum (block_size : Z) (content : bytes) : string :=
  let H := blake2b env in
  let hasher :=
    fold_left
      (λ hasher i, hasher_update H hasher (slice content i (i + block_size)))
      (range_0 (Z.of_nat (length content)) block_size)
      (hasher_new H) in
  hasher_hexdigest H hasher.

Definition upload_file (request : Request) (file : bytes)
    (file_name table_id : string) (chunk_size chunk_overlap : Z)
    (keys : ApiKeys) : M OkResponse :=
  logger info (LogUploading (request_id request) file_name table_id
                 chunk_size chunk_overlap) ;;
  reraising (LogUploadFailed (org_id request) (project_id request) file_name) (
    (* --- Add into File Table --- *)
    let content := file in
    let file_table := _get_file_table config (org_id request)
                        (project_id request) in
    let block_size := 2 ^ 10 in
    file_info ← call_ev
      (EvFileAdd file_table file_name content (checksum block_size content))
      (add_file env file_table file_name content (checksum block_size content));
    (* --- Add into Knowledge Table --- *)
    _add_file request (request_id request) table_id file_info chunk_size
      chunk_overlap keys).

(** ** Vocabulary of the properties *)

(** The request asks for an immediate reindex: intent force-yes, or intent
    auto with a row count at or below the threshold. *)
Definition reindex_due (reindex : option bool) (row_count : result Z) : Prop :=
  reindex = Some true
  ∨ (reindex = None
     ∧ ∃ n, row_count = Ok n ∧ (n ≤ owl_immediate_reindex_max_rows config)%Z).

(** Intent force-no, or intent auto with a row count above the threshold. *)
Definition reindex_not_due (reindex : option bool) (row_count : result Z) : Prop :=
  reindex = Some false
  ∨ (reindex = None
     ∧ ∃ n, row_count = Ok n ∧ (owl_immediate_reindex_max_rows config < n)%Z).

(** What a handler run from [w] to [w'] did about reindexing [table_id]. *)
Definition follows_reindex_policy (reindex : option bool)
    (table : GenerativeTable) (table_id : string) (w w' : World) : Prop :=
  let row_count := count_rows env table table_id in
  (reindex_due reindex row_count →
     bg_tasks w' = bg_tasks w ++ [TaskCreateIndexes table table_id])
  ∧ (reindex_not_due reindex row_count → bg_tasks w' = bg_tasks w)
  ∧ (∃ evs, trace w' = trace w ++ evs ∧ ∀ t i, EvCreateIndexes t i ∉ evs).

(** Equality of column names up to letter case. *)
Definition same_name_ignoring_case (a b : string) : Prop := lower a = lower b.

(** The payload of an update has a key that names, up to letter case, one
    of the two fixed embedding columns of a knowledge table. *)
Definition touches_fixed_embedding (data : gmap string Value) : Prop :=
  ∃ k, k ∈ dom data
       ∧ (same_name_ignoring_case k "Text Embed"
          ∨ same_name_ignoring_case k "Title Embed").

(** The items a generator yields, and how it ends. *)
Fixpoint gen_items (g : Gen) : list Item :=
  match g with
  | GYield it rest => it :: gen_items rest
  | _ => []
  end.

Fixpoint gen_end (g : Gen) : outcome unit :=
  match g with
  | GYield _ rest => gen_end rest
  | GDone => Ret tt
  | GRaise e => Raise e
  | GStall => Stall
  end.

Definition item_table_id (it : Item) : option string := meta_id <$> it_meta it.

(** The outcome of the optimize job on one table, from what the two
    storage calls answer: [ok] when both return true, [skipped] when
    compaction returns false or pruning does, [failed] when the one that is
    called raises, or when the retention window cannot be built. *)
Definition optimize_outcome (it : Item) : IndexJobOutcome :=
  match compact_files env (it_table it) (item_table_id it) with
  | Err _ => job_failed
  | Ok false => job_skipped
  | Ok true =>
      match timedelta_days (owl_remove_version_older_than_days config) with
      | Err _ => job_failed
      | Ok older_than =>
          match cleanup_old_versions env (it_table it) (item_table_id it)
                  older_than with
          | Err _ => job_failed
          | Ok false => job_skipped
          | Ok true => job_ok
          end
      end
  end.

(** The storage and logger calls of the optimize job on one table. *)
Definition optimize_events (it : Item) : list Event :=
  let days := owl_remove_version_older_than_days config in
  let failed := EvLog exception (LogOptimizeTableFailed (it_path it)) in
  EvCompactFiles (it_table it) (item_table_id it)
  :: match compact_files env (it_table it) (item_table_id it) with
     | Err _ => [failed]
     | Ok false => []
     | Ok true =>
         match timedelta_days days with
         | Err _ => [failed]
         | Ok older_than =>
             EvCleanupOldVersions (it_table it) (item_table_id it) older_than
             :: match cleanup_old_versions env (it_table it) (item_table_id it)
                        older_than with
                | Err _ => [failed]
                | Ok _ => []
                end
         end
     end.

(** The same for the reindex job, on an item that has a session. *)
Definition reindex_outcome (it : Item) : IndexJobOutcome :=
  match it_meta it with
  | None => job_failed
  | Some meta =>
      match create_indexes env (it_table it) (meta_id meta) with
      | Err _ => job_failed
      | Ok false => job_skipped
      | Ok true => job_ok
      end
  end.

Definition reindex_events (it : Item) : list Event :=
  let failed := EvLog exception (LogReindexTableFailed (it_path it)) in
  match it_meta it with
  | None => [failed]
  | Some meta =>
      EvCreateIndexes (it_table it) (meta_id meta)
      :: match create_indexes env (it_table it) (meta_id meta) with
         | Err _ => [failed]
         | Ok _ => []
         end
  end.

Definition has_session (it : Item) : bool :=
  match it_session it with Some _ => true | None => false end.

Definition tally_all (outcomes : list IndexJobOutcome) (t : Tally) : Tally :=
  fold_left (λ t o, tally_add o t) outcomes t.

Definition count_outcome (o : IndexJobOutcome) (l : list IndexJobOutcome) : nat :=
  length (filter (λ o', o' = o) l).

(** What a loop over [g] gives when its tallies end at [t]. *)
Definition loop_result (g : Gen) (t : Tally) : outcome Tally :=
  match gen_end g with
  | Ret _ => Ret t
  | Raise e => Raise e
  | Stall => Stall
  end.

(** [w] after the events [evs]. *)
Definition extend (w : World) (evs : list Event) : World :=
  {| trace := trace w ++ evs; bg_tasks := bg_tasks w; held := held w |}.

(** The last log line of a tick of the reindex and of the optimize job. *)
Definition reindex_closing (r : outcome Tally) : list Event :=
  match r with
  | Ret t =>
      [EvLog info (LogReindexCompleted (num_ok t) (num_skipped t) (num_failed t))]
  | Raise e =>
      [if is_Timeout e then EvLog info LogReindexSkipped
       else EvLog exception LogReindexError]
  | Stall => []
  end.

Definition optimize_closing (r : outcome Tally) : list Event :=
  match r with
  | Ret t =>
      [EvLog info (LogOptimizeCompleted (num_ok t) (num_skipped t) (num_failed t))]
  | Raise e =>
      [if is_Timeout e then EvLog info LogOptimizeSkipped
       else EvLog exception LogOptimizeError]
  | Stall => []
  end.

(** The lock at the end of a tick that took it: released, unless the
    enumeration never ends. *)
Definition tick_release (lock : string) (r : outcome Tally) : list Event :=
  match r with
  | Stall => []
  | _ => [EvRelease lock]
  end.

Definition tick_held (lock : string) (r : outcome Tally) (locks : gset string)
    : gset string :=
  match r with
  | Stall => {[lock]} ∪ locks
  | _ => ({[lock]} ∪ locks) ∖ {[lock]}
  end.

(** A tick returns unless the enumeration never ends. *)
Definition tick_result (r : outcome Tally) : outcome unit :=
  match r with
  | Stall => Stall
  | _ => Ret tt
  end.

(** An item that carries a session is an item of a generative table. *)
Definition session_on_gen_table (it : Item) : Prop :=
  match it_session it, it_table it with
  | Some _, FileT _ => False
  | _, _ => True
  end.

(** *** Ingestion *)

(** The embedding collaborators answer with one row per text. *)
Definition one_embedding_per_text : Prop :=
  ∀ embedder texts dtype a,
    _embed embedder texts dtype = Ok a → length (np_rows env a) = length texts.

(** [vs] are the rows [_embed] gave for [texts], in order. *)
Definition embedding_of (texts : list string) (vs : list Vector) : Prop :=
  ∃ embedder dtype a, _embed embedder texts dtype = Ok a ∧ vs = np_rows env a.

(** Loading and splitting the registered file. *)
Definition ingest_chunks (file_info : FileInfo) (chunk_size chunk_overlap : Z)
    : result (list Chunk) :=
  raw ← load_file env (fi_File_Name file_info) (fi_Content file_info);
  split_chunks env raw chunk_size chunk_overlap.

Definition excerpt_of (chunks : list Chunk) : string :=
  String.concat "" (chunk_text <$> take 8 chunks).

(** The title [_add_file] goes on with, from what [predict] answered. *)
Definition title_of (answer : result string) : string :=
  match answer with
  | Ok text => clean_title text
  | Err _ => ""
  end.

(** The log lines of [_add_file] before it turns to the knowledge table. *)
Definition prelude_log (request_id file_name model excerpt : string)
    (answer : result string) : list Event :=
  [EvLog debug (LogSplittingFile file_name);
   EvLog debug (LogTitleExtractionUsing request_id model)]
  ++ match answer with
     | Ok _ => []
     | Err _ => [EvLog exception (LogTitleExtractionErrored request_id excerpt)]
     end.

(** The columns the ingestion pipeline has a role for. *)
Definition ingestion_role (col : ColumnSchema) : Prop :=
  col_id col = "Title Embed" ∨ col_id col = "Text Embed".

Global Instance ingestion_role_dec col : Decision (ingestion_role col).
Proof. unfold ingestion_role. apply _. Defined.

Definition is_log (ev : Event) : Prop :=
  match ev with EvLog _ _ => True | _ => False end.

Definition is_gen_rows (ev : Event) : Prop :=
  match ev with EvGenRows _ _ => True | _ => False end.

(** [logger.exception] of a handler's epilogue, silent on domain errors. *)
Definition exception_log (e : exn) (msg : LogMsg) : list Event :=
  if is_OwlException e then [] else [EvLog exception msg].

Definition schedule (w : World) (t : Task) : World :=
  {| trace := trace w; bg_tasks := bg_tasks w ++ [t]; held := held w |}.

(** The request [_add_file] submits for the rows [data]. *)
Definition ingest_request (table_id : string) (data : list (gmap string Value))
    : RowAddRequest :=
  {| add_table_id := table_id; add_data := data; add_stream := false;
     add_reindex := RowAddRequest_reindex_default env |}.

(** Neither a row-generation call nor the log line of a failed title
    extraction. *)
Definition before_title_and_rows (ev : Event) : Prop :=
  match ev with
  | EvGenRows _ _ => False
  | EvLog _ (LogTitleExtractionErrored _ _) => False
  | _ => True
  end.

(** What [model[0]] raises after [model_names] answered. *)
Definition model_selection_error (answer : result (list string)) : option exn :=
  match answer with
  | Err e => Some e
  | Ok [] => Some (IndexError "list index out of range")
  | Ok (_ :: _) => None
  end.

(** *** Checksum *)

(** hashlib's contract for [update]: repeated calls are equivalent to a
    single call with the concatenation of all the arguments. *)
Definition streaming_contract (H : Hasher) : Prop :=
  ∀ chunks : list bytes,
    hasher_hexdigest H (fold_left (hasher_update H) chunks (hasher_new H))
    = hasher_hexdigest H (hasher_update H (hasher_new H) (mjoin chunks)).

(** The digest of [content] hashed in a single update. *)
Definition whole_digest (H : Hasher) (content : bytes) : string :=
  hasher_hexdigest H (hasher_update H (hasher_new H) content).

(** The blocks the checksum loop feeds to the hasher. *)
Definition blocks (block_size : Z) (content : bytes) : list bytes :=
  (λ i, slice content i (i + block_size))
    <$> range_0 (Z.of_nat (length content)) block_size.

(** *** Enumeration *)

(** The table-metadata store never reports more than [bound] tables. *)
Definition totals_bounded (bound : Z) : Prop :=
  ∀ table offset limit metas total,
    list_meta env table offset limit = Ok (metas, total) → (total ≤ bound)%Z.

(** Pages of [batch_size] still to be asked for from [offset] on, for a
    store of at most [bound] tables. *)
Definition pages_left (bound batch_size offset : Z) : nat :=
  Z.to_nat ((bound - offset + batch_size - 1) `div` batch_size).

End Router.

(** * Further vocabulary *)

(** A string of ASCII white space only. *)
Fixpoint all_space (s : string) : bool :=
  match s with
  | EmptyString => true
  | String c s' => is_space c && all_space s'
  end.

(** An identifier that can stand for one path segment. *)
Fixpoint no_slash (s : string) : bool :=
  match s with
  | EmptyString => true
  | String c s' => negb (Ascii.eqb c "/") && no_slash s'
  end.

(** The directory a generative table keeps its data in. *)
Definition lance_path_of (table : GenerativeTable) : string :=
  match table with
  | ActionTable _ lance_path _ => lance_path
  | KnowledgeTable _ lance_path _ => lance_path
  | ChatTable _ lance_path _ => lance_path
  end.

Section RouterMore.

Context {Vector NDArray RawEmbeddings GenConfig GenOutput : Type}.
Context (config : Config)
        (env : @Env Vector NDArray RawEmbeddings GenConfig GenOutput).

(** *** Enumeration *)

(** The table-metadata store of [table] holds the tables [metas] and
    answers a page request with the slice asked for and the number of
    tables it holds. *)
Definition paged_store (table : GenerativeTable) (batch_size : Z)
    (metas : list (TableMeta (GenConfig:=GenConfig))) : Prop :=
  ∀ offset, (0 ≤ offset)%Z →
    list_meta env table offset batch_size
    = Ok (take (Z.to_nat batch_size) (drop (Z.to_nat offset) metas),
          Z.of_nat (length metas)).

(** What the enumeration yields for the table described by [meta]. *)
Definition table_item (table : GenerativeTable) (project_dir : string)
    (table_type : TableType) (meta : TableMeta (GenConfig:=GenConfig))
    : Item (GenConfig:=GenConfig) :=
  {| it_session := Some (SessionOf table);
     it_table := GenT table;
     it_meta := Some meta;
     it_path := project_dir +:+ "/" +:+ TableType_value table_type +:+ "/"
                +:+ meta_id meta |}.

(** What the enumeration yields last for a project directory: its file
    table. *)
Definition file_item (org_dir project_dir : DirEntry)
    : Item (GenConfig:=GenConfig) :=
  {| it_session := None;
     it_table := FileT (_get_file_table config (de_name org_dir)
                          (de_name project_dir));
     it_meta := None;
     it_path := de_path project_dir +:+ "/file/file" |}.

(** The tables of one project directory, for a store that holds
    [metas_of table] behind every table object: those of type action, then
    knowledge, then chat, then the file table. *)
Definition project_items
    (metas_of : GenerativeTable → list (TableMeta (GenConfig:=GenConfig)))
    (org_dir project_dir : DirEntry) : list (Item (GenConfig:=GenConfig)) :=
  (table_type ← table_types;
   let table := _get_gen_table config (de_name org_dir) (de_name project_dir)
                  table_type in
   table_item table (de_path project_dir) table_type <$> metas_of table)
  ++ [file_item org_dir project_dir].

(** The tables of the whole storage directory: the directories under the
    root are organisations, the directories under these are projects. *)
Definition all_items (org_dirs : list DirEntry)
    (projects_of : DirEntry → list DirEntry)
    (metas_of : GenerativeTable → list (TableMeta (GenConfig:=GenConfig)))
    : list (Item (GenConfig:=GenConfig)) :=
  org_dir ← filter (λ d, de_is_dir d) org_dirs;
  project_dir ← filter (λ d, de_is_dir d) (projects_of org_dir);
  project_items metas_of org_dir project_dir.

(** *** What a piece of code adds to the trace *)

(** Whatever the world it starts from, [m] only appends to the trace, and
    every event it appends satisfies [P]. *)
Definition appends {A} (P : Event → Prop) (m : M A) : Prop :=
  ∀ w : World (Vector:=Vector),
    ∃ evs, trace (m w).2 = trace w ++ evs ∧ Forall P evs.

(** The line a handler's epilogue logs for the outcome [r]. *)
Definition failure_line {A} (msg : LogMsg) (r : outcome A)
    : list (Event (Vector:=Vector)) :=
  match r with
  | Raise e => exception_log e msg
  | _ => []
  end.

(** A run from [w] logged the failure [msg] as the last thing it did, if
    it raised something else than a domain error, and at no other time. *)
Definition logs_failure_once {A} (msg : LogMsg) (w : World)
    (run : outcome A * World) : Prop :=
  ∃ evs, trace run.2 = trace w ++ evs ++ failure_line msg run.1
         ∧ Forall (λ ev, ev ≠ EvLog exception msg) evs.

End RouterMore.

(** * A concrete hasher: BLAKE2b

    [hashlib.blake2b()] with its default parameters is BLAKE2b of RFC 7693,
    unkeyed, with a 64-byte digest.  The router only assumes hashlib's
    contract for [update]; this model of the algorithm, with its buffer of
    pending input, is an instance that keeps it. *)

Module Blake2b.

Definition wrap64 (x : Z) : Z := x `mod` 2 ^ 64.

Definition rotr64 (x n : Z) : Z :=
  Z.lor (Z.shiftr x n) (wrap64 (Z.shiftl x (64 - n))).

Definition IV : list Z :=
  [ 0x6a09e667f3bcc908; 0xbb67ae8584caa73b; 0x3c6ef372fe94f82b;
    0xa54ff53a5f1d36f1; 0x510e527fade682d1; 0x9b05688c2b3e6c1f;
    0x1f83d9abfb41bd6b; 0x5be0cd19137e2179 ].

Definition SIGMA : list (list nat) :=
  [ [0; 1; 2; 3; 4; 5; 6; 7; 8; 9; 10; 11; 12; 13; 14; 15];
    [14; 10; 4; 8; 9; 15; 13; 6; 1; 12; 0; 2; 11; 7; 5; 3];
    [11; 8; 12; 0; 5; 2; 15; 13; 10; 14; 3; 6; 7; 1; 9; 4];
    [7; 9; 3; 1; 13; 12; 11; 14; 2; 6; 5; 10; 4; 0; 15; 8];
    [9; 0; 5; 7; 2; 4; 10; 15; 14; 1; 11; 12; 6; 8; 3; 13];
    [2; 12; 6; 10; 0; 11; 8; 3; 4; 13; 7; 5; 15; 14; 1; 9];
    [12; 5; 1; 15; 14; 13; 4; 10; 0; 7; 6; 3; 9; 2; 8; 11];
    [13; 11; 7; 14; 12; 1; 3; 9; 5; 0; 15; 4; 8; 6; 2; 10];
    [6; 15; 14; 9; 11; 3; 0; 8; 12; 2; 13; 7; 1; 4; 10; 5];
    [10; 2; 8; 4; 7; 6; 1; 5; 15; 11; 9; 14; 3; 12; 13; 0] ]%nat.

(** The mixing function G. *)
Definition G (v : list Z) (a b c d : nat) (x y : Z) : list Z :=
  let va := wrap64 (v !!! a + v !!! b + x) in
  let vd := rotr64 (Z.lxor (v !!! d) va) 32 in
  let vc := wrap64 (v !!! c + vd) in
  let vb := rotr64 (Z.lxor (v !!! b) vc) 24 in
  let va := wrap64 (va + vb + y) in
  let vd := rotr64 (Z.lxor vd va) 16 in
  let vc := wrap64 (vc + vd) in
  let vb := rotr64 (Z.lxor vb vc) 63 in
  <[a:=va]> (<[b:=vb]> (<[c:=vc]> (<[d:=vd]> v))).

Definition mix_round (m : list Z) (v : list Z) (r : nat) : list Z :=
  let s : list nat := SIGMA !!! (r `mod` 10)%nat in
  let w (i : nat) : Z := m !!! (s !!! i) in
  let v := G v 0 4 8 12 (w 0%nat) (w 1%nat) in
  let v := G v 1 5 9 13 (w 2%nat) (w 3%nat) in
  let v := G v 2 6 10 14 (w 4%nat) (w 5%nat) in
  let v := G v 3 7 11 15 (w 6%nat) (w 7%nat) in
  let v := G v 0 5 10 15 (w 8%nat) (w 9%nat) in
  let v := G v 1 6 11 12 (w 10%nat) (w 11%nat) in
  let v := G v 2 7 8 13 (w 12%nat) (w 13%nat) in
  G v 3 4 9 14 (w 14%nat) (w 15%nat).

(** Little-endian bytes to a word, and back. *)
Definition le_word (bs : bytes) : Z :=
  foldr (λ b acc, Z.of_N (Byte.to_N b) + 256 * acc) 0 bs.

Fixpoint le_bytes (n : nat) (x : Z) : bytes :=
  match n with
  | O => []
  | S n' =>
      default Byte.x00 (Byte.of_N (Z.to_N (x `mod` 256)))
      :: le_bytes n' (x `div` 256)
  end.

(** The 16 message words of a 128-byte block. *)
Definition block_words (block : bytes) : list Z :=
  (λ i : nat, le_word (take 8 (drop (8 * i) block))) <$> seq 0 16.

(** The compression function F. *)
Definition compress (h : list Z) (block : bytes) (t : Z) (last : bool) : list Z :=
  let m := block_words block in
  let v := h ++ IV in
  let v := <[12%nat := Z.lxor (v !!! 12%nat) (wrap64 t)]> v in
  let v := <[13%nat := Z.lxor (v !!! 13%nat) (Z.shiftr t 64)]> v in
  let v := if last then <[14%nat := Z.lxor (v !!! 14%nat) (2 ^ 64 - 1)]> v else v in
  let v := fold_left (mix_round m) (seq 0 12) v in
  (λ i : nat, Z.lxor (Z.lxor (h !!! i) (v !!! i)) (v !!! (i + 8)%nat)) <$> seq 0 8.

(** A hasher object: chaining value, byte counter, buffered input. *)
Record state : Type := {
  st_h : list Z;
  st_t : Z;
  st_buf : bytes
}.

(** Parameter block of the unkeyed 64-byte digest: [h0 ^= 0x01010040]. *)
Definition new : state :=
  {| st_h := <[0%nat := Z.lxor (IV !!! 0%nat) 0x01010040]> IV;
     st_t := 0;
     st_buf := [] |}.

(** Compress every full block that is followed by more input; the rest
    stays in the buffer.  [fuel] bounds the number of blocks. *)
Fixpoint absorb (fuel : nat) (h : list Z) (t : Z) (pending : bytes) : state :=
  match fuel with
  | O => {| st_h := h; st_t := t; st_buf := pending |}
  | S fuel' =>
      if bool_decide (128 < length pending)%nat then
        absorb fuel' (compress h (take 128 pending) (t + 128) false) (t + 128)
          (drop 128 pending)
      else {| st_h := h; st_t := t; st_buf := pending |}
  end.

Definition update (s : state) (data : bytes) : state :=
  let pending := st_buf s ++ data in
  absorb (length pending) (st_h s) (st_t s) pending.

Definition digest (s : state) : bytes :=
  let t := st_t s + Z.of_nat (length (st_buf s)) in
  let block := st_buf s ++ replicate (128 - length (st_buf s)) Byte.x00 in
  mjoin (le_bytes 8 <$> compress (st_h s) block t true).

Definition hex_digit (n : Z) : ascii :=
  ascii_of_nat (Z.to_nat (if n <? 10 then 48 + n else 87 + n)).

Fixpoint hex (bs : bytes) : string :=
  match bs with
  | [] => EmptyString
  | b :: bs' =>
      let n := Z.of_N (Byte.to_N b) in
      String (hex_digit (n `div` 16)) (String (hex_digit (n `mod` 16)) (hex bs'))
  end.

Definition hexdigest (s : state) : string := hex (digest s).

End Blake2b.


Definition blake2b_hasher : Hasher :=
  {| hasher_state := Blake2b.state;
     hasher_new := Blake2b.new;
     hasher_update := Blake2b.update;
     hasher_hexdigest := Blake2b.hexdigest |}.

(** * A small deployment

    One organisation with one project; a knowledge table "docs" with the
    two embedding columns and one more, a large table "big" whose files
    cannot be compacted while it is in use, and a table "plain" without
    embedding columns.  Embeddings are integer vectors along one axis, so
    that dividing by the norm is exact. *)

Module Demo.

Definition config : Config := default_config.

Definition request : Request :=
  {| org_id := "acme"; project_id := "kb"; request_id := "req-1" |}.

(** The same client while the LLM provider is down. *)
Definition request_offline : Request :=
  {| org_id := "acme"; project_id := "kb"; request_id := "req-offline" |}.

Definition keys : ApiKeys :=
  {| openai_api_key := "sk-demo"; anthropic_api_key := "";
     gemini_api_key := ""; cohere_api_key := ""; groq_api_key := "";
     together_api_key := ""; jina_api_key := ""; voyage_api_key := "" |}.

Definition no_keys : ApiKeys :=
  {| openai_api_key := ""; anthropic_api_key := "";
     gemini_api_key := ""; cohere_api_key := ""; groq_api_key := "";
     together_api_key := ""; jina_api_key := ""; voyage_api_key := "" |}.

Definition column (id : string) (vlen : Z) : ColumnSchema (GenConfig:=string) :=
  {| col_id := id; col_vlen := vlen; col_dtype := "float32";
     col_gen_config := "text-embedding-3-small" |}.

Definition docs_meta : TableMeta :=
  {| meta_id := "docs";
     meta_cols := [column "Text" 0; column "Title" 0; column "File ID" 0;
                   column "Title Embed" 2; column "Summary Embed" 2;
                   column "Text Embed" 2] |}.

Definition big_meta : TableMeta :=
  {| meta_id := "big";
     meta_cols := [column "Text" 0; column "Title Embed" 2;
                   column "Text Embed" 2] |}.

Definition plain_meta : TableMeta :=
  {| meta_id := "plain"; meta_cols := [column "Text" 0; column "Title" 0] |}.

Definition metas : list TableMeta := [docs_meta; big_meta; plain_meta].

Definition lookup_meta (table_id : string) : result TableMeta :=
  match filter (λ m, meta_id m = table_id) metas with
  | m :: _ => Ok m
  | [] => Err (OwlException "Table not found")
  end.

Definition is_knowledge (t : GenerativeTable) : bool :=
  match t with KnowledgeTable _ _ _ => true | _ => false end.

Definition chunk (text : string) : Chunk :=
  {| chunk_text := text; chunk_position := 0 |}.

Definition sum_squares (row : list Z) : Z :=
  foldr (λ x acc, x * x + acc) 0 row.

(** A text of n characters embeds as (n + 1, 0). *)
Definition embed_text (t : string) : list Z :=
  [Z.of_nat (String.length t) + 1; 0].

Definition row_norm (row : list Z) : list Z := [Z.sqrt (sum_squares row)].

Definition row_divide (row norm : list Z) : list Z :=
  (λ x, x `div` (norm !!! 0%nat)) <$> row.

Definition env : Env (Vector:=list Z) (NDArray:=list (list Z))
    (RawEmbeddings:=list (list Z)) (GenConfig:=string) (GenOutput:=nat) :=
  {| iterdir := λ path,
       if String.eqb path "db" then
         Ok [ {| de_path := "db/acme"; de_name := "acme"; de_is_dir := true |};
              {| de_path := "db/periodic_reindex.lock";
                 de_name := "periodic_reindex.lock"; de_is_dir := false |} ]
       else if String.eqb path "db/acme" then
         Ok [ {| de_path := "db/acme/kb"; de_name := "kb"; de_is_dir := true |} ]
       else Err (OtherException "FileNotFoundError");
     list_meta := λ table offset limit,
       if is_knowledge table then
         Ok (take (Z.to_nat limit) (drop (Z.to_nat offset) metas),
             Z.of_nat (length metas))
       else Ok ([], 0);
     open_meta := λ _ table_id, lookup_meta table_id;
     count_rows := λ _ table_id,
       if String.eqb table_id "big" then Ok 2500 else Ok 10;
     update_rows := λ _ _ _ _, Ok ();
     delete_rows := λ _ _ _, Ok ();
     delete_row := λ _ _ _, Ok ();
     create_indexes := λ _ table_id, Ok (negb (String.eqb table_id "big"));
     compact_files := λ _ table_id,
       Ok (negb (bool_decide (table_id = Some "big")));
     cleanup_old_versions := λ _ _ _, Ok true;
     add_file := λ _ file_name content _,
       Ok {| fi_ID := "file-1"; fi_File_Name := file_name;
             fi_Content := content |};
     gen_rows := λ _ _ body _ _ _,
       Ok (match body with
           | AddBody b => length (add_data b)
           | RegenBody b => length (regen_row_ids b)
           end);
     load_file := λ _ _,
       Ok [chunk "Lance keeps each version of a table."];
     split_chunks := λ _ _ _,
       Ok [chunk "Lance keeps"; chunk "each version"; chunk "of a table."];
     model_names := λ prefer _ keys,
       if String.eqb (openai_api_key keys) "" then Ok [] else Ok [prefer];
     predict := λ request _ _ _ _ _ _ _,
       if String.eqb (request_id request) "req-offline"
       then Err (OtherException "provider unavailable")
       else Ok (" " +:+ String dquote ("Versions in Lance" +:+ String dquote " "));
     DEFAULT_CHAT_MODEL := "openai/gpt-4o-mini";
     RowAddRequest_reindex_default := None;
     EmbedGenConfig_model_validate := λ gen_config, Ok gen_config;
     get_api_key := λ _ keys, Ok (openai_api_key keys);
     embed_documents := λ _ texts, Ok (embed_text <$> texts);
     np_asarray := λ raw _, Ok raw;
     np_linalg_norm_axis1_keepdims := λ a, Ok (row_norm <$> a);
     np_divide := λ a norms, Ok (zip_with row_divide a norms);
     np_rows := λ a, a;
     blake2b := blake2b_hasher |}.

Definition w0 : World (Vector:=list Z) :=
  {| trace := []; bg_tasks := []; held := ∅ |}.

(** Another process is in the middle of both maintenance jobs. *)
Definition w_locked : World (Vector:=list Z) :=
  {| trace := []; bg_tasks := [];
     held := {["db/periodic_reindex.lock"; "db/periodic_optimization.lock"]} |}.

Definition abc : bytes := [Byte.x61; Byte.x62; Byte.x63].

Definition knowledge_table : GenerativeTable :=
  _get_gen_table config "acme" "kb" knowledge.

(** The item of table "big" in the enumeration. *)
Definition big_item : Item :=
  {| it_session := Some (SessionOf knowledge_table);
     it_table := GenT knowledge_table;
     it_meta := Some big_meta;
     it_path := "db/acme/kb/knowledge/big" |}.

Definition add_body (table_id : string) (reindex : option bool)
    : RowAddRequest (Vector:=list Z) :=
  {| add_table_id := table_id;
     add_data := [ {[ "Text" := VStr "Lance keeps each version." ]} ];
     add_stream := false;
     add_reindex := reindex |}.

(** An update that tries to overwrite a stored embedding. *)
Definition update_embedding : RowUpdateRequest (Vector:=list Z) :=
  {| update_table_id := "docs"; update_row_id := "row-1";
     update_data := {[ "TEXT embed" := VVec [0; 1] ]};
     update_reindex := None |}.

Definition update_text : RowUpdateRequest (Vector:=list Z) :=
  {| update_table_id := "docs"; update_row_id := "row-1";
     update_data := {[ "Text" := VStr "Lance keeps every version." ]};
     update_reindex := None |}.

Definition chunks : list Chunk :=
  [chunk "Lance keeps"; chunk "each version"; chunk "of a table."].

Definition file_info : FileInfo :=
  {| fi_ID := "file-1"; fi_File_Name := "notes.txt"; fi_Content := abc |}.

End Demo.

(** * The same deployment, degraded

    A second organisation directory, "ghost", is listed under the storage
    root but can no longer be read; the table "gone" has been dropped
    behind the router's back; the storage of table "locked" refuses to count
    its rows; and table "draft" has a summary column whose embedding model
    has been retired. *)

Module Demo2.

Definition draft_meta : TableMeta :=
  {| meta_id := "draft";
     meta_cols := [Demo.column "Text" 0;
                   {| col_id := "Summary Embed"; col_vlen := 2;
                      col_dtype := "float32";
                      col_gen_config := "retired-model" |};
                   Demo.column "Title Embed" 2;
                   Demo.column "Text Embed" 2] |}.

Definition dropped (table_id : string) : result unit :=
  if String.eqb table_id "gone" then Err (OwlException "Table not found")
  else Ok ().

Definition env : Env (Vector:=list Z) (NDArray:=list (list Z))
    (RawEmbeddings:=list (list Z)) (GenConfig:=string) (GenOutput:=nat) :=
  {| iterdir := λ path,
       if String.eqb path "db" then
         Ok [ {| de_path := "db/acme"; de_name := "acme"; de_is_dir := true |};
              {| de_path := "db/ghost"; de_name := "ghost"; de_is_dir := true |} ]
       else iterdir Demo.env path;
     list_meta := list_meta Demo.env;
     open_meta := λ table table_id,
       if String.eqb table_id "draft" then Ok draft_meta
       else open_meta Demo.env table table_id;
     count_rows := λ table table_id,
       if String.eqb table_id "locked"
       then Err (OtherException "lance: dataset unavailable")
       else count_rows Demo.env table table_id;
     update_rows := λ _ table_id _ _, dropped table_id;
     delete_rows := λ _ table_id _, dropped table_id;
     delete_row := λ _ table_id _, dropped table_id;
     create_indexes := create_indexes Demo.env;
     compact_files := compact_files Demo.env;
     cleanup_old_versions := cleanup_old_versions Demo.env;
     add_file := add_file Demo.env;
     gen_rows := λ table request body rows_batch cols_batch keys,
       match body with
       | RegenBody b => Err (OtherException "provider unavailable")
       | _ => gen_rows Demo.env table request body rows_batch cols_batch keys
       end;
     load_file := load_file Demo.env;
     split_chunks := split_chunks Demo.env;
     model_names := model_names Demo.env;
     predict := predict Demo.env;
     DEFAULT_CHAT_MODEL := DEFAULT_CHAT_MODEL Demo.env;
     RowAddRequest_reindex_default := RowAddRequest_reindex_default Demo.env;
     EmbedGenConfig_model_validate := λ gen_config,
       if String.eqb gen_config "retired-model"
       then Err (OtherException "ValidationError: unknown embedding model")
       else Ok gen_config;
     get_api_key := get_api_key Demo.env;
     embed_documents := λ embedder texts,
       Ok (Demo.embed_text <$> take 2 texts);
     np_asarray := np_asarray Demo.env;
     np_linalg_norm_axis1_keepdims := np_linalg_norm_axis1_keepdims Demo.env;
     np_divide := np_divide Demo.env;
     np_rows := np_rows Demo.env;
     blake2b := blake2b Demo.env |}.

(** The first deployment while tables are being created faster than they
    are listed: every page of the knowledge store reports more tables to
    come. *)
Definition endless : Env (Vector:=list Z) (NDArray:=list (list Z))
    (RawEmbeddings:=list (list Z)) (GenConfig:=string) (GenOutput:=nat) :=
  {| iterdir := iterdir Demo.env;
     list_meta := λ table offset limit,
       if Demo.is_knowledge table then Ok ([], offset + limit + 1)
       else Ok ([], 0);
     open_meta := open_meta Demo.env;
     count_rows := count_rows Demo.env;
     update_rows := update_rows Demo.env;
     delete_rows := delete_rows Demo.env;
     delete_row := delete_row Demo.env;
     create_indexes := create_indexes Demo.env;
     compact_files := compact_files Demo.env;
     cleanup_old_versions := cleanup_old_versions Demo.env;
     add_file := add_file Demo.env;
     gen_rows := gen_rows Demo.env;
     load_file := load_file Demo.env;
     split_chunks := split_chunks Demo.env;
     model_names := model_names Demo.env;
     predict := predict Demo.env;
     DEFAULT_CHAT_MODEL := DEFAULT_CHAT_MODEL Demo.env;
     RowAddRequest_reindex_default := RowAddRequest_reindex_default Demo.env;
     EmbedGenConfig_model_validate := EmbedGenConfig_model_validate Demo.env;
     get_api_key := get_api_key Demo.env;
     embed_documents := embed_documents Demo.env;
     np_asarray := np_asarray Demo.env;
     np_linalg_norm_axis1_keepdims := np_linalg_norm_axis1_keepdims Demo.env;
     np_divide := np_divide Demo.env;
     np_rows := np_rows Demo.env;
     blake2b := blake2b Demo.env |}.

(** The directory tree and the table stores of the first deployment. *)
Definition org_dirs : list DirEntry :=
  [ {| de_path := "db/acme"; de_name := "acme"; de_is_dir := true |};
    {| de_path := "db/periodic_reindex.lock";
       de_name := "periodic_reindex.lock"; de_is_dir := false |} ].

Definition projects_of (org_dir : DirEntry) : list DirEntry :=
  if String.eqb (de_path org_dir) "db/acme"
  then [ {| de_path := "db/acme/kb"; de_name := "kb"; de_is_dir := true |} ]
  else [].

Definition metas_of (table : GenerativeTable)
    : list (TableMeta (GenConfig:=string)) :=
  if Demo.is_knowledge table then Demo.metas else [].

Definition regen_body : RowRegenRequest :=
  {| regen_table_id := "docs"; regen_row_ids := ["row-1"];
     regen_stream := false; regen_reindex := Some true |}.

Definition delete_body (table_id : string) : RowDeleteRequest :=
  {| delete_table_id := table_id; delete_where := "`Title` = ''";
     delete_reindex := None |}.

(** A configuration that reindexes at once up to 5000 rows. *)
Definition eager_config : Config :=
  {| owl_db_dir := "db";
     owl_reindex_period_sec := 60;
     owl_immediate_reindex_max_rows := 5000;
     owl_optimize_period_sec := 60;
     owl_remove_version_older_than_days := 7;
     owl_concurrent_rows_batch_size := 3;
     owl_concurrent_cols_batch_size := 5 |}.

(** A configuration that means to keep every version. *)
Definition keep_all_config : Config :=
  {| owl_db_dir := "db";
     owl_reindex_period_sec := 60;
     owl_immediate_reindex_max_rows := 2000;
     owl_optimize_period_sec := 60;
     owl_remove_version_older_than_days := 10 ^ 10;
     owl_concurrent_rows_batch_size := 3;
     owl_concurrent_cols_batch_size := 5 |}.

(** The item of table "docs" in the enumeration. *)
Definition docs_item : Item :=
  {| it_session := Some (SessionOf Demo.knowledge_table);
     it_table := GenT Demo.knowledge_table;
     it_meta := Some Demo.docs_meta;
     it_path := "db/acme/kb/knowledge/docs" |}.

End Demo2.

(** * numpy on the float dtypes

    [_embed] leaves the arithmetic to numpy, in the dtype of the column.
    The model below is IEEE 754 binary arithmetic with round to nearest
    even, as specified in the Standard Library.  numpy computes float16
    through float32 (operands widened, result rounded back), which the
    model follows; it adds the entries of a row from left to right, which
    is numpy's order for rows of fewer than eight entries. *)

Module Numpy.

Import SpecFloat.

Inductive format : Type := binary16 | binary32 | binary64.

Definition prec (f : format) : Z :=
  match f with binary16 => 11 | binary32 => 24 | binary64 => 53 end.

Definition emax (f : format) : Z :=
  match f with binary16 => 16 | binary32 => 128 | binary64 => 1024 end.

(** The format an operation on [f] is carried out in. *)
Definition working (f : format) : format :=
  match f with binary16 => binary32 | _ => f end.

(** The float dtypes by name; the other dtypes are left out. *)
Definition dtype_format (dtype : string) : result format :=
  if String.eqb dtype "float16" then Ok binary16
  else if String.eqb dtype "float32" then Ok binary32
  else if String.eqb dtype "float64" then Ok binary64
  else Err (OtherException "TypeError: data type not understood").

Definition round_to (f : format) (x : spec_float) : spec_float :=
  match x with
  | S754_finite s m e =>
      binary_normalize (prec f) (emax f) (cond_Zopp s (Zpos m)) e s
  | _ => x
  end.

Definition binary (op : Z → Z → spec_float → spec_float → spec_float)
    (f : format) (x y : spec_float) : spec_float :=
  let g := working f in
  round_to f (op (prec g) (emax g) (round_to g x) (round_to g y)).

Definition multiply : format → spec_float → spec_float → spec_float :=
  binary SFmul.

Definition divide : format → spec_float → spec_float → spec_float :=
  binary SFdiv.

Definition sqrt (f : format) (x : spec_float) : spec_float :=
  let g := working f in
  round_to f (SFsqrt (prec g) (emax g) (round_to g x)).

(** [add.reduce] over one row. *)
Definition add_reduce (f : format) (row : list spec_float) : spec_float :=
  let g := working f in
  round_to f
    (fold_left (SFadd (prec g) (emax g)) (round_to g <$> row)
       (S754_zero false)).

Record ndarray : Type := {
  nd_format : format;
  nd_rows : list (list spec_float)
}.

(** [np.asarray(rows, dtype=dtype)] on rows of Python floats. *)
Definition asarray (rows : list (list spec_float)) (dtype : string)
    : result ndarray :=
  match dtype_format dtype with
  | Ok f =>
      Ok {| nd_format := f;
            nd_rows := (λ row : list spec_float, round_to f <$> row)
                         <$> rows |}
  | Err e => Err e
  end.

(** [np.linalg.norm(a, axis=1, keepdims=True)]:
    [sqrt(add.reduce(a.conj() * a, axis=1, keepdims=True))]. *)
Definition norm_row (f : format) (row : list spec_float) : spec_float :=
  sqrt f (add_reduce f ((λ x, multiply f x x) <$> row)).

Definition linalg_norm_axis1_keepdims (a : ndarray) : result ndarray :=
  Ok {| nd_format := nd_format a;
        nd_rows := (λ row, [norm_row (nd_format a) row]) <$> nd_rows a |}.

(** [a / norms] for [norms] of one column: every row by its own entry. *)
Definition divide_row (f : format) (row norm : list spec_float)
    : list spec_float :=
  match norm with
  | [nu] => (λ x, divide f x nu) <$> row
  | _ => row
  end.

Definition true_divide (a norms : ndarray) : result ndarray :=
  if bool_decide (length (nd_rows a) = length (nd_rows norms)
                  ∧ Forall (λ norm, length norm = 1%nat) (nd_rows norms))
  then Ok {| nd_format := nd_format a;
             nd_rows := zip_with (divide_row (nd_format a)) (nd_rows a)
                          (nd_rows norms) |}
  else Err (OtherException
              "ValueError: operands could not be broadcast together").



(** A Python float, from an integer mantissa and a binary exponent. *)
Definition float (m e : Z) : spec_float :=
  binary_normalize (prec binary64) (emax binary64) m e false.

(** An embedding service of two dimensions: (2^-100, 0) for the text
    "tiny", (3, 4) for every other text. *)
Definition raw_embedding (text : string) : list spec_float :=
  if String.eqb text "tiny" then [float 1 (-100); float 0 0]
  else [float 3 0; float 4 0].

(** The first deployment, with this embedder and numpy computing as
    above. *)
Definition env : Env (Vector:=list spec_float) (NDArray:=ndarray)
    (RawEmbeddings:=list (list spec_float)) (GenConfig:=string)
    (GenOutput:=nat) :=
  {| iterdir := iterdir Demo.env;
     list_meta := list_meta Demo.env;
     open_meta := open_meta Demo.env;
     count_rows := count_rows Demo.env;
     update_rows := λ _ _ _ _, Ok ();
     delete_rows := delete_rows Demo.env;
     delete_row := delete_row Demo.env;
     create_indexes := create_indexes Demo.env;
     compact_files := compact_files Demo.env;
     cleanup_old_versions := cleanup_old_versions Demo.env;
     add_file := add_file Demo.env;
     gen_rows := λ _ _ body _ _ _,
       Ok (match body with
           | AddBody b => length (add_data b)
           | RegenBody b => length (regen_row_ids b)
           end);
     load_file := load_file Demo.env;
     split_chunks := split_chunks Demo.env;
     model_names := model_names Demo.env;
     predict := predict Demo.env;
     DEFAULT_CHAT_MODEL := DEFAULT_CHAT_MODEL Demo.env;
     RowAddRequest_reindex_default := RowAddRequest_reindex_default Demo.env;
     EmbedGenConfig_model_validate := EmbedGenConfig_model_validate Demo.env;
     get_api_key := get_api_key Demo.env;
     embed_documents := λ _ texts, Ok (raw_embedding <$> texts);
     np_asarray := asarray;
     np_linalg_norm_axis1_keepdims := linalg_norm_axis1_keepdims;
     np_divide := true_divide;
     np_rows := nd_rows;
     blake2b := blake2b Demo.env |}.

Definition embedder : CloudEmbedder :=
  {| embedder_name := "text-embedding-3-small"; api_key := "sk-demo" |}.

End Numpy.

(** * Unit norm, in exact arithmetic *)

Module UnitNorm.

Import QArith_base.

(** The square of the L2 norm of a vector of rationals. *)
Definition sum_squares (v : list Q) : Q :=
  foldr (λ x acc, Qplus (Qmult x x) acc) (Qmake 0 1) v.

Local Open Scope Q_scope.




End UnitNorm.

(** * Properties *)

(** ** Tactics *)

Ltac unfold_m :=
  cbv beta iota delta
    [mbind mret M_bind M_ret call_ev call emit logger raise stall try_except
     reraising add_task] in *.

(** [trace w' = trace w ++ ?evs] for a concrete extension, and the absence
    of an event shape from it. *)
Ltac solve_extends :=
  first [ by rewrite <- ?(assoc_L (++))
        | by (symmetry; apply app_nil_r) ].

Ltac solve_not_in :=
  repeat intro; simpl in *;
  repeat match goal with
    | H : _ ∈ _ ++ _ |- _ => apply elem_of_app in H as [H|H]
    | H : _ ∈ _ :: _ |- _ => apply elem_of_cons in H as [H|H]
    | H : _ ∈ [] |- _ => by apply elem_of_nil in H
    | H : @eq Event _ _ |- _ => discriminate H
    end.

Ltac unfold_r :=
  cbv beta iota delta [mbind mret result_bind result_ret] in *.

(** [Forall P l] for a list written out, when [P] computes to [True] on
    each element. *)
Ltac forall_true :=
  repeat (apply Forall_cons; split; [exact I|]); by apply Forall_nil.


Section Properties.

Context {Vector NDArray RawEmbeddings GenConfig GenOutput : Type}.
Context (config : Config)
        (env : @Env Vector NDArray RawEmbeddings GenConfig GenOutput).

(** ** Running monadic code *)

Lemma run_bind {A B} (m : M A) (f : A → M B) (w : World (Vector:=Vector)) :
  (m ≫= f) w =
    match m w with
    | (Ret a, w') => f a w'
    | (Raise e, w') => (Raise e, w')
    | (Stall, w') => (Stall, w')
    end.
Proof. reflexivity. Qed.

Lemma run_ret {A} (a : A) (w : World (Vector:=Vector)) :
  (mret a : M A) w = (Ret a, w).
Proof. reflexivity. Qed.

Lemma run_call_ok {A} (r : result A) (a : A) (w : World (Vector:=Vector)) :
  r = Ok a → call r w = (Ret a, w).
Proof. by intros ->. Qed.

Lemma run_call_err {A} (r : result A) e (w : World (Vector:=Vector)) :
  r = Err e → call r w = (Raise e, w).
Proof. by intros ->. Qed.

(** ** Reindex trigger policy of [add_rows] and [regen_rows] *)

Lemma reindex_now_spec (reindex : option bool) table table_id :
  reindex_now config env reindex table table_id
  = match reindex with
    | Some b => Ok b
    | None =>
        match count_rows env table table_id with
        | Ok n => Ok (bool_decide (n ≤ owl_immediate_reindex_max_rows config)%Z)
        | Err e => Err e
        end
    end.
Proof.
  unfold reindex_now. destruct reindex as [[]|]; simpl; try done.
  destruct (count_rows env table table_id) as [n|e]; [|done].
  simpl. unfold mret, result_ret. f_equal.
  case_bool_decide; [by apply Z.leb_le | by apply Z.leb_gt; lia].
Qed.

(** The two generation handlers share their text up to the body type, and
    so do the proofs. *)
Ltac policy_cases Hnow table reindex table_id gen :=
  destruct reindex as [b|];
  [ rewrite Hnow;
    destruct b, gen as [out|e];
      simpl; try destruct (is_OwlException e); simpl;
      (split; [|split]);
      try (intros [?|[? _]]; done);
      (eexists; split; [solve_extends | solve_not_in])
  | destruct (count_rows env table table_id) as [n|e] eqn:Hn;
    [ rewrite Hnow; case_bool_decide;
      destruct gen as [out|e];
      simpl; try destruct (is_OwlException e); simpl;
      (split; [|split]);
      try (intros [?|[_ (? & [= <-] & ?)]]; (done || lia));
      (eexists; split; [solve_extends | solve_not_in])
    | rewrite Hnow; destruct (is_OwlException e); simpl;
      (split; [|split]);
      try (intros [?|[_ (? & [=] & ?)]]; done);
      (eexists; split; [solve_extends | solve_not_in]) ] ].

Lemma add_rows_follows_policy request table_type body keys w :
  follows_reindex_policy config env (add_reindex body)
    (_get_gen_table config (org_id request) (project_id request) table_type)
    (add_table_id body) w
    (add_rows config env request table_type body keys w).2.
Proof.
  set (table := _get_gen_table _ _ _ _).
  pose proof (reindex_now_spec (add_reindex body) table (add_table_id body))
    as Hnow.
  unfold follows_reindex_policy, reindex_due, reindex_not_due, add_rows,
    run_executor.
  fold table. unfold_m.
  policy_cases Hnow table (add_reindex body) (add_table_id body)
    (gen_rows env table request (AddBody body)
       (owl_concurrent_rows_batch_size config)
       (owl_concurrent_cols_batch_size config) keys).
Qed.

Lemma regen_rows_follows_policy request table_type body keys w :
  follows_reindex_policy config env (regen_reindex body)
    (_get_gen_table config (org_id request) (project_id request) table_type)
    (regen_table_id body) w
    (regen_rows config env request table_type body keys w).2.
Proof.
  set (table := _get_gen_table _ _ _ _).
  pose proof (reindex_now_spec (regen_reindex body) table (regen_table_id body))
    as Hnow.
  unfold follows_reindex_policy, reindex_due, reindex_not_due, regen_rows,
    run_executor.
  fold table. unfold_m.
  policy_cases Hnow table (regen_reindex body) (regen_table_id body)
    (gen_rows env table request (RegenBody body)
       (owl_concurrent_rows_batch_size config)
       (owl_concurrent_cols_batch_size config) keys).
Qed.

(** C1. For every [add_rows] and every [regen_rows] request: when the
    reindex intent is force-yes ([reindex] is true), or auto ([reindex]
    unset) with the table's row count at or below
    [owl_immediate_reindex_max_rows] (2000 unless configured), exactly one
    [create_indexes] task for that table is appended to the request's
    background tasks; when the intent is force-no, or auto with a row count
    above the threshold, the background tasks are left as they were.  In
    both cases the handler itself performs no [create_indexes] call: the
    task is only queued. *)
Theorem reindex_trigger_policy (request : Request) (table_type : TableType)
    (keys : ApiKeys) (w : World) :
  let table :=
    _get_gen_table config (org_id request) (project_id request) table_type in
  (∀ body : RowAddRequest,
     follows_reindex_policy config env (add_reindex body) table
       (add_table_id body) w
       (add_rows config env request table_type body keys w).2)
  ∧ (∀ body : RowRegenRequest,
       follows_reindex_policy config env (regen_reindex body) table
         (regen_table_id body) w
         (regen_rows config env request table_type body keys w).2)
  ∧ owl_immediate_reindex_max_rows default_config = 2000.
Proof.
  split; [|split].
  - intros body. apply add_rows_follows_policy.
  - intros body. apply regen_rows_follows_policy.
  - reflexivity.
Qed.

(** ** Fixed embedding columns of a knowledge table *)

Lemma fixed_check_spec (data : gmap string (Value (Vector:=Vector))) :
  touches_fixed_embedding data ↔
  bool_decide ("text embed" ∈@{gset string} set_map lower (dom data))
  || bool_decide ("title embed" ∈@{gset string} set_map lower (dom data)) = true.
Proof.
  unfold touches_fixed_embedding, same_name_ignoring_case.
  rewrite orb_true_iff, !bool_decide_eq_true, !elem_of_map. simpl.
  split.
  - intros (k & Hk & [H|H]); [left|right]; eauto.
  - intros [(k & H & Hk)|(k & H & Hk)]; exists k; eauto.
Qed.

(** C7. An [update_row] request against a knowledge table whose payload has
    a key equal, up to letter case, to 'Text Embed' or 'Title Embed' raises
    [TableSchemaFixedError], a domain error that the handler lets through
    unlogged, before [update_rows] is called: the run leaves no effect at
    all.  A request on a knowledge table that names neither column goes on
    to call [update_rows] with the payload, and returns the OK response
    when that call and the reindex decision succeed. *)
Theorem update_row_fixed_embedding_columns (request : Request)
    (body : RowUpdateRequest) (w : World) :
  let table :=
    _get_gen_table config (org_id request) (project_id request) knowledge in
  let where_ := "`ID` = '" +:+ update_row_id body +:+ "'" in
  (touches_fixed_embedding (update_data body) →
     update_row config env request knowledge body w
     = (Raise (TableSchemaFixedError "Cannot update 'Text Embed' or 'Title Embed'."), w)
     ∧ is_OwlException
         (TableSchemaFixedError "Cannot update 'Text Embed' or 'Title Embed'.")
       = true)
  ∧ (¬ touches_fixed_embedding (update_data body) →
     (∃ evs,
        trace (update_row config env request knowledge body w).2
        = trace w
          ++ EvUpdateRows table (update_table_id body) where_ (update_data body)
             :: evs)
     ∧ (update_rows env table (update_table_id body) where_ (update_data body)
        = Ok () →
        (update_reindex body = None →
         ∃ n, count_rows env table (update_table_id body) = Ok n) →
        (update_row config env request knowledge body w).1 = Ret OkResponse_ok)).
Proof.
  intros table where_. split.
  - intros Htouch. split; [|done].
    apply fixed_check_spec in Htouch.
    unfold update_row. rewrite bool_decide_eq_true_2 by done.
    unfold_m. by rewrite Htouch.
  - intros Hno.
    assert (bool_decide ("text embed" ∈@{gset string}
                           set_map lower (dom (update_data body)))
            || bool_decide ("title embed" ∈@{gset string}
                              set_map lower (dom (update_data body))) = false)
      as Hchk.
    { apply not_true_is_false. intros H. by apply Hno, fixed_check_spec. }
    pose proof (reindex_now_spec (update_reindex body) table
                  (update_table_id body)) as Hnow.
    unfold update_row. rewrite bool_decide_eq_true_2 by done.
    fold table. fold where_. unfold_m. rewrite Hchk.
    destruct (update_rows env table (update_table_id body) where_
                (update_data body)) as [[]|e].
    + destruct (update_reindex body) as [b|].
      * rewrite Hnow. destruct b; simpl; split; eauto.
      * destruct (count_rows env table (update_table_id body)) as [n|e].
        -- rewrite Hnow. case_bool_decide; simpl; split; eauto.
        -- rewrite Hnow. destruct (is_OwlException e); simpl.
           ++ split; [eauto|]. intros _ Hc. by destruct (Hc eq_refl).
           ++ split; [|intros _ Hc; by destruct (Hc eq_refl)].
              eexists. by rewrite <- (assoc_L (++)).
    + destruct (is_OwlException e); simpl; split; try done; [eauto|].
      eexists. by rewrite <- (assoc_L (++)).
Qed.

(** ** The maintenance jobs *)

Lemma extend_extend (w : World (Vector:=Vector)) evs evs' :
  extend (extend w evs) evs' = extend w (evs ++ evs').
Proof. unfold extend. simpl. by rewrite (assoc_L (++)). Qed.

Lemma extend_nil (w : World (Vector:=Vector)) : extend w [] = w.
Proof. destruct w. unfold extend. simpl. by rewrite app_nil_r. Qed.

Lemma optimize_visit_run (it : Item) (w : World) :
  optimize_visit config env it w
  = (Ret (optimize_outcome config env it), extend w (optimize_events config env it)).
Proof.
  unfold optimize_visit, optimize_outcome, optimize_events, item_table_id,
    and_then, extend.
  unfold_m.
  destruct (it_meta it) as [meta|]; simpl;
    (destruct (compact_files env _ _) as [[]|e]; simpl;
     [ destruct (timedelta_days _) as [older_than|e0]; simpl;
       [ destruct (cleanup_old_versions env _ _ _) as [[]|e']; simpl | ] | | ]);
    by rewrite <- ?(assoc_L (++)).
Qed.

Lemma reindex_visit_run (it : Item) (w : World) :
  reindex_visit env it w
  = (Ret (reindex_outcome env it), extend w (reindex_events env it)).
Proof.
  unfold reindex_visit, reindex_outcome, reindex_events, meta_id_of, extend.
  unfold_m.
  destruct (it_meta it) as [meta|]; simpl; [|done].
  destruct (create_indexes env _ _) as [[]|e]; simpl;
    by rewrite <- ?(assoc_L (++)).
Qed.

Lemma optimize_loop_run (g : Gen) (t : Tally) (w : World) :
  optimize_loop config env g t w
  = (loop_result g
       (tally_all (optimize_outcome config env <$> gen_items g) t),
     extend w (mjoin (optimize_events config env <$> gen_items g))).
Proof.
  revert t w. induction g as [|it rest IH|e|]; intros t w; simpl;
    try (unfold loop_result; simpl; by rewrite extend_nil).
  rewrite run_bind, optimize_visit_run, IH, extend_extend. done.
Qed.

Lemma reindex_loop_run (g : Gen) (t : Tally) (w : World) :
  reindex_loop env g t w
  = (loop_result g
       (tally_all (reindex_outcome env <$> filter has_session (gen_items g)) t),
     extend w (mjoin (reindex_events env <$> filter has_session (gen_items g)))).
Proof.
  revert t w. induction g as [|it rest IH|e|]; intros t w; simpl;
    try (unfold loop_result; simpl; by rewrite extend_nil).
  rewrite !filter_cons.
  destruct (it_session it) as [s|] eqn:Hs; simpl.
  - rewrite decide_True by (unfold has_session; by rewrite Hs).
    rewrite run_bind, reindex_visit_run, IH, extend_extend. reflexivity.
  - rewrite decide_False by (unfold has_session; rewrite Hs; simpl; tauto).
    apply IH.
Qed.

Lemma acquire_held lock (w : World (Vector:=Vector)) :
  lock ∈ held w →
  acquire lock w = (Raise (Timeout lock), extend w [EvAcquire lock]).
Proof.
  intros Hheld. unfold acquire. unfold_m. simpl.
  by rewrite bool_decide_eq_true_2.
Qed.

Lemma acquire_free lock (w : World (Vector:=Vector)) :
  lock ∉ held w →
  acquire lock w
  = (Ret (), {| trace := trace w ++ [EvAcquire lock]; bg_tasks := bg_tasks w;
                held := {[lock]} ∪ held w |}).
Proof.
  intros Hfree. unfold acquire. unfold_m. simpl.
  by rewrite bool_decide_eq_false_2.
Qed.

Lemma periodic_reindex_held fuel (w : World) :
  let lock := owl_db_dir config +:+ "/periodic_reindex.lock" in
  lock ∈ held w →
  periodic_reindex config env fuel w
  = (Ret (), extend w [EvAcquire lock; EvLog info LogReindexSkipped]).
Proof.
  intros lock Hheld. unfold periodic_reindex, with_lock. fold lock.
  unfold try_except. rewrite !run_bind, acquire_held by done.
  unfold logger, emit, extend. simpl. by rewrite <- (assoc_L (++)).
Qed.

Lemma periodic_optimize_held fuel (w : World) :
  let lock := owl_db_dir config +:+ "/periodic_optimization.lock" in
  lock ∈ held w →
  periodic_optimize config env fuel w
  = (Ret (), extend w [EvAcquire lock; EvLog info LogOptimizeSkipped]).
Proof.
  intros lock Hheld. unfold periodic_optimize, with_lock. fold lock.
  unfold try_except. rewrite !run_bind, acquire_held by done.
  unfold logger, emit, extend. simpl. by rewrite <- (assoc_L (++)).
Qed.

Lemma periodic_reindex_free fuel (w : World) :
  let lock := owl_db_dir config +:+ "/periodic_reindex.lock" in
  let g := _iter_all_tables config env fuel 200 in
  let visited := filter has_session (gen_items g) in
  let r := loop_result g (tally_all (reindex_outcome env <$> visited) tally_zero) in
  lock ∉ held w →
  periodic_reindex config env fuel w
  = (tick_result r,
     {| trace := trace w
          ++ [EvAcquire lock; EvLog info LogReindexStarted]
          ++ mjoin (reindex_events env <$> visited)
          ++ tick_release lock r ++ reindex_closing r;
        bg_tasks := bg_tasks w;
        held := tick_held lock r (held w) |}).
Proof.
  intros lock g visited r Hfree.
  unfold periodic_reindex, with_lock. fold lock. fold g.
  unfold try_except, finally. rewrite !run_bind, acquire_free by done.
  unfold logger at 1, emit at 1. rewrite run_bind.
  rewrite reindex_loop_run. fold visited. fold r.
  unfold release, extend, logger, emit, tick_release, tick_held. simpl.
  destruct r as [t|e|]; simpl; [| destruct (is_Timeout e); simpl |];
    repeat (rewrite <- !(assoc_L (++)); simpl); rewrite ?app_nil_r; done.
Qed.

Lemma periodic_optimize_free fuel (w : World) :
  let lock := owl_db_dir config +:+ "/periodic_optimization.lock" in
  let g := _iter_all_tables config env fuel 200 in
  let r := loop_result g
             (tally_all (optimize_outcome config env <$> gen_items g) tally_zero) in
  lock ∉ held w →
  periodic_optimize config env fuel w
  = (tick_result r,
     {| trace := trace w
          ++ [EvAcquire lock; EvLog info LogOptimizeStarted]
          ++ mjoin (optimize_events config env <$> gen_items g)
          ++ tick_release lock r ++ optimize_closing r;
        bg_tasks := bg_tasks w;
        held := tick_held lock r (held w) |}).
Proof.
  intros lock g r Hfree.
  unfold periodic_optimize, with_lock. fold lock. fold g.
  unfold try_except, finally. rewrite !run_bind, acquire_free by done.
  unfold logger at 1, emit at 1. rewrite run_bind.
  rewrite optimize_loop_run. fold r.
  unfold release, extend, logger, emit, tick_release, tick_held. simpl.
  destruct r as [t|e|]; simpl; [| destruct (is_Timeout e); simpl |];
    repeat (rewrite <- !(assoc_L (++)); simpl); rewrite ?app_nil_r; done.
Qed.

(** *** The enumeration ends

    The pagination loop is the only place where the router can fail to
    come back.  With a store that reports bounded totals, a number of
    pages that covers the bound is enough fuel; and fuel beyond what a
    run needs does not change it. *)

Lemma gen_end_seq (g k : Gen (GenConfig:=GenConfig)) :
  gen_end (gen_seq g k)
  = match gen_end g with
    | Ret _ => gen_end k
    | r => r
    end.
Proof. induction g as [|it rest IH|e|]; simpl; auto. Qed.

Lemma gen_seq_cut (g k k' : Gen (GenConfig:=GenConfig)) :
  gen_end g ≠ Ret () → gen_seq g k = gen_seq g k'.
Proof.
  intros Hend. induction g as [|it rest IH|e|]; simpl in *; try done.
  f_equal. by apply IH.
Qed.

Lemma gen_end_yields {A} (xs : list A) (f : A → Item (GenConfig:=GenConfig)) :
  gen_end (gen_for xs (λ x, GYield (f x) GDone)) = Ret ().
Proof. induction xs as [|x xs IH]; simpl; auto. Qed.

Lemma gen_end_for {A} (xs : list A) (body : A → Gen (GenConfig:=GenConfig)) :
  (∀ x, gen_end (body x) ≠ Stall) → gen_end (gen_for xs body) ≠ Stall.
Proof.
  intros Hbody. induction xs as [|x xs IH]; simpl; [done|].
  rewrite gen_end_seq. specialize (Hbody x).
  by destruct (gen_end (body x)).
Qed.

Lemma gen_seq_more (g g' k k' : Gen (GenConfig:=GenConfig)) :
  (gen_end g ≠ Stall → g' = g) → (gen_end k ≠ Stall → k' = k) →
  gen_end (gen_seq g k) ≠ Stall → gen_seq g' k' = gen_seq g k.
Proof.
  intros Hg Hk Hend. rewrite gen_end_seq in Hend.
  destruct (gen_end g) as [[]|e|] eqn:Hg_end; [| |done].
  - rewrite Hg, Hk by done. done.
  - rewrite Hg by done. apply gen_seq_cut. by rewrite Hg_end.
Qed.

Lemma gen_for_more {A} (xs : list A) (body body' : A → Gen (GenConfig:=GenConfig)) :
  (∀ x, gen_end (body x) ≠ Stall → body' x = body x) →
  gen_end (gen_for xs body) ≠ Stall → gen_for xs body' = gen_for xs body.
Proof.
  intros Hbody. induction xs as [|x xs IH]; simpl; [done|].
  apply gen_seq_more; auto.
Qed.

Lemma iter_pages_more_fuel fuel fuel' batch_size table project_dir table_type
    offset total :
  (fuel ≤ fuel')%nat →
  gen_end (iter_pages env fuel batch_size table project_dir table_type offset total)
    ≠ Stall →
  iter_pages env fuel' batch_size table project_dir table_type offset total
  = iter_pages env fuel batch_size table project_dir table_type offset total.
Proof.
  revert fuel' offset total.
  induction fuel as [|fuel IH]; intros fuel' offset total Hle Hend.
  - simpl in *. case_bool_decide; [done|].
    destruct fuel'; simpl; by rewrite bool_decide_eq_false_2.
  - destruct fuel' as [|fuel']; [lia|]. simpl in *.
    case_bool_decide; [|done].
    destruct (list_meta env table offset batch_size) as [[metas total']|e];
      [|done].
    apply gen_seq_more; [done| |done].
    apply IH. lia.
Qed.

Lemma iter_all_tables_more_fuel fuel fuel' batch_size :
  (fuel ≤ fuel')%nat →
  gen_end (_iter_all_tables config env fuel batch_size) ≠ Stall →
  _iter_all_tables config env fuel' batch_size
  = _iter_all_tables config env fuel batch_size.
Proof.
  intros Hle. unfold _iter_all_tables.
  destruct (iterdir env (owl_db_dir config)) as [org_dirs|e]; [|done].
  apply gen_for_more. intros org_dir. unfold iter_org.
  destruct (negb (de_is_dir org_dir)); [done|].
  destruct (iterdir env (de_path org_dir)) as [project_dirs|e]; [|done].
  apply gen_for_more. intros project_dir. unfold iter_project.
  destruct (negb (de_is_dir project_dir)); [done|].
  apply gen_seq_more; [|done].
  apply gen_for_more. intros table_type. by apply iter_pages_more_fuel.
Qed.

Lemma pages_left_step bound batch_size offset :
  (0 < batch_size)%Z → (offset < bound)%Z →
  pages_left bound batch_size offset
  = S (pages_left bound batch_size (offset + batch_size)).
Proof.
  intros Hbs Hlt. unfold pages_left.
  replace (bound - offset + batch_size - 1)%Z
    with ((bound - (offset + batch_size) + batch_size - 1) + 1 * batch_size)%Z
    by lia.
  rewrite Z.div_add by lia.
  rewrite Z2Nat.inj_add; [lia| |lia].
  apply Z.div_pos; lia.
Qed.

Lemma pages_left_done bound batch_size offset :
  (0 < batch_size)%Z → pages_left bound batch_size offset = 0%nat →
  (bound ≤ offset)%Z.
Proof.
  intros Hbs Hzero. destruct (decide (bound ≤ offset)%Z) as [|Hlt]; [done|].
  rewrite pages_left_step in Hzero by lia. done.
Qed.

Lemma iter_pages_ends_within bound fuel batch_size table project_dir table_type
    offset total :
  totals_bounded env bound → (0 < batch_size)%Z → (total ≤ bound)%Z →
  (pages_left bound batch_size offset ≤ fuel)%nat →
  gen_end (iter_pages env fuel batch_size table project_dir table_type offset total)
    ≠ Stall.
Proof.
  intros Hbound Hbs. revert offset total.
  induction fuel as [|fuel IH]; intros offset total Htotal Hfuel; simpl.
  - case_bool_decide; [|done].
    assert (pages_left bound batch_size offset = 0%nat) as Hzero by lia.
    apply pages_left_done in Hzero; [lia|done].
  - case_bool_decide; [|done].
    destruct (list_meta env table offset batch_size) as [[metas total']|e] eqn:Hpage;
      [|done].
    rewrite gen_end_seq, gen_end_yields.
    apply IH; [by eapply Hbound|].
    rewrite pages_left_step in Hfuel by lia. lia.
Qed.

Lemma iter_pages_ends bound fuel batch_size table project_dir table_type :
  totals_bounded env bound → (0 < batch_size)%Z →
  (S (pages_left bound batch_size batch_size) ≤ fuel)%nat →
  gen_end (iter_pages env fuel batch_size table project_dir table_type 0 1)
    ≠ Stall.
Proof.
  intros Hbound Hbs Hfuel. destruct fuel as [|fuel]; [lia|]. simpl.
  destruct (list_meta env table 0 batch_size) as [[metas total']|e] eqn:Hpage;
    [|done].
  rewrite gen_end_seq, gen_end_yields.
  eapply iter_pages_ends_within; [done|done|by eapply Hbound|].
  rewrite ?Z.add_0_l. lia.
Qed.

(** Enough fuel: the enumeration ends (normally or with an exception of a
    collaborator) as soon as the fuel covers the pages of the largest
    table-metadata store. *)
Lemma iter_all_tables_ends bound fuel batch_size :
  totals_bounded env bound → (0 < batch_size)%Z →
  (S (pages_left bound batch_size batch_size) ≤ fuel)%nat →
  gen_end (_iter_all_tables config env fuel batch_size) ≠ Stall.
Proof.
  intros Hbound Hbs Hfuel. unfold _iter_all_tables.
  destruct (iterdir env (owl_db_dir config)) as [org_dirs|e]; [|done].
  apply gen_end_for. intros org_dir. unfold iter_org.
  destruct (negb (de_is_dir org_dir)); [done|].
  destruct (iterdir env (de_path org_dir)) as [project_dirs|e]; [|done].
  apply gen_end_for. intros project_dir. unfold iter_project.
  destruct (negb (de_is_dir project_dir)); [done|].
  rewrite gen_end_seq.
  pose proof (gen_end_for table_types
    (λ table_type,
       iter_pages env fuel batch_size
         (_get_gen_table config (de_name org_dir) (de_name project_dir) table_type)
         (de_path project_dir) table_type 0 1)) as Htypes.
  destruct (gen_end (gen_for table_types _)) as [[]|e|] eqn:Hend; try done.
  exfalso. apply Htypes; [|done].
  intros table_type. by eapply iter_pages_ends.
Qed.

(** *** What the enumeration yields *)

Lemma gen_items_seq (P : Item (GenConfig:=GenConfig) → Prop) (g k : Gen) :
  Forall P (gen_items g) → Forall P (gen_items k) →
  Forall P (gen_items (gen_seq g k)).
Proof.
  intros Hg Hk. induction g as [|it rest IH|e|]; simpl in *; try done.
  apply Forall_cons in Hg as [Hit Hrest]. constructor; auto.
Qed.

Lemma gen_items_for {A} (P : Item (GenConfig:=GenConfig) → Prop)
    (xs : list A) (body : A → Gen) :
  (∀ x, Forall P (gen_items (body x))) →
  Forall P (gen_items (gen_for xs body)).
Proof.
  intros Hbody. induction xs as [|x xs IH]; simpl; [constructor|].
  by apply gen_items_seq.
Qed.

Lemma iter_pages_sessions fuel batch_size table project_dir table_type offset total :
  Forall session_on_gen_table
    (gen_items (iter_pages env fuel batch_size table project_dir table_type
                  offset total)).
Proof.
  revert offset total. induction fuel as [|fuel IH]; intros offset total; simpl.
  - case_bool_decide; constructor.
  - case_bool_decide; [|constructor].
    destruct (list_meta env table offset batch_size) as [[metas total']|e];
      [|constructor].
    apply gen_items_seq; [|apply IH].
    apply gen_items_for. intros meta. simpl. by repeat constructor.
Qed.

Lemma iter_all_tables_sessions fuel batch_size :
  Forall session_on_gen_table
    (gen_items (_iter_all_tables config env fuel batch_size)).
Proof.
  unfold _iter_all_tables.
  destruct (iterdir env (owl_db_dir config)) as [org_dirs|e]; [|constructor].
  apply gen_items_for. intros org_dir. unfold iter_org.
  destruct (negb (de_is_dir org_dir)); [constructor|].
  destruct (iterdir env (de_path org_dir)) as [project_dirs|e]; [|constructor].
  apply gen_items_for. intros project_dir. unfold iter_project.
  destruct (negb (de_is_dir project_dir)); [constructor|].
  apply gen_items_seq.
  - apply gen_items_for. intros table_type. apply iter_pages_sessions.
  - simpl. by repeat constructor.
Qed.

Lemma reindex_events_shape (it : Item) (ev : Event) :
  ev ∈ reindex_events env it →
  (∃ meta, it_meta it = Some meta ∧ ev = EvCreateIndexes (it_table it) (meta_id meta))
  ∨ ev = EvLog exception (LogReindexTableFailed (it_path it)).
Proof.
  unfold reindex_events. destruct (it_meta it) as [meta|].
  - destruct (create_indexes env _ _) as [b|e];
      rewrite ?elem_of_cons, elem_of_nil; intuition eauto.
  - rewrite elem_of_cons, elem_of_nil. intuition eauto.
Qed.

Lemma timedelta_days_cases (days : Z) :
  ((-999999999 ≤ days ≤ 999999999)%Z ∧ timedelta_days days = Ok days)
  ∨ (¬ (-999999999 ≤ days ≤ 999999999)%Z
     ∧ timedelta_days days = Err OverflowError).
Proof. unfold timedelta_days. case_bool_decide; auto. Qed.

Lemma optimize_events_shape (it : Item) (ev : Event) :
  ev ∈ optimize_events config env it →
  ev = EvCompactFiles (it_table it) (item_table_id it)
  ∨ ev = EvCleanupOldVersions (it_table it) (item_table_id it)
           (owl_remove_version_older_than_days config)
  ∨ ev = EvLog exception (LogOptimizeTableFailed (it_path it)).
Proof.
  unfold optimize_events.
  destruct (timedelta_days_cases (owl_remove_version_older_than_days config))
    as [[_ ->]|[_ ->]];
  destruct (compact_files env _ _) as [[]|e];
    try destruct (cleanup_old_versions env _ _ _) as [b|e];
    rewrite ?elem_of_cons, elem_of_nil; intuition eauto.
Qed.

(** C6. A tick of the reindex job, and a tick of the optimize job, tries
    its lock exactly once.  When the lock is already held the tick does
    nothing else than log that it was skipped: no table is visited (no
    [create_indexes], [compact_files] or [cleanup_old_versions] call), it
    does not wait and does not try again.  And no tick of the reindex job
    ever calls [create_indexes] on a file table. *)
Theorem periodic_jobs_lock_once_and_skip (fuel : nat) (w : World) :
  let reindex_lock := owl_db_dir config +:+ "/periodic_reindex.lock" in
  let optimize_lock := owl_db_dir config +:+ "/periodic_optimization.lock" in
  (reindex_lock ∈ held w →
     periodic_reindex config env fuel w
     = (Ret (), extend w [EvAcquire reindex_lock; EvLog info LogReindexSkipped]))
  ∧ (optimize_lock ∈ held w →
     periodic_optimize config env fuel w
     = (Ret (), extend w [EvAcquire optimize_lock; EvLog info LogOptimizeSkipped]))
  ∧ (∃ evs,
       trace (periodic_reindex config env fuel w).2
       = trace w ++ EvAcquire reindex_lock :: evs
       ∧ (∀ l, EvAcquire l ∉ evs)
       ∧ (∀ file_table table_id, EvCreateIndexes (FileT file_table) table_id ∉ evs))
  ∧ (∃ evs,
       trace (periodic_optimize config env fuel w).2
       = trace w ++ EvAcquire optimize_lock :: evs
       ∧ (∀ l, EvAcquire l ∉ evs)).
Proof.
  intros reindex_lock optimize_lock.
  split; [apply periodic_reindex_held|].
  split; [apply periodic_optimize_held|].
  split.
  - destruct (decide (reindex_lock ∈ held w)) as [Hheld|Hfree].
    + rewrite periodic_reindex_held by done. simpl.
      eexists. split; [done|]. split; solve_not_in.
    + rewrite periodic_reindex_free by done. simpl.
      eexists. split; [done|].
      set (g := _iter_all_tables config env fuel 200).
      assert (∀ ev, ev ∈ mjoin (reindex_events env <$> filter has_session (gen_items g)) →
                (∃ t i, ev = EvCreateIndexes (GenT t) i) ∨ ∃ l m, ev = EvLog l m)
        as Hloop.
      { intros ev Hin. apply list_elem_of_join in Hin as (evs & Hev & Hevs).
        apply list_elem_of_fmap in Hevs as (it & -> & Hit).
        apply list_elem_of_filter in Hit as [Hs Hit].
        pose proof (iter_all_tables_sessions fuel 200) as Hall.
        rewrite Forall_forall in Hall. apply Hall in Hit.
        apply reindex_events_shape in Hev as [(meta & Hm & ->) | ->]; [|eauto].
        left. unfold session_on_gen_table, has_session in *.
        destruct (it_session it); [|done].
        destruct (it_table it) as [t|ft]; [eauto|done]. }
      split.
      * intros l Hin. apply elem_of_cons in Hin as [Hin|Hin]; [done|].
        apply elem_of_app in Hin as [Hin|Hin].
        -- apply Hloop in Hin as [(? & ? & ?)|(? & ? & ?)]; done.
        -- revert Hin. destruct (loop_result _ _) as [t|e|]; simpl;
             try destruct (is_Timeout e); solve_not_in.
      * intros ft i Hin. apply elem_of_cons in Hin as [Hin|Hin]; [done|].
        apply elem_of_app in Hin as [Hin|Hin].
        -- apply Hloop in Hin as [(? & ? & ?)|(? & ? & ?)]; done.
        -- revert Hin. destruct (loop_result _ _) as [t|e|]; simpl;
             try destruct (is_Timeout e); solve_not_in.
  - destruct (decide (optimize_lock ∈ held w)) as [Hheld|Hfree].
    + rewrite periodic_optimize_held by done. simpl.
      eexists. split; [done|]. solve_not_in.
    + rewrite periodic_optimize_free by done. simpl.
      eexists. split; [done|].
      intros l Hin. apply elem_of_cons in Hin as [Hin|Hin]; [done|].
      apply elem_of_app in Hin as [Hin|Hin].
      * apply list_elem_of_join in Hin as (evs & Hev & Hevs).
        apply list_elem_of_fmap in Hevs as (it & -> & Hit).
        apply optimize_events_shape in Hev as [?|[?|?]]; done.
      * revert Hin. destruct (loop_result _ _) as [t|e|]; simpl;
          try destruct (is_Timeout e); solve_not_in.
Qed.

(** *** Outcomes of the optimize job *)

Lemma tally_all_counts (l : list IndexJobOutcome) (t : Tally) :
  tally_all l t
  = {| num_ok := num_ok t + count_outcome job_ok l;
       num_skipped := num_skipped t + count_outcome job_skipped l;
       num_failed := num_failed t + count_outcome job_failed l |}.
Proof.
  revert t. induction l as [|o l IH]; intros t.
  - destruct t. unfold tally_all, count_outcome. simpl. f_equal; lia.
  - unfold tally_all in *. simpl. rewrite IH.
    unfold count_outcome. rewrite !filter_cons.
    destruct o; simpl; f_equal; lia.
Qed.

Lemma count_outcome_total (l : list IndexJobOutcome) :
  (count_outcome job_ok l + count_outcome job_skipped l
   + count_outcome job_failed l = length l)%nat.
Proof.
  unfold count_outcome. induction l as [|o l IH]; [done|].
  rewrite !filter_cons. destruct o; simpl; lia.
Qed.

Lemma optimize_events_compaction (it : Item) :
  EvCompactFiles (it_table it) (item_table_id it)
    ∈ optimize_events config env it.
Proof. unfold optimize_events. apply elem_of_cons. by left. Qed.

Lemma optimize_events_pruning (it : Item) :
  EvCleanupOldVersions (it_table it) (item_table_id it)
      (owl_remove_version_older_than_days config)
    ∈ optimize_events config env it
  ↔ compact_files env (it_table it) (item_table_id it) = Ok true
    ∧ (-999999999 ≤ owl_remove_version_older_than_days config ≤ 999999999)%Z.
Proof.
  unfold optimize_events.
  destruct (timedelta_days_cases (owl_remove_version_older_than_days config))
    as [[Hrange ->]|[Hrange ->]];
  destruct (compact_files env _ _) as [[]|e];
    try destruct (cleanup_old_versions env _ _ _) as [b|e];
    rewrite ?elem_of_cons, elem_of_nil; intuition (eauto; discriminate).
Qed.

Lemma optimize_outcome_cases (it : Item) :
  let days := owl_remove_version_older_than_days config in
  let in_range := (-999999999 ≤ days ≤ 999999999)%Z in
  let compacted := compact_files env (it_table it) (item_table_id it) in
  let pruned := cleanup_old_versions env (it_table it) (item_table_id it) days in
  let o := optimize_outcome config env it in
  (o = job_ok ↔ compacted = Ok true ∧ in_range ∧ pruned = Ok true)
  ∧ (o = job_skipped ↔
       compacted = Ok false
       ∨ (compacted = Ok true ∧ in_range ∧ pruned = Ok false))
  ∧ (o = job_failed ↔
       (∃ e, compacted = Err e)
       ∨ (compacted = Ok true ∧ ¬ in_range)
       ∨ (compacted = Ok true ∧ in_range ∧ ∃ e, pruned = Err e)).
Proof.
  unfold optimize_outcome. simpl.
  destruct (timedelta_days_cases (owl_remove_version_older_than_days config))
    as [[Hrange ->]|[Hrange ->]];
  destruct (compact_files env _ _) as [[]|e];
    try destruct (cleanup_old_versions env _ _ _) as [[]|e];
    naive_solver.
Qed.

(** C5 (as the code has it). On every table the optimize job visits,
    storage-file compaction is attempted; pruning of the versions older
    than the retention window (7 days unless configured) is attempted if
    and only if compaction returned true and the window is one that
    [timedelta] can hold (at most 999999999 days in magnitude).  The
    table's outcome is [ok] exactly when both calls are made and return
    true, [skipped] exactly when compaction returns false or pruning does,
    [failed] exactly when the call that is made raises or, after a
    compaction that returned true, the window cannot be built; the visit
    itself never raises.  When the lock is free and the enumeration ends,
    the tick visits every enumerated table and logs the three counts, which
    add up to the number of tables. *)
Theorem optimize_job_outcomes (w : World) :
  (∀ it : Item,
     let table := it_table it in
     let table_id := item_table_id it in
     let days := owl_remove_version_older_than_days config in
     let in_range := (-999999999 ≤ days ≤ 999999999)%Z in
     let compacted := compact_files env table table_id in
     let pruned := cleanup_old_versions env table table_id days in
     ∃ o evs,
       optimize_visit config env it w = (Ret o, extend w evs)
       ∧ EvCompactFiles table table_id ∈ evs
       ∧ (EvCleanupOldVersions table table_id days ∈ evs
          ↔ compacted = Ok true ∧ in_range)
       ∧ (∀ older_than, EvCleanupOldVersions table table_id older_than ∈ evs →
            older_than = days)
       ∧ (o = job_ok ↔ compacted = Ok true ∧ in_range ∧ pruned = Ok true)
       ∧ (o = job_skipped ↔
            compacted = Ok false
            ∨ (compacted = Ok true ∧ in_range ∧ pruned = Ok false))
       ∧ (o = job_failed ↔
            (∃ e, compacted = Err e)
            ∨ (compacted = Ok true ∧ ¬ in_range)
            ∨ (compacted = Ok true ∧ in_range ∧ ∃ e, pruned = Err e)))
  ∧ (∀ fuel : nat,
       let lock := owl_db_dir config +:+ "/periodic_optimization.lock" in
       let g := _iter_all_tables config env fuel 200 in
       let outcomes := optimize_outcome config env <$> gen_items g in
       lock ∉ held w → gen_end g = Ret () →
       ∃ evs,
         (periodic_optimize config env fuel w).1 = Ret ()
         ∧ trace (periodic_optimize config env fuel w).2
           = trace w ++ evs
             ++ [EvLog info (LogOptimizeCompleted
                               (count_outcome job_ok outcomes)
                               (count_outcome job_skipped outcomes)
                               (count_outcome job_failed outcomes))]
         ∧ (∀ it, it ∈ gen_items g →
              EvCompactFiles (it_table it) (item_table_id it) ∈ evs)
         ∧ (count_outcome job_ok outcomes + count_outcome job_skipped outcomes
            + count_outcome job_failed outcomes = length (gen_items g))%nat)
  ∧ owl_remove_version_older_than_days default_config = 7.
Proof.
  split; [|split; [|done]].
  - intros it table table_id days in_range compacted pruned.
    exists (optimize_outcome config env it), (optimize_events config env it).
    split; [apply optimize_visit_run|].
    split; [apply optimize_events_compaction|].
    split; [apply optimize_events_pruning|].
    split.
    { intros older_than Hin.
      apply optimize_events_shape in Hin as [Hin|[Hin|Hin]];
        [discriminate Hin|by injection Hin|discriminate Hin]. }
    apply optimize_outcome_cases.
  - intros fuel lock g outcomes Hfree Hend.
    rewrite periodic_optimize_free by done. fold lock g outcomes.
    unfold loop_result. rewrite Hend. simpl.
    rewrite tally_all_counts. simpl.
    exists ([EvAcquire lock; EvLog info LogOptimizeStarted]
            ++ mjoin (optimize_events config env <$> gen_items g)
            ++ [EvRelease lock]).
    split; [done|]. split.
    { repeat (rewrite <- !(assoc_L (++)); simpl). done. }
    split.
    + intros it Hit. apply elem_of_app. right. apply elem_of_app. left.
      apply list_elem_of_join. exists (optimize_events config env it).
      split; [apply optimize_events_compaction|].
      by apply list_elem_of_fmap_2.
    + unfold outcomes. rewrite count_outcome_total. by rewrite length_fmap.
Qed.

(** ** File ingestion *)

Lemma add_rows_run request table_type body keys (w : World) :
  let table :=
    _get_gen_table config (org_id request) (project_id request) table_type in
  add_rows config env request table_type body keys w
  = match reindex_now config env (add_reindex body) table (add_table_id body) with
    | Err e => (Raise e, extend w (exception_log e (LogAddRowFailed body)))
    | Ok now =>
        let w1 :=
          if now then schedule w (TaskCreateIndexes table (add_table_id body))
          else w in
        match gen_rows env table request (AddBody body)
                (owl_concurrent_rows_batch_size config)
                (owl_concurrent_cols_batch_size config) keys with
        | Ok out =>
            (Ret (respond (add_stream body) out),
             extend w1 [EvGenRows table (AddBody body)])
        | Err e =>
            (Raise e,
             extend w1 (EvGenRows table (AddBody body)
                        :: exception_log e (LogAddRowFailed body)))
        end
    end.
Proof.
  intros table. unfold add_rows, run_executor. fold table.
  unfold exception_log, schedule, extend. unfold_m.
  destruct (reindex_now _ _ _ _ _) as [now|e].
  - destruct now, (gen_rows _ _ _ _ _ _ _) as [out|e]; simpl;
      try destruct (is_OwlException e); simpl;
      by rewrite <- ?(assoc_L (++)).
  - destruct (is_OwlException e); simpl; [|done].
    destruct w; simpl. by rewrite app_nil_r.
Qed.

Lemma add_into_knowledge_table_run request table_id file_info chunks title keys
    (w : World) :
  let table :=
    _get_gen_table config (org_id request) (project_id request) knowledge in
  add_into_knowledge_table config env request table_id file_info chunks title
    keys w
  = match open_meta env table table_id with
    | Err e => (Raise e, w)
    | Ok meta =>
        match embed_columns env (meta_cols meta) title chunks keys None [] with
        | Err e => (Raise e, w)
        | Ok (None, _) => (Raise embedding_error, w)
        | Ok (Some title_embed, text_embeds) =>
            if bool_decide (length text_embeds = 0%nat)
            then (Raise embedding_error, w)
            else
              let data :=
                ingest_row title (fi_ID file_info) title_embed
                  <$> zip chunks text_embeds in
              match add_rows config env request knowledge
                      (ingest_request env table_id data) keys w with
              | (Ret _, w2) =>
                  (match create_indexes env (GenT table) table_id with
                   | Ok _ => Ret OkResponse_ok
                   | Err e => Raise e
                   end,
                   extend w2 [EvCreateIndexes (GenT table) table_id])
              | (Raise e, w2) => (Raise e, w2)
              | (Stall, w2) => (Stall, w2)
              end
        end
    end.
Proof.
  intros table. unfold add_into_knowledge_table. fold table.
  unfold ingest_request, extend.
  rewrite run_bind. unfold call at 1.
  destruct (open_meta env table table_id) as [meta|e]; [|done].
  rewrite run_ret, run_bind. unfold call at 1.
  destruct (embed_columns _ _ _ _ _ _ _) as [[[te|] tes]|e]; try done.
  rewrite run_ret. case_bool_decide; [done|].
  rewrite run_bind.
  destruct (add_rows _ _ _ _ _ _ _) as [[r|e|] w2]; try done.
  unfold_m. simpl. by destruct (create_indexes _ _ _).
Qed.

Lemma add_file_run request request_id table_id file_info cs co keys (w : World) :
  let name := fi_File_Name file_info in
  let split_log := EvLog debug (LogSplittingFile name) in
  _add_file config env request request_id table_id file_info cs co keys w
  = match load_file env name (fi_Content file_info) with
    | Err e => (Raise e, w)
    | Ok raw =>
        match split_chunks env raw cs co with
        | Err e => (Raise e, extend w [split_log])
        | Ok chunks =>
            match model_names env (DEFAULT_CHAT_MODEL env) ["chat"] keys with
            | Err e => (Raise e, extend w [split_log])
            | Ok [] =>
                (Raise (IndexError "list index out of range"),
                 extend w [split_log])
            | Ok (model :: _) =>
                let answer :=
                  predict_title env request model (excerpt_of chunks) keys in
                add_into_knowledge_table config env request table_id file_info
                  chunks (title_of answer) keys
                  (extend w (prelude_log request_id name model
                               (excerpt_of chunks) answer))
            end
        end
    end.
Proof.
  intros name split_log. unfold _add_file, extract_title. fold name.
  fold split_log. unfold prelude_log, title_of, extend. unfold_m.
  destruct (load_file env name _) as [raw|e]; [|done].
  destruct (split_chunks env raw cs co) as [chunks|e]; [|done].
  destruct (model_names env _ _ _) as [[|model models]|e]; try done.
  fold (excerpt_of chunks).
  destruct (predict_title env request model (excerpt_of chunks) keys) as [text|e];
    simpl; repeat (rewrite <- !(assoc_L (++)); simpl); done.
Qed.

Lemma upload_file_run request file file_name table_id cs co keys (w : World) :
  let file_table :=
    _get_file_table config (org_id request) (project_id request) in
  let msg := LogUploadFailed (org_id request) (project_id request) file_name in
  let w0 :=
    extend w
      [EvLog info (LogUploading (request_id request) file_name table_id cs co);
       EvFileAdd file_table file_name file (checksum env (2 ^ 10) file)] in
  upload_file config env request file file_name table_id cs co keys w
  = match add_file env file_table file_name file (checksum env (2 ^ 10) file) with
    | Err e => (Raise e, extend w0 (exception_log e msg))
    | Ok file_info =>
        match _add_file config env request (request_id request) table_id
                file_info cs co keys w0 with
        | (Raise e, w1) => (Raise e, extend w1 (exception_log e msg))
        | r => r
        end
    end.
Proof.
  intros file_table msg w0. unfold upload_file. fold file_table msg.
  unfold exception_log. unfold_m.
  assert ({| trace := (trace w ++ [EvLog info (LogUploading (request_id request) file_name table_id cs co)])
                      ++ [EvFileAdd file_table file_name file (checksum env (2 ^ 10) file)];
             bg_tasks := bg_tasks w; held := held w |} = w0) as Hw0.
  { unfold w0, extend. simpl. by rewrite <- (assoc_L (++)). }
  simpl. rewrite Hw0.
  destruct (add_file env file_table file_name file _) as [file_info|e].
  - destruct (_add_file _ _ _ _ _ _ _ _ _ w0) as [[r|e|] w1]; try done.
    destruct (is_OwlException e); unfold extend; simpl; [|done].
    destruct w1; simpl. by rewrite app_nil_r.
  - destruct (is_OwlException e); unfold extend; simpl; [|done].
    by rewrite app_nil_r.
Qed.

(** *** The column loop *)

(** One turn of the loop, by cases on the column. *)
Lemma embed_columns_cons col cols title chunks keys te0 tes0 :
  embed_columns env (col :: cols) title chunks keys te0 tes0
  = if bool_decide (col_vlen col = 0) then
      embed_columns env cols title chunks keys te0 tes0
    else
      match EmbedGenConfig_model_validate env (col_gen_config col) with
      | Err e => Err e
      | Ok embedding_model =>
          match get_api_key env embedding_model keys with
          | Err e => Err e
          | Ok api_key =>
              let embedder :=
                {| embedder_name := embedding_model; api_key := api_key |} in
              if bool_decide (col_id col = "Title Embed") then
                match _embed env embedder [title] (col_dtype col) with
                | Err e => Err e
                | Ok a =>
                    match np_rows env a with
                    | v :: _ =>
                        embed_columns env cols title chunks keys (Some v) tes0
                    | [] =>
                        Err (IndexError
                               "index 0 is out of bounds for axis 0 with size 0")
                    end
                end
              else if bool_decide (col_id col = "Text Embed") then
                match _embed env embedder (chunk_text <$> chunks) (col_dtype col) with
                | Err e => Err e
                | Ok a =>
                    embed_columns env cols title chunks keys te0 (np_rows env a)
                end
              else embed_columns env cols title chunks keys te0 tes0
          end
      end.
Proof.
  simpl. case_bool_decide; [done|]. unfold_r.
  destruct (EmbedGenConfig_model_validate env _) as [m|e]; [|done].
  destruct (get_api_key env m keys) as [k|e]; [|done].
  repeat case_bool_decide; try done;
    destruct (_embed env _ _ _) as [a|e]; try done;
    unfold getitem_0; by destruct (np_rows env a).
Qed.

Ltac loop_step H :=
  rewrite embed_columns_cons in H; cbv zeta in H;
  repeat match type of H with
    | (if bool_decide ?P then _ else _) = _ =>
        destruct (bool_decide_reflect P)
    | match ?r with Ok _ => _ | Err _ => _ end = _ =>
        let E := fresh "E" in destruct r eqn:E; [|discriminate H]
    | match ?l with [] => _ | _ :: _ => _ end = _ =>
        let E := fresh "E" in destruct l eqn:E; [discriminate H|]
    end.

Lemma embed_columns_provenance cols title chunks keys te0 tes0 te tes :
  embed_columns env cols title chunks keys te0 tes0 = Ok (te, tes) →
  (te = te0 ∨ ∃ v rest, te = Some v ∧ embedding_of env [title] (v :: rest))
  ∧ (tes = tes0 ∨ embedding_of env (chunk_text <$> chunks) tes).
Proof.
  revert te0 tes0. induction cols as [|col cols IH]; intros te0 tes0 H.
  - simpl in H. injection H as <- <-. auto.
  - loop_step H; try (by apply IH).
    + apply IH in H as [[->|H1] H2]; split; auto.
      right. exists v, l. split; [done|]. unfold embedding_of. eauto.
    + apply IH in H as [H1 [->|H2]]; split; auto.
      right. unfold embedding_of. eauto.
Qed.




(** *** The rows built from the chunks *)

Lemma ingest_row_fields title file_id (title_embed : Vector) (c : Chunk) (v : Vector) :
  let row : gmap string Value := ingest_row title file_id title_embed (c, v) in
  row !! "Text" = Some (VStr (chunk_text c))
  ∧ row !! "Text Embed" = Some (VVec v)
  ∧ row !! "Title" = Some (VStr title)
  ∧ row !! "Title Embed" = Some (VVec title_embed)
  ∧ row !! "File ID" = Some (VStr file_id).
Proof. unfold ingest_row. simpl. repeat split; by simplify_map_eq. Qed.

Lemma ingest_rows_length title file_id (title_embed : Vector)
    (chunks : list Chunk) (text_embeds : list Vector) :
  length text_embeds = length chunks →
  length (ingest_row title file_id title_embed <$> zip chunks text_embeds)
  = length chunks.
Proof. intros Hlen. rewrite length_fmap, length_zip_with. lia. Qed.

Lemma ingest_rows_lookup title file_id (title_embed : Vector)
    (chunks : list Chunk) (text_embeds : list Vector) i c v :
  chunks !! i = Some c → text_embeds !! i = Some v →
  (ingest_row title file_id title_embed <$> zip chunks text_embeds) !! i
  = Some (ingest_row title file_id title_embed (c, v)).
Proof.
  intros Hc Hv. rewrite list_lookup_fmap, lookup_zip_with, Hc. simpl.
  by rewrite Hv.
Qed.

(** *** Successful ingestion *)

Lemma add_into_knowledge_table_ok request table_id file_info chunks title keys
    (w w' : World) resp :
  let table :=
    _get_gen_table config (org_id request) (project_id request) knowledge in
  add_into_knowledge_table config env request table_id file_info chunks title
    keys w = (Ret resp, w') →
  ∃ meta title_embed text_embeds,
    open_meta env table table_id = Ok meta
    ∧ embed_columns env (meta_cols meta) title chunks keys None []
      = Ok (Some title_embed, text_embeds)
    ∧ text_embeds ≠ []
    ∧ trace w'
      = trace w
        ++ [EvGenRows table
              (AddBody (ingest_request env table_id
                          (ingest_row title (fi_ID file_info) title_embed
                             <$> zip chunks text_embeds)));
            EvCreateIndexes (GenT table) table_id].
Proof.
  intros table H. rewrite add_into_knowledge_table_run in H. fold table in H.
  destruct (open_meta env table table_id) as [meta|e]; [|discriminate H].
  destruct (embed_columns _ _ _ _ _ _ _) as [[[te|] tes]|e] eqn:Hscan;
    try discriminate H.
  case_bool_decide as Hlen; [discriminate H|].
  cbv zeta in H. rewrite add_rows_run in H. fold table in H. cbv zeta in H.
  destruct (reindex_now _ _ _ _ _) as [now|e]; [|discriminate H].
  destruct (gen_rows _ _ _ _ _ _ _) as [out|e]; [|discriminate H].
  destruct (create_indexes _ _ _) as [b|e]; [|discriminate H].
  injection H as _ <-.
  exists meta, te, tes. split; [done|]. split; [done|].
  split; [by intros ->|].
  destruct now; unfold extend, schedule; simpl; by rewrite <- (assoc_L (++)).
Qed.

(** C2. When an upload succeeds, and the embedding collaborators answer
    with one row per text, then the file was split into n >= 1 chunks, and
    the upload made exactly one row-generation call: a non-streaming add
    request on the knowledge table [table_id] with n rows, where row i has
    Text = the text of chunk i, Text Embed = row i of the embedding of the
    chunk texts, Title and Title Embed the same in every row (the title and
    the first row of its embedding), and File ID = the id the file table
    returned when the file was registered.  The last thing the upload does
    before it returns is a direct [create_indexes] call on that table. *)
Theorem upload_inserts_one_row_per_chunk (request : Request) (file : bytes)
    (file_name table_id : string) (chunk_size chunk_overlap : Z)
    (keys : ApiKeys) (w w' : World) (resp : OkResponse) :
  one_embedding_per_text env →
  upload_file config env request file file_name table_id chunk_size
    chunk_overlap keys w = (Ret resp, w') →
  let table :=
    _get_gen_table config (org_id request) (project_id request) knowledge in
  let file_table :=
    _get_file_table config (org_id request) (project_id request) in
  let registration :=
    EvFileAdd file_table file_name file (checksum env (2 ^ 10) file) in
  ∃ file_info chunks title title_embed text_embeds rows pre,
    add_file env file_table file_name file (checksum env (2 ^ 10) file)
      = Ok file_info
    ∧ ingest_chunks env file_info chunk_size chunk_overlap = Ok chunks
    ∧ (1 ≤ length chunks)%nat
    ∧ embedding_of env (chunk_text <$> chunks) text_embeds
    ∧ (∃ rest, embedding_of env [title] (title_embed :: rest))
    ∧ length rows = length chunks
    ∧ (∀ i c, chunks !! i = Some c →
         ∃ v row,
           text_embeds !! i = Some v
           ∧ rows !! i = Some row
           ∧ row !! "Text" = Some (VStr (chunk_text c))
           ∧ row !! "Text Embed" = Some (VVec v)
           ∧ row !! "Title" = Some (VStr title)
           ∧ row !! "Title Embed" = Some (VVec title_embed)
           ∧ row !! "File ID" = Some (VStr (fi_ID file_info)))
    ∧ trace w'
      = trace w ++ pre
        ++ [EvGenRows table
              (AddBody {| add_table_id := table_id; add_data := rows;
                          add_stream := false;
                          add_reindex := RowAddRequest_reindex_default env |});
            EvCreateIndexes (GenT table) table_id]
    ∧ Forall (λ ev, ¬ is_gen_rows ev) pre
    ∧ registration ∈ pre.
Proof.
  intros Hone H table file_table registration.
  rewrite upload_file_run in H. fold file_table in H.
  destruct (add_file env file_table file_name file _) as [file_info|e] eqn:Hreg;
    [|discriminate H].
  match type of H with
  | context [_add_file _ _ _ _ _ _ _ _ _ ?w0] => set (w0_ := w0) in H
  end.
  assert (_add_file config env request (request_id request) table_id file_info
            chunk_size chunk_overlap keys w0_ = (Ret resp, w')) as Hadd.
  { destruct (_add_file _ _ _ _ _ _ _ _ _ w0_) as [[r|e|] w1]; try discriminate H.
    done. }
  clear H. rewrite add_file_run in Hadd.
  destruct (load_file env _ _) as [raw|e] eqn:Hload; [|discriminate Hadd].
  destruct (split_chunks env raw _ _) as [chunks|e] eqn:Hsplit;
    [|discriminate Hadd].
  destruct (model_names env _ _ _) as [[|model models]|e]; try discriminate Hadd.
  cbv zeta in Hadd.
  set (answer := predict_title env request model (excerpt_of chunks) keys) in Hadd.
  apply add_into_knowledge_table_ok in Hadd
    as (meta & te & tes & Hmeta & Hscan & Hne & Htrace).
  apply embed_columns_provenance in Hscan as Hprov.
  destruct Hprov as [[?|(v & rest & [= <-] & Htitle)] [->|Htext]]; try done.
  assert (length tes = length chunks) as Hlen.
  { destruct Htext as (embedder & dtype & a & Ha & ->).
    rewrite (Hone _ _ _ _ Ha). by rewrite length_fmap. }
  exists file_info, chunks, (title_of answer), te, tes.
  exists (ingest_row (title_of answer) (fi_ID file_info) te <$> zip chunks tes).
  exists ([EvLog info (LogUploading (request_id request) file_name table_id
                         chunk_size chunk_overlap); registration]
          ++ prelude_log (request_id request) (fi_File_Name file_info) model
               (excerpt_of chunks) answer).
  split; [done|].
  split; [unfold ingest_chunks; rewrite Hload; simpl; by rewrite Hsplit|].
  split; [destruct tes, chunks; simpl in *; (done || lia)|].
  split; [done|]. split; [eauto|].
  split; [by apply ingest_rows_length|].
  split.
  { intros i c Hc.
    destruct (lookup_lt_is_Some_2 tes i) as [v' Hv].
    { rewrite Hlen. by eapply lookup_lt_Some. }
    exists v', (ingest_row (title_of answer) (fi_ID file_info) te (c, v')).
    split; [done|]. split; [by apply ingest_rows_lookup|].
    apply ingest_row_fields. }
  split.
  { rewrite Htrace. unfold w0_, extend, ingest_request. simpl.
    by rewrite <- !(assoc_L (++)). }
  split.
  { unfold prelude_log. destruct answer; repeat constructor; simpl; tauto. }
  apply elem_of_cons. right. apply elem_of_cons. by left.
Qed.

(** *** Model selection *)

Lemma exception_log_before_rows e msg :
  (∀ rid ex, msg ≠ LogTitleExtractionErrored (Vector:=Vector) rid ex) →
  Forall before_title_and_rows (exception_log e msg).
Proof.
  intros Hmsg. unfold exception_log. destruct (is_OwlException e); [constructor|].
  repeat constructor. simpl. destruct msg; try done. by eapply Hmsg.
Qed.

(** C10. The chat model for title inference is chosen outside the
    empty-title fallback.  When listing the candidate models raises, or
    gives an empty list so that taking its first element raises, the whole
    upload raises: no row-generation call is made on the knowledge table,
    and the title fallback is not taken (no title-extraction failure is
    logged).  Once the file is registered and split, the exception the
    upload raises is that of the model selection. *)
Theorem model_selection_failure_is_fatal (request : Request) (file : bytes)
    (file_name table_id : string) (chunk_size chunk_overlap : Z)
    (keys : ApiKeys) (w : World) (e : exn) :
  model_selection_error (model_names env (DEFAULT_CHAT_MODEL env) ["chat"] keys)
    = Some e →
  let file_table :=
    _get_file_table config (org_id request) (project_id request) in
  let run :=
    upload_file config env request file file_name table_id chunk_size
      chunk_overlap keys w in
  (∃ e' evs,
     run = (Raise e', extend w evs) ∧ Forall before_title_and_rows evs)
  ∧ (∀ file_info chunks,
       add_file env file_table file_name file (checksum env (2 ^ 10) file)
         = Ok file_info →
       ingest_chunks env file_info chunk_size chunk_overlap = Ok chunks →
       run.1 = Raise e).
Proof.
  intros Hsel file_table run. unfold run. rewrite upload_file_run.
  fold file_table.
  set (msg := LogUploadFailed _ _ _).
  assert (∀ e0, Forall before_title_and_rows (exception_log e0 msg)) as Hlog.
  { intros e0. by apply exception_log_before_rows. }
  assert (∀ evs1 evs2 : list (Event (Vector:=Vector)),
            Forall before_title_and_rows evs1 →
            Forall before_title_and_rows evs2 →
            Forall before_title_and_rows (evs1 ++ evs2)) as Happ.
  { intros evs1 evs2 H1 H2. apply Forall_app. by split. }
  assert (∀ (fi fi' : FileInfo) (chunks : list Chunk) (r : result (list Chunk)) P,
            Ok fi = Ok fi' →
            ingest_chunks env fi' chunk_size chunk_overlap = Ok chunks →
            ingest_chunks env fi chunk_size chunk_overlap = r →
            (∀ c, r = Ok c → P) → P) as Hsame.
  { intros fi fi' chunks r P [= <-] Hc Hr HP. eapply HP. by rewrite <- Hr. }
  destruct (add_file env file_table file_name file _) as [file_info|e0].
  - rewrite add_file_run.
    pose proof (eq_refl (ingest_chunks env file_info chunk_size chunk_overlap))
      as Hing.
    unfold ingest_chunks at 2 in Hing. unfold_r.
    destruct (load_file env _ _) as [raw|e0].
    + destruct (split_chunks env raw _ _) as [chunks|e0].
      * destruct (model_names env _ _ _) as [[|model models]|e0];
          simpl in Hsel; try discriminate Hsel; injection Hsel as <-.
        -- rewrite !extend_extend. split; [|by intros ? ? _ _].
           do 2 eexists. split; [done|].
           repeat (apply Happ; [forall_true|]). apply Hlog.
        -- rewrite !extend_extend. split; [|by intros ? ? _ _].
           do 2 eexists. split; [done|].
           repeat (apply Happ; [forall_true|]). apply Hlog.
      * rewrite !extend_extend. split.
        -- do 2 eexists. split; [done|].
           repeat (apply Happ; [forall_true|]). apply Hlog.
        -- intros fi' chunks' Hfi Hc.
           by eapply (Hsame _ _ _ _ _ Hfi Hc Hing).
    + rewrite !extend_extend. split.
      * do 2 eexists. split; [done|].
        repeat (apply Happ; [forall_true|]). apply Hlog.
      * intros fi' chunks' Hfi Hc.
        by eapply (Hsame _ _ _ _ _ Hfi Hc Hing).
  - rewrite !extend_extend. split; [|by intros ? ? [=]].
    do 2 eexists. split; [done|].
    repeat (apply Happ; [forall_true|]). apply Hlog.
Qed.

(** *** All chunks or none *)

Lemma exception_log_no_rows e (msg : LogMsg (Vector:=Vector)) :
  Forall (λ ev, ¬ is_gen_rows ev) (exception_log e msg).
Proof.
  unfold exception_log. destruct (is_OwlException e); repeat constructor.
  simpl. tauto.
Qed.


Lemma prelude_log_is_log rid name model excerpt answer :
  Forall (is_log (Vector:=Vector)) (prelude_log rid name model excerpt answer).
Proof. unfold prelude_log. destruct answer; repeat constructor. Qed.



(** *** Title extraction *)

Lemma ingest_rows_title title file_id (title_embed : Vector)
    (chunks : list Chunk) (text_embeds : list Vector) (row : gmap string Value) :
  row ∈ ingest_row title file_id title_embed <$> zip chunks text_embeds →
  row !! "Title" = Some (VStr title)
  ∧ row !! "Title Embed" = Some (VVec title_embed).
Proof.
  intros Hrow. apply list_elem_of_fmap in Hrow as ([c v] & -> & _).
  pose proof (ingest_row_fields title file_id title_embed c v) as H.
  simpl in H. tauto.
Qed.

(** Every row the second half of [_add_file] submits carries [title]. *)
Lemma add_into_knowledge_table_titles request table_id file_info chunks title
    keys (w : World) :
  ∃ evs,
    trace (add_into_knowledge_table config env request table_id file_info
             chunks title keys w).2 = trace w ++ evs
    ∧ ∀ t body row,
        EvGenRows t (AddBody body) ∈ evs → row ∈ add_data body →
        row !! "Title" = Some (VStr title).
Proof.
  rewrite add_into_knowledge_table_run.
  set (table := _get_gen_table _ _ _ _).
  assert (∃ evs : list Event, trace w = trace w ++ evs
            ∧ ∀ t body (row : gmap string Value),
                EvGenRows t (AddBody body) ∈ evs → row ∈ add_data body →
                row !! "Title" = Some (VStr title)) as Hnone.
  { exists []. rewrite app_nil_r. split; [done|]. intros ? ? ? H.
    by apply elem_of_nil in H. }
  destruct (open_meta env table table_id) as [meta|e]; [|done].
  destruct (embed_columns _ _ _ _ _ _ _) as [[[te|] tes]|e]; try done.
  case_bool_decide; [done|].
  cbv zeta. rewrite add_rows_run. fold table. cbv zeta.
  assert (∀ t body (row : gmap string Value) post,
            Forall (λ ev, ¬ is_gen_rows ev) post →
            EvGenRows t (AddBody body)
              ∈ EvGenRows table
                  (AddBody (ingest_request env table_id
                     (ingest_row title (fi_ID file_info) te <$> zip chunks tes)))
                :: post →
            row ∈ add_data body → row !! "Title" = Some (VStr title)) as Hrows.
  { intros t body row post Hpost Hin Hrow.
    apply elem_of_cons in Hin as [[= _ ->]|Hin].
    - simpl in Hrow. by apply ingest_rows_title in Hrow as [? _].
    - rewrite Forall_forall in Hpost. by apply Hpost in Hin. }
  destruct (reindex_now _ _ _ _ _) as [now|e].
  - destruct (gen_rows _ _ _ _ _ _ _) as [out|e].
    + eexists. split.
      { destruct now; unfold extend, schedule; simpl;
          by rewrite <- (assoc_L (++)). }
      intros t body row. apply Hrows. repeat constructor. simpl. tauto.
    + eexists. split.
      { destruct now; unfold extend, schedule; simpl; done. }
      intros t body row. apply Hrows. apply exception_log_no_rows.
  - eexists. split; [done|]. intros t body row Hin.
    pose proof (exception_log_no_rows e
                  (LogAddRowFailed (ingest_request env table_id
                     (ingest_row title (fi_ID file_info) te <$> zip chunks tes))))
      as Hlog.
    rewrite Forall_forall in Hlog. by apply Hlog in Hin.
Qed.

(** C4. When the title-generation call raises, [_add_file] logs the failure
    and goes on exactly as it would with the title "": the exception does
    not reach the caller.  If the later steps succeed, the upload returns
    the OK response after one row-generation call with one row per chunk,
    each with Title "" and with the first row of the embedding of [""] as
    Title Embed, followed by the reindex.  And whatever the later steps do,
    every row this run submits has Title "". *)
Theorem title_failure_is_not_fatal (request : Request)
    (request_id table_id : string) (file_info : FileInfo)
    (chunk_size chunk_overlap : Z) (keys : ApiKeys) (w : World)
    (chunks : list Chunk) (model : string) (models : list string) (e : exn) :
  ingest_chunks env file_info chunk_size chunk_overlap = Ok chunks →
  model_names env (DEFAULT_CHAT_MODEL env) ["chat"] keys = Ok (model :: models) →
  predict_title env request model (excerpt_of chunks) keys = Err e →
  let table :=
    _get_gen_table config (org_id request) (project_id request) knowledge in
  let run :=
    _add_file config env request request_id table_id file_info chunk_size
      chunk_overlap keys w in
  let w1 :=
    extend w
      [EvLog debug (LogSplittingFile (fi_File_Name file_info));
       EvLog debug (LogTitleExtractionUsing request_id model);
       EvLog exception (LogTitleExtractionErrored request_id (excerpt_of chunks))] in
  run = add_into_knowledge_table config env request table_id file_info chunks
          "" keys w1
  ∧ (∀ meta title_embed text_embeds now out reindexed,
       let rows :=
         ingest_row "" (fi_ID file_info) title_embed <$> zip chunks text_embeds in
       open_meta env table table_id = Ok meta →
       embed_columns env (meta_cols meta) "" chunks keys None []
         = Ok (Some title_embed, text_embeds) →
       length text_embeds = length chunks →
       chunks ≠ [] →
       reindex_now config env (RowAddRequest_reindex_default env) table table_id
         = Ok now →
       gen_rows env table request (AddBody (ingest_request env table_id rows))
         (owl_concurrent_rows_batch_size config)
         (owl_concurrent_cols_batch_size config) keys = Ok out →
       create_indexes env (GenT table) table_id = Ok reindexed →
       run.1 = Ret OkResponse_ok
       ∧ trace run.2
         = trace w1
           ++ [EvGenRows table (AddBody (ingest_request env table_id rows));
               EvCreateIndexes (GenT table) table_id]
       ∧ length rows = length chunks
       ∧ (∀ row, row ∈ rows →
            row !! "Title" = Some (VStr "")
            ∧ row !! "Title Embed" = Some (VVec title_embed))
       ∧ ∃ rest, embedding_of env [""] (title_embed :: rest))
  ∧ (∀ t body row,
       EvGenRows t (AddBody body) ∈ trace run.2 →
       EvGenRows t (AddBody body) ∉ trace w →
       row ∈ add_data body →
       row !! "Title" = Some (VStr "")).
Proof.
  intros Hchunks Hmodel Hpredict table run w1.
  assert (run = add_into_knowledge_table config env request table_id file_info
                  chunks "" keys w1) as Hrun.
  { unfold run. rewrite add_file_run.
    unfold ingest_chunks in Hchunks. unfold_r.
    destruct (load_file env _ _) as [raw|e0]; [|discriminate Hchunks].
    rewrite Hchunks, Hmodel. cbv zeta. rewrite Hpredict. done. }
  split; [done|]. split.
  - intros meta te tes now out reindexed rows Hmeta Hscan Hlen Hne Hnow Hgen Hci.
    rewrite Hrun, add_into_knowledge_table_run. fold table.
    rewrite Hmeta, Hscan.
    rewrite bool_decide_eq_false_2
      by (destruct tes, chunks; simpl in *; (done || lia)).
    cbv zeta. rewrite add_rows_run. fold table. cbv zeta. fold rows.
    simpl add_reindex. simpl add_table_id. rewrite Hnow, Hgen, Hci.
    split; [done|]. split.
    { destruct now; unfold extend, schedule; simpl;
        by rewrite <- (assoc_L (++)). }
    split; [by apply ingest_rows_length|].
    split; [intros row; apply ingest_rows_title|].
    apply embed_columns_provenance in Hscan
      as [[?|(v & rest & [= <-] & Htitle)] _]; [done|eauto].
  - intros t body row Hin Hnew Hrow.
    destruct (add_into_knowledge_table_titles request table_id file_info chunks
                "" keys w1) as (evs & Htrace & Hevs).
    rewrite Hrun, Htrace in Hin. unfold w1, extend in Hin. simpl in Hin.
    apply elem_of_app in Hin as [Hin|Hin]; [|by eapply Hevs].
    apply elem_of_app in Hin as [Hin|Hin]; [done|].
    revert Hin. solve_not_in.
Qed.

(** ** The checksum of an uploaded file *)

(** Cutting a list into [m] consecutive pieces of [b] elements loses
    nothing when [m * b] reaches its length. *)
Lemma pieces_join {A} (b m : nat) (l : list A) :
  (length l ≤ m * b)%nat →
  mjoin ((λ k : nat, take b (drop (k * b) l)) <$> seq 0 m) = l.
Proof.
  revert l. induction m as [|m IH]; intros l Hlen.
  - simpl in *. symmetry. apply nil_length_inv. lia.
  - rewrite <- cons_seq, <- fmap_S_seq. simpl.
    rewrite <- list_fmap_compose.
    transitivity (take b l ++ drop b l); [|apply take_drop].
    f_equal.
    rewrite <- (IH (drop b l)) by (rewrite length_drop; lia).
    f_equal. apply list_fmap_ext. intros _ k _. simpl.
    by rewrite drop_drop.
Qed.

Lemma blocks_join (block_size : Z) (content : bytes) :
  (0 < block_size)%Z → mjoin (blocks block_size content) = content.
Proof.
  intros Hpos. unfold blocks, range_0, seqZ.
  rewrite <- !list_fmap_compose.
  set (b := Z.to_nat block_size).
  set (n := Z.of_nat (length content)).
  transitivity
    (mjoin ((λ k : nat, take b (drop (k * b) content))
              <$> seq 0 (Z.to_nat ((n + block_size - 1) `div` block_size)))).
  - f_equal. apply list_fmap_ext. intros _ k _. simpl. unfold slice.
    f_equal; [f_equal; lia|]. f_equal. unfold b. lia.
  - apply pieces_join.
    assert (n ≤ (n + block_size - 1) `div` block_size * block_size)%Z as Hle.
    { pose proof (Z.div_mod (n + block_size - 1) block_size ltac:(lia)) as Hdm.
      pose proof (Z.mod_pos_bound (n + block_size - 1) block_size Hpos).
      lia. }
    assert (0 ≤ (n + block_size - 1) `div` block_size)%Z
      by (apply Z.div_pos; lia).
    unfold b, n in *. nia.
Qed.

Lemma fold_left_fmap {A B C} (f : A → B → A) (g : C → B) (l : list C) (a : A) :
  fold_left (λ a c, f a (g c)) l a = fold_left f (g <$> l) a.
Proof. revert a. induction l as [|c l IH]; intros a; simpl; auto. Qed.

Lemma checksum_whole (block_size : Z) (content : bytes) :
  streaming_contract (blake2b env) → (0 < block_size)%Z →
  checksum env block_size content = whole_digest (blake2b env) content.
Proof.
  intros Hcontract Hpos. unfold checksum, whole_digest.
  rewrite (fold_left_fmap (hasher_update (blake2b env))
             (λ i, slice content i (i + block_size))).
  fold (blocks block_size content).
  by rewrite Hcontract, blocks_join.
Qed.

Lemma add_file_extends request request_id table_id file_info cs co keys
    (w : World) :
  ∃ evs,
    trace (_add_file config env request request_id table_id file_info cs co
             keys w).2 = trace w ++ evs.
Proof.
  rewrite add_file_run.
  destruct (load_file env _ _) as [raw|e].
  2:{ exists []. simpl. by rewrite app_nil_r. }
  destruct (split_chunks env raw _ _) as [chunks|e]; [|by eexists].
  destruct (model_names env _ _ _) as [[|model models]|e]; try by eexists.
  cbv zeta.
  match goal with
  | |- context [add_into_knowledge_table _ _ ?r ?t ?f ?c ?ti ?k ?w1] =>
      destruct (add_into_knowledge_table_titles r t f c ti k w1)
        as (evs & -> & _)
  end.
  eexists. unfold extend. simpl. by rewrite <- (assoc_L (++)).
Qed.

(** C8. With a hasher that keeps hashlib's contract for [update], the
    checksum loop of [upload_file] gives, for every byte string (the empty
    one included) and every positive block size, the digest of the content
    hashed in one single update; so any two block sizes give the same
    digest, and the checksum [upload_file] registers with its blocks of
    1024 bytes is that digest of the file's bytes. *)
Theorem checksum_depends_on_content_only (content : bytes) :
  streaming_contract (blake2b env) →
  (∀ block_size, (0 < block_size)%Z →
     checksum env block_size content = whole_digest (blake2b env) content)
  ∧ (∀ block_size block_size',
       (0 < block_size)%Z → (0 < block_size')%Z →
       checksum env block_size content = checksum env block_size' content)
  ∧ (∀ request file_name table_id chunk_size chunk_overlap keys (w : World),
       ∃ evs,
         trace (upload_file config env request content file_name table_id
                  chunk_size chunk_overlap keys w).2
         = trace w
           ++ EvLog info (LogUploading (request_id request) file_name table_id
                            chunk_size chunk_overlap)
              :: EvFileAdd
                   (_get_file_table config (org_id request) (project_id request))
                   file_name content (whole_digest (blake2b env) content)
              :: evs).
Proof.
  intros Hcontract. split; [|split].
  - intros block_size Hpos. by apply checksum_whole.
  - intros b1 b2 H1 H2. by rewrite !checksum_whole.
  - intros request file_name table_id cs co keys w.
    rewrite upload_file_run.
    rewrite (checksum_whole (2 ^ 10)) by done.
    set (msg := LogUploadFailed _ _ _).
    destruct (add_file env _ _ _ _) as [file_info|e].
    + match goal with
      | |- context [_add_file _ _ ?r ?ri ?t ?f ?a ?b ?k ?w0] =>
          destruct (add_file_extends r ri t f a b k w0) as (evs & Hevs);
          destruct (_add_file config env r ri t f a b k w0) as [[x|e|] w1]
      end; simpl in *; rewrite Hevs.
      * exists evs. by rewrite <- !(assoc_L (++)).
      * exists (evs ++ exception_log e msg). by rewrite <- !(assoc_L (++)).
      * exists evs. by rewrite <- !(assoc_L (++)).
    + exists (exception_log e msg). simpl. by rewrite <- !(assoc_L (++)).
Qed.

End Properties.

(** * BLAKE2b keeps the streaming contract *)

Section Blake2bStreaming.

Import Blake2b.

(** More fuel than pending bytes changes nothing. *)
Lemma absorb_fuel (f f' : nat) (h : list Z) (t : Z) (p : bytes) :
  (length p ≤ f)%nat → (length p ≤ f')%nat →
  absorb f h t p = absorb f' h t p.
Proof.
  revert f' h t p. induction f as [|f IH]; intros f' h t p Hf Hf'.
  - destruct p; [|simpl in Hf; lia].
    by destruct f'.
  - destruct f' as [|f'].
    + by destruct p; [|simpl in Hf'; lia].
    + simpl. case_bool_decide; [|done].
      apply IH; rewrite length_drop; lia.
Qed.

(** What is left in the buffer is at most one block. *)
Lemma absorb_buffer (f : nat) (h : list Z) (t : Z) (p : bytes) :
  (length p ≤ f)%nat → (length (st_buf (absorb f h t p)) ≤ 128)%nat.
Proof.
  revert h t p. induction f as [|f IH]; intros h t p Hf; simpl.
  - lia.
  - case_bool_decide; simpl; [|lia].
    apply IH. rewrite length_drop. lia.
Qed.

(** Absorbing [p ++ q] is absorbing [p], then [q] on top of what [p] left
    in the buffer. *)
Lemma absorb_app (f f' f'' : nat) (h : list Z) (t : Z) (p q : bytes) :
  (length p ≤ f)%nat → (length (p ++ q) ≤ f')%nat →
  (length (st_buf (absorb f h t p) ++ q) ≤ f'')%nat →
  absorb f' h t (p ++ q)
  = absorb f'' (st_h (absorb f h t p)) (st_t (absorb f h t p))
      (st_buf (absorb f h t p) ++ q).
Proof.
  revert f' f'' h t p. induction f as [|f IH]; intros f' f'' h t p Hf Hf' Hf''.
  - destruct p; [|simpl in Hf; lia]. simpl in *. by apply absorb_fuel.
  - simpl in *. case_bool_decide as Hlong; simpl in *.
    + destruct f' as [|f']; [rewrite length_app in Hf'; lia|].
      simpl. rewrite bool_decide_eq_true_2 by (rewrite length_app; lia).
      rewrite take_app_le, drop_app_le by lia.
      apply IH; [rewrite length_drop; lia| |done].
      rewrite length_app, length_drop. rewrite length_app in Hf'. lia.
    + by apply absorb_fuel.
Qed.

Lemma update_app (s : state) (a b : bytes) :
  update (update s a) b = update s (a ++ b).
Proof.
  unfold update. rewrite (assoc_L (++)). symmetry. by apply absorb_app.
Qed.

Lemma update_nil (s : state) :
  (length (st_buf s) ≤ 128)%nat → update s [] = s.
Proof.
  intros Hbuf. unfold update. rewrite app_nil_r.
  destruct s as [h t buf]. simpl in *.
  destruct (length buf) eqn:Hlen; simpl; [done|].
  by rewrite bool_decide_eq_false_2 by lia.
Qed.

Lemma update_buffer (s : state) (a : bytes) :
  (length (st_buf (update s a)) ≤ 128)%nat.
Proof. unfold update. by apply absorb_buffer. Qed.

Lemma updates_join (chunks : list bytes) (s : state) :
  (length (st_buf s) ≤ 128)%nat →
  fold_left update chunks s = update s (mjoin chunks).
Proof.
  revert s. induction chunks as [|c chunks IH]; intros s Hbuf; simpl.
  - by rewrite update_nil.
  - rewrite IH by apply update_buffer. apply update_app.
Qed.

(** Feeding BLAKE2b in pieces or at once gives the same digest. *)
Lemma blake2b_streaming : streaming_contract blake2b_hasher.
Proof.
  intros chunks. simpl. f_equal. apply updates_join. simpl. lia.
Qed.

(** The digests of the RFC's test vector and of the empty input, as
    hashlib gives them. *)
Example blake2b_abc :
  whole_digest blake2b_hasher Demo.abc
  = "ba80a53f981c4d0d6a2797b69f12f6e94c212f14685ac4b74b12bb6fdbffa2d17d87c5392aab792dc252d5de4533cc9518d38aa8dbf1925ab92386edd4009923".
Proof. vm_compute. reflexivity. Qed.

Example blake2b_empty :
  whole_digest blake2b_hasher []
  = "786a02f742015903c6c6fd852552d272912f4740e15847618a86e217f71f5419d25e1031afee585313896444934eb04b903a685b1448b755d56f701afe9be2ce".
Proof. vm_compute. reflexivity. Qed.

End Blake2bStreaming.

(** * The properties on the small deployment *)

Lemma demo_one_embedding_per_text : one_embedding_per_text Demo.env.
Proof.
  intros embedder texts dtype a H. injection H as <-. simpl.
  rewrite length_zip_with, !length_fmap. lia.
Qed.

(** An add with auto intent schedules a reindex on the small table and none
    on the table of 2500 rows. *)
Lemma reindex_trigger_policy_witness :
  bg_tasks (add_rows Demo.config Demo.env Demo.request knowledge
              (Demo.add_body "docs" None) Demo.keys Demo.w0).2
  = [TaskCreateIndexes Demo.knowledge_table "docs"]
  ∧ bg_tasks (add_rows Demo.config Demo.env Demo.request knowledge
                (Demo.add_body "big" None) Demo.keys Demo.w0).2
    = [].
Proof.
  destruct (reindex_trigger_policy Demo.config Demo.env Demo.request knowledge
              Demo.keys Demo.w0) as [Hadd _].
  split.
  - destruct (Hadd (Demo.add_body "docs" None)) as (Hdue & _ & _).
    apply Hdue. right. split; [reflexivity|].
    exists 10. split; [reflexivity|]. vm_compute. discriminate.
  - destruct (Hadd (Demo.add_body "big" None)) as (_ & Hnot & _).
    apply Hnot. right. split; [reflexivity|].
    exists 2500. split; [reflexivity|]. vm_compute. reflexivity.
Defined.

(** An update of "TEXT embed" on the knowledge table is refused and leaves
    no trace; an update of "Text" goes through. *)
Lemma update_row_fixed_embedding_columns_witness :
  update_row Demo.config Demo.env Demo.request knowledge Demo.update_embedding
    Demo.w0
  = (Raise (TableSchemaFixedError "Cannot update 'Text Embed' or 'Title Embed'."),
     Demo.w0)
  ∧ (update_row Demo.config Demo.env Demo.request knowledge Demo.update_text
       Demo.w0).1
    = Ret OkResponse_ok.
Proof.
  split.
  - destruct (update_row_fixed_embedding_columns Demo.config Demo.env
                Demo.request Demo.update_embedding Demo.w0) as [Hfixed _].
    apply Hfixed. exists "TEXT embed". split.
    + apply elem_of_dom. exists (VVec [0; 1]). vm_compute. reflexivity.
    + left. reflexivity.
  - destruct (update_row_fixed_embedding_columns Demo.config Demo.env
                Demo.request Demo.update_text Demo.w0) as [_ Hfree].
    apply Hfree.
    + intros (k & Hk & Hname).
      apply elem_of_dom in Hk as [v Hv]. simpl in Hv.
      apply lookup_singleton_Some in Hv as [<- _].
      destruct Hname as [Hname|Hname]; vm_compute in Hname; discriminate Hname.
    + reflexivity.
    + intros _. exists 10. reflexivity.
Defined.

(** With both locks held elsewhere, a tick of either job tries its lock and
    logs that it was skipped. *)
Lemma periodic_jobs_lock_once_and_skip_witness :
  periodic_reindex Demo.config Demo.env 5 Demo.w_locked
  = (Ret (),
     extend Demo.w_locked
       [EvAcquire "db/periodic_reindex.lock"; EvLog info LogReindexSkipped])
  ∧ periodic_optimize Demo.config Demo.env 5 Demo.w_locked
    = (Ret (),
       extend Demo.w_locked
         [EvAcquire "db/periodic_optimization.lock";
          EvLog info LogOptimizeSkipped]).
Proof.
  destruct (periodic_jobs_lock_once_and_skip Demo.config Demo.env 5
              Demo.w_locked) as (Hreindex & Hoptimize & _).
  split.
  - apply Hreindex. simpl. set_solver.
  - apply Hoptimize. simpl. set_solver.
Defined.

(** C5, as stated, fails on table "big": the optimize job visits it and
    calls [compact_files], which returns false; [cleanup_old_versions],
    which would have returned true, is never called on it. *)
Lemma optimize_skips_pruning_after_failed_compaction :
  let run := periodic_optimize Demo.config Demo.env 5 Demo.w0 in
  Demo.big_item ∈ gen_items (_iter_all_tables Demo.config Demo.env 5 200)
  ∧ EvCompactFiles (GenT Demo.knowledge_table) (Some "big") ∈ trace run.2
  ∧ cleanup_old_versions Demo.env (GenT Demo.knowledge_table) (Some "big") 7
    = Ok true
  ∧ ¬ (∃ days,
         EvCleanupOldVersions (GenT Demo.knowledge_table) (Some "big") days
           ∈ trace run.2).
Proof.
  split; [|split; [|split]].
  - vm_compute. apply elem_of_cons. right. apply elem_of_cons. by left.
  - vm_compute. do 4 (apply elem_of_cons; right). apply elem_of_cons. by left.
  - reflexivity.
  - intros [days H]. vm_compute in H.
    repeat (apply elem_of_cons in H as [H|H]; [discriminate H|]).
    by apply elem_of_nil in H.
Qed.

(** A tick of the optimize job on the deployment: four tables, three ok,
    one skipped. *)
Lemma optimize_job_outcomes_witness :
  ∃ evs,
    trace (periodic_optimize Demo.config Demo.env 5 Demo.w0).2
    = evs ++ [EvLog info (LogOptimizeCompleted 3 1 0)].
Proof.
  destruct (optimize_job_outcomes Demo.config Demo.env Demo.w0) as (_ & Htick & _).
  destruct (Htick 5%nat) as (evs & _ & Htrace & _).
  - simpl. set_solver.
  - vm_compute. reflexivity.
  - exists evs. rewrite Htrace. reflexivity.
Defined.

(** An upload of a file that splits into three chunks submits three rows. *)
Lemma upload_inserts_one_row_per_chunk_witness :
  ∃ rows : list (gmap string Value),
    length rows = 3%nat
    ∧ EvGenRows Demo.knowledge_table
        (AddBody {| add_table_id := "docs"; add_data := rows;
                    add_stream := false; add_reindex := None |})
      ∈ trace (upload_file Demo.config Demo.env Demo.request Demo.abc
                 "notes.txt" "docs" 1000 200 Demo.keys Demo.w0).2.
Proof.
  destruct (upload_inserts_one_row_per_chunk Demo.config Demo.env Demo.request
              Demo.abc "notes.txt" "docs" 1000 200 Demo.keys Demo.w0
              (upload_file Demo.config Demo.env Demo.request Demo.abc
                 "notes.txt" "docs" 1000 200 Demo.keys Demo.w0).2
              OkResponse_ok demo_one_embedding_per_text)
    as (fi & chunks & title & te & tes & rows & pre
        & _ & Hchunks & _ & _ & _ & Hlen & _ & Htrace & _).
  - vm_compute. reflexivity.
  - injection Hchunks as <-. exists rows. split; [exact Hlen|].
    rewrite Htrace. apply elem_of_app. right. apply elem_of_app. right.
    apply elem_of_cons. by left.
Defined.


(** With the title generation down, ingestion into "docs" still succeeds. *)
Lemma title_failure_is_not_fatal_witness :
  (_add_file Demo.config Demo.env Demo.request_offline "req-offline" "docs"
     Demo.file_info 1000 200 Demo.keys Demo.w0).1
  = Ret OkResponse_ok.
Proof.
  destruct (title_failure_is_not_fatal Demo.config Demo.env
              Demo.request_offline "req-offline" "docs" Demo.file_info 1000 200
              Demo.keys Demo.w0 Demo.chunks "openai/gpt-4o-mini" []
              (OtherException "provider unavailable"))
    as (_ & Hcompletes & _).
  - reflexivity.
  - reflexivity.
  - reflexivity.
  - destruct (Hcompletes Demo.docs_meta [1; 0] [[1; 0]; [1; 0]; [1; 0]] true
                3%nat true) as (Hret & _).
    + reflexivity.
    + vm_compute. reflexivity.
    + reflexivity.
    + discriminate.
    + vm_compute. reflexivity.
    + vm_compute. reflexivity.
    + reflexivity.
    + exact Hret.
Defined.

(** BLAKE2b of "abc" byte by byte and in blocks of 1024 bytes; the empty
    file. *)
Lemma checksum_depends_on_content_only_witness :
  checksum Demo.env 1 Demo.abc = checksum Demo.env (2 ^ 10) Demo.abc
  ∧ checksum Demo.env (2 ^ 10) [] = whole_digest blake2b_hasher [].
Proof.
  split.
  - destruct (checksum_depends_on_content_only Demo.config Demo.env Demo.abc
                blake2b_streaming) as (_ & Hsame & _).
    apply Hsame; reflexivity.
  - destruct (checksum_depends_on_content_only Demo.config Demo.env []
                blake2b_streaming) as (Hwhole & _).
    apply Hwhole. reflexivity.
Defined.

(** Without credentials no chat model is listed, and the upload fails. *)
Lemma model_selection_failure_is_fatal_witness :
  ∃ e evs,
    upload_file Demo.config Demo.env Demo.request Demo.abc "notes.txt" "docs"
      1000 200 Demo.no_keys Demo.w0
    = (Raise e, extend Demo.w0 evs)
    ∧ Forall before_title_and_rows evs.
Proof.
  destruct (model_selection_failure_is_fatal Demo.config Demo.env Demo.request
              Demo.abc "notes.txt" "docs" 1000 200 Demo.no_keys Demo.w0
              (IndexError "list index out of range")) as (Hfails & _).
  - reflexivity.
  - exact Hfails.
Defined.

(** * Further properties of the router *)

Section MoreProperties.

Context {Vector NDArray RawEmbeddings GenConfig GenOutput : Type}.
Context (config : Config)
        (env : @Env Vector NDArray RawEmbeddings GenConfig GenOutput).

(** ** The maintenance jobs, beyond the lock *)

Lemma release_restores (lock : string) (X : gset string) :
  lock ∉ X → ({[lock]} ∪ X) ∖ {[lock]} = X.
Proof. set_solver. Qed.

Lemma tick_result_not_raise (r : outcome Tally) e : tick_result r ≠ Raise e.
Proof. by destruct r. Qed.

Lemma reindex_outcome_cases (it : Item) meta :
  it_meta it = Some meta →
  let reindexed := create_indexes env (it_table it) (meta_id meta) in
  let o := reindex_outcome env it in
  (o = job_ok ↔ reindexed = Ok true)
  ∧ (o = job_skipped ↔ reindexed = Ok false)
  ∧ (o = job_failed ↔ ∃ e, reindexed = Err e).
Proof.
  intros Hmeta. unfold reindex_outcome. rewrite Hmeta. simpl.
  destruct (create_indexes env _ _) as [[]|e];
    repeat split; try done; try (intros; by eauto); intros []; done.
Qed.

Lemma reindex_events_failure (it : Item) meta :
  it_meta it = Some meta →
  EvLog exception (LogReindexTableFailed (it_path it)) ∈ reindex_events env it
  ↔ reindex_outcome env it = job_failed.
Proof.
  intros Hmeta. unfold reindex_events, reindex_outcome. rewrite Hmeta.
  destruct (create_indexes env _ _) as [[]|e];
    rewrite ?elem_of_cons, ?elem_of_nil; intuition (eauto; discriminate).
Qed.

Lemma reindex_events_once (it : Item) meta :
  it_meta it = Some meta →
  ∃ rest,
    reindex_events env it = EvCreateIndexes (it_table it) (meta_id meta) :: rest
    ∧ ∀ t i, EvCreateIndexes t i ∉ rest.
Proof.
  intros Hmeta. unfold reindex_events. rewrite Hmeta.
  eexists. split; [done|].
  intros t i. destruct (create_indexes env _ _) as [b|e]; solve_not_in.
Qed.

(** X1. On a table of the enumeration that has a session, the reindex job
    calls [create_indexes] once; the table's outcome is [ok] exactly when
    the call returns true, [skipped] exactly when it returns false, and
    [failed] exactly when it raises, which is also exactly when the failure
    is logged; the visit never raises.  When the lock is free and the
    enumeration ends, the tick logs the three counts, taken over the tables
    that have a session: they add up to the number of those tables. *)
Theorem reindex_job_outcomes (w : World) :
  (∀ (it : Item) meta,
     it_meta it = Some meta →
     let reindexed := create_indexes env (it_table it) (meta_id meta) in
     ∃ o rest,
       reindex_visit env it w
       = (Ret o,
          extend w (EvCreateIndexes (it_table it) (meta_id meta) :: rest))
       ∧ (∀ t i, EvCreateIndexes t i ∉ rest)
       ∧ (o = job_ok ↔ reindexed = Ok true)
       ∧ (o = job_skipped ↔ reindexed = Ok false)
       ∧ (o = job_failed ↔ ∃ e, reindexed = Err e)
       ∧ (EvLog exception (LogReindexTableFailed (it_path it)) ∈ rest
          ↔ o = job_failed))
  ∧ (∀ fuel : nat,
       let lock := owl_db_dir config +:+ "/periodic_reindex.lock" in
       let g := _iter_all_tables config env fuel 200 in
       let visited := filter has_session (gen_items g) in
       let outcomes := reindex_outcome env <$> visited in
       lock ∉ held w → gen_end g = Ret () →
       ∃ evs,
         (periodic_reindex config env fuel w).1 = Ret ()
         ∧ trace (periodic_reindex config env fuel w).2
           = trace w ++ evs
             ++ [EvLog info (LogReindexCompleted
                               (count_outcome job_ok outcomes)
                               (count_outcome job_skipped outcomes)
                               (count_outcome job_failed outcomes))]
         ∧ (∀ it meta, it ∈ visited → it_meta it = Some meta →
              EvCreateIndexes (it_table it) (meta_id meta) ∈ evs)
         ∧ (count_outcome job_ok outcomes + count_outcome job_skipped outcomes
            + count_outcome job_failed outcomes = length visited)%nat).
Proof.
  split.
  - intros it meta Hmeta reindexed.
    destruct (reindex_events_once it meta Hmeta) as (rest & Hevs & Hrest).
    exists (reindex_outcome env it), rest.
    split; [by rewrite reindex_visit_run, Hevs|].
    split; [done|].
    destruct (reindex_outcome_cases it meta Hmeta) as (Hok & Hskip & Hfail).
    repeat split; try apply Hok; try apply Hskip; try apply Hfail.
    + intros Hin. apply reindex_events_failure with (meta:=meta); [done|].
      rewrite Hevs. by apply elem_of_cons; right.
    + intros Hfailed.
      apply (reindex_events_failure it meta Hmeta) in Hfailed.
      rewrite Hevs in Hfailed.
      by apply elem_of_cons in Hfailed as [|].
  - intros fuel lock g visited outcomes Hfree Hend.
    rewrite periodic_reindex_free by done. fold lock g visited outcomes.
    unfold loop_result. rewrite Hend. simpl.
    rewrite tally_all_counts. simpl.
    exists ([EvAcquire lock; EvLog info LogReindexStarted]
            ++ mjoin (reindex_events env <$> visited)
            ++ [EvRelease lock]).
    split; [done|]. split.
    { repeat (rewrite <- !(assoc_L (++)); simpl). done. }
    split.
    + intros it meta Hit Hmeta. apply elem_of_app. right. apply elem_of_app. left.
      apply list_elem_of_join. exists (reindex_events env it).
      split; [|by apply list_elem_of_fmap_2].
      destruct (reindex_events_once it meta Hmeta) as (rest & -> & _).
      apply elem_of_cons. by left.
    + unfold outcomes. rewrite count_outcome_total. by rewrite length_fmap.
Qed.

Lemma loop_result_stall (g : Gen (GenConfig:=GenConfig)) (t : Tally) :
  loop_result g t = Stall ↔ gen_end g = Stall.
Proof. unfold loop_result. by destruct (gen_end g). Qed.

Lemma tick_held_released lock (r : outcome Tally) (locks : gset string) :
  lock ∉ locks → r ≠ Stall → tick_held lock r locks = locks.
Proof. intros Hfree Hr. destruct r; [| |done]; by apply release_restores. Qed.

(** X2. A tick of either job never raises, whatever the collaborators do,
    and leaves the background tasks as it found them.  When the enumeration
    ends, normally or with an exception, the set of held locks is as the
    tick found it: the lock it took has been released.  A tick whose
    enumeration never ends does not come back and keeps the lock it
    took. *)
Theorem ticks_never_raise_and_release (fuel : nat) (w : World) :
  let g := _iter_all_tables config env fuel 200 in
  let reindex_lock := owl_db_dir config +:+ "/periodic_reindex.lock" in
  let optimize_lock := owl_db_dir config +:+ "/periodic_optimization.lock" in
  let reindex := periodic_reindex config env fuel w in
  let optimize := periodic_optimize config env fuel w in
  (∀ e, reindex.1 ≠ Raise e)
  ∧ (∀ e, optimize.1 ≠ Raise e)
  ∧ bg_tasks reindex.2 = bg_tasks w
  ∧ bg_tasks optimize.2 = bg_tasks w
  ∧ (gen_end g ≠ Stall → held reindex.2 = held w ∧ held optimize.2 = held w)
  ∧ (gen_end g = Stall →
     (reindex_lock ∉ held w →
        reindex.1 = Stall ∧ held reindex.2 = {[reindex_lock]} ∪ held w)
     ∧ (optimize_lock ∉ held w →
          optimize.1 = Stall ∧ held optimize.2 = {[optimize_lock]} ∪ held w)).
Proof.
  intros g reindex_lock optimize_lock reindex optimize.
  unfold reindex, optimize.
  assert (∀ t, gen_end g ≠ Stall → loop_result g t ≠ Stall) as Hends.
  { intros t Hend Hstall. by apply Hend, (loop_result_stall g t). }
  destruct (decide (reindex_lock ∈ held w)) as [Hr|Hr];
  destruct (decide (optimize_lock ∈ held w)) as [Ho|Ho];
  rewrite ?(periodic_reindex_held config env fuel w Hr),
          ?(periodic_optimize_held config env fuel w Ho),
          ?(periodic_reindex_free config env fuel w Hr),
          ?(periodic_optimize_free config env fuel w Ho);
  fold g; simpl;
  (split; [intros e; try done; apply tick_result_not_raise|]);
  (split; [intros e; try done; apply tick_result_not_raise|]);
  (split; [done|]); (split; [done|]);
  (split;
   [ intros Hend; rewrite ?tick_held_released by auto; done
   | intros Hend; split; intros Hfree; try done;
     rewrite (proj2 (loop_result_stall g _) Hend); done ]).
Qed.

(** X3. When the enumeration raises, the tick still returns: the tables
    yielded before the exception have been visited, the lock is released,
    and the last log line reports the error in place of the counts.  An
    exception of type [Timeout] coming out of the enumeration is reported
    as a skipped run. *)
Theorem enumeration_failure_ends_tick (fuel : nat) (w : World) (e : exn) :
  let g := _iter_all_tables config env fuel 200 in
  let reindex_lock := owl_db_dir config +:+ "/periodic_reindex.lock" in
  let optimize_lock := owl_db_dir config +:+ "/periodic_optimization.lock" in
  gen_end g = Raise e →
  (reindex_lock ∉ held w →
     periodic_reindex config env fuel w
     = (Ret (),
        extend w
          ([EvAcquire reindex_lock; EvLog info LogReindexStarted]
           ++ mjoin (reindex_events env <$> filter has_session (gen_items g))
           ++ [EvRelease reindex_lock;
               if is_Timeout e then EvLog info LogReindexSkipped
               else EvLog exception LogReindexError])))
  ∧ (optimize_lock ∉ held w →
     periodic_optimize config env fuel w
     = (Ret (),
        extend w
          ([EvAcquire optimize_lock; EvLog info LogOptimizeStarted]
           ++ mjoin (optimize_events config env <$> gen_items g)
           ++ [EvRelease optimize_lock;
               if is_Timeout e then EvLog info LogOptimizeSkipped
               else EvLog exception LogOptimizeError]))).
Proof.
  intros g reindex_lock optimize_lock Hend. split; intros Hfree.
  - rewrite periodic_reindex_free by done. fold g reindex_lock.
    unfold loop_result. rewrite Hend. unfold extend. simpl.
    by rewrite release_restores.
  - rewrite periodic_optimize_free by done. fold g optimize_lock.
    unfold loop_result. rewrite Hend. unfold extend. simpl.
    by rewrite release_restores.
Qed.

(** ** Pagination *)

Lemma gen_seq_assoc (g k l : Gen (GenConfig:=GenConfig)) :
  gen_seq (gen_seq g k) l = gen_seq g (gen_seq k l).
Proof. induction g as [|it rest IH|e|]; simpl; by rewrite ?IH. Qed.

Lemma gen_seq_done (g : Gen (GenConfig:=GenConfig)) : gen_seq g GDone = g.
Proof. induction g as [|it rest IH|e|]; simpl; by rewrite ?IH. Qed.

Lemma gen_for_app {A} (xs ys : list A) (body : A → Gen (GenConfig:=GenConfig)) :
  gen_for (xs ++ ys) body = gen_seq (gen_for xs body) (gen_for ys body).
Proof.
  induction xs as [|x xs IH]; simpl; [done|].
  by rewrite IH, gen_seq_assoc.
Qed.

Lemma gen_for_yields {A} (xs : list A) (f : A → Item (GenConfig:=GenConfig)) :
  gen_items (gen_for xs (λ x, GYield (f x) GDone)) = f <$> xs.
Proof. induction xs as [|x xs IH]; simpl; by rewrite ?IH. Qed.

Lemma iter_pages_from fuel batch_size table project_dir table_type metas offset :
  (0 < batch_size)%Z → (0 ≤ offset)%Z →
  paged_store env table batch_size metas →
  (pages_left (Z.of_nat (length metas)) batch_size offset ≤ fuel)%nat →
  iter_pages env fuel batch_size table project_dir table_type offset
    (Z.of_nat (length metas))
  = gen_for (drop (Z.to_nat offset) metas)
      (λ meta, GYield (table_item table project_dir table_type meta) GDone).
Proof.
  intros Hbs Hoff Hstore. revert offset Hoff.
  induction fuel as [|fuel IH]; intros offset Hoff Hfuel; simpl.
  - case_bool_decide as Hlt.
    + assert (pages_left (Z.of_nat (length metas)) batch_size offset = 0%nat)
        as Hzero by lia.
      apply pages_left_done in Hzero; [lia|done].
    + rewrite drop_ge by lia. done.
  - case_bool_decide as Hlt.
    + rewrite Hstore by done.
      rewrite IH; [|lia|rewrite pages_left_step in Hfuel by lia; lia].
      rewrite <- gen_for_app.
      replace (Z.to_nat (offset + batch_size))
        with (Z.to_nat offset + Z.to_nat batch_size)%nat by lia.
      by rewrite <- drop_drop, take_drop.
    + rewrite drop_ge by lia. done.
Qed.

Lemma iter_pages_all fuel batch_size table project_dir table_type metas :
  (0 < batch_size)%Z →
  paged_store env table batch_size metas →
  (S (pages_left (Z.of_nat (length metas)) batch_size batch_size) ≤ fuel)%nat →
  iter_pages env fuel batch_size table project_dir table_type 0 1
  = gen_for metas
      (λ meta, GYield (table_item table project_dir table_type meta) GDone).
Proof.
  intros Hbs Hstore Hfuel.
  destruct fuel as [|fuel]; [lia|]. simpl.
  rewrite Hstore by done.
  rewrite iter_pages_from with (metas:=metas);
    [|done|lia|done|rewrite ?Z.add_0_l; lia].
  rewrite <- gen_for_app. rewrite Z.add_0_l. simpl.
  by rewrite take_drop.
Qed.

(** X4. Over a store that answers page requests from a fixed list of
    tables, the pagination loop yields every table exactly once, in the
    order of the store, whatever the page size, and then ends; this needs
    as many page requests as the fuel covers, one more than the pages left
    after the first. *)
Theorem pagination_yields_every_table_once (fuel : nat) (batch_size : Z)
    (table : GenerativeTable) (project_dir : string) (table_type : TableType)
    (metas : list TableMeta) :
  (0 < batch_size)%Z →
  paged_store env table batch_size metas →
  (S (pages_left (Z.of_nat (length metas)) batch_size batch_size) ≤ fuel)%nat →
  let g := iter_pages env fuel batch_size table project_dir table_type 0 1 in
  gen_items g = table_item table project_dir table_type <$> metas
  ∧ gen_end g = Ret ().
Proof.
  intros Hbs Hstore Hfuel g. unfold g.
  rewrite iter_pages_all with (metas:=metas) by done.
  split; [apply gen_for_yields|apply gen_end_yields].
Qed.

(** X5. Once the fuel covers the pages of the largest table-metadata
    store, both ticks return, and more fuel changes nothing: the result
    does not depend on the bound put on the pagination loop. *)
Theorem ticks_return_with_enough_fuel (bound : Z) (fuel fuel' : nat) (w : World) :
  totals_bounded env bound →
  (S (pages_left bound 200 200) ≤ fuel)%nat → (fuel ≤ fuel')%nat →
  (periodic_reindex config env fuel w).1 = Ret ()
  ∧ (periodic_optimize config env fuel w).1 = Ret ()
  ∧ periodic_reindex config env fuel' w = periodic_reindex config env fuel w
  ∧ periodic_optimize config env fuel' w = periodic_optimize config env fuel w.
Proof.
  intros Hbound Hfuel Hmore.
  pose proof (iter_all_tables_ends config env bound fuel 200 Hbound
                ltac:(lia) Hfuel) as Hend.
  pose proof (iter_all_tables_more_fuel config env fuel fuel' 200 Hmore Hend)
    as Hsame.
  assert (∀ t, tick_result (loop_result (_iter_all_tables config env fuel 200) t)
               = Ret ()) as Hret.
  { intros t. unfold loop_result.
    by destruct (gen_end (_iter_all_tables config env fuel 200)) as [[]|e|]. }
  split; [|split; [|split]].
  - destruct (decide (owl_db_dir config +:+ "/periodic_reindex.lock" ∈ held w))
      as [Hr|Hr].
    + by rewrite periodic_reindex_held.
    + rewrite periodic_reindex_free by done. apply Hret.
  - destruct (decide (owl_db_dir config +:+ "/periodic_optimization.lock"
                      ∈ held w)) as [Ho|Ho].
    + by rewrite periodic_optimize_held.
    + rewrite periodic_optimize_free by done. apply Hret.
  - unfold periodic_reindex. by rewrite Hsame.
  - unfold periodic_optimize. by rewrite Hsame.
Qed.

(** ** The row handlers that change stored rows *)

Lemma update_row_run request table_type body (w : World) :
  let table :=
    _get_gen_table config (org_id request) (project_id request) table_type in
  let where_ := "`ID` = '" +:+ update_row_id body +:+ "'" in
  let updated :=
    EvUpdateRows table (update_table_id body) where_ (update_data body) in
  let msg := LogUpdateRowsFailed body in
  ¬ (table_type = knowledge ∧ touches_fixed_embedding (update_data body)) →
  update_row config env request table_type body w
  = match update_rows env table (update_table_id body) where_ (update_data body) with
    | Err e => (Raise e, extend w (updated :: exception_log e msg))
    | Ok _ =>
        match reindex_now config env (update_reindex body) table
                (update_table_id body) with
        | Err e => (Raise e, extend w (updated :: exception_log e msg))
        | Ok now =>
            (Ret OkResponse_ok,
             if now
             then schedule (extend w [updated])
                    (TaskCreateIndexes table (update_table_id body))
             else extend w [updated])
        end
    end.
Proof.
  intros table where_ updated msg Hfree.
  assert ((if bool_decide (table_type = knowledge) then
             if bool_decide ("text embed" ∈@{gset string}
                               set_map lower (dom (update_data body)))
                || bool_decide ("title embed" ∈@{gset string}
                                  set_map lower (dom (update_data body)))
             then raise fixed_column_error else mret ()
           else mret ())
          = (mret () : M (Vector:=Vector) unit))
    as Hcheck.
  { case_bool_decide as Hk; [|done].
    destruct (_ || _) eqn:Htouch; [|done].
    exfalso. apply Hfree. split; [done|]. by apply fixed_check_spec. }
  unfold update_row. rewrite Hcheck. fold table where_ updated msg.
  unfold exception_log, schedule, extend. unfold_m.
  destruct (update_rows env table _ _ _) as [[]|e];
    [destruct (reindex_now _ _ _ _ _) as [[]|e]|];
    simpl; try destruct (is_OwlException e); simpl;
    by rewrite <- ?(assoc_L (++)).
Qed.

Lemma delete_rows_run request table_type body (w : World) :
  let table :=
    _get_gen_table config (org_id request) (project_id request) table_type in
  let deleted :=
    EvDeleteRows table (delete_table_id body) (delete_where body) in
  let msg := LogDeleteRowsFailed body in
  delete_rows_handler config env request table_type body w
  = match delete_rows env table (delete_table_id body) (delete_where body) with
    | Err e => (Raise e, extend w (deleted :: exception_log e msg))
    | Ok _ =>
        match reindex_now config env (delete_reindex body) table
                (delete_table_id body) with
        | Err e => (Raise e, extend w (deleted :: exception_log e msg))
        | Ok now =>
            (Ret OkResponse_ok,
             if now
             then schedule (extend w [deleted])
                    (TaskCreateIndexes table (delete_table_id body))
             else extend w [deleted])
        end
    end.
Proof.
  intros table deleted msg.
  unfold delete_rows_handler. fold table deleted msg.
  unfold exception_log, schedule, extend. unfold_m.
  destruct (delete_rows env table _ _) as [[]|e];
    [destruct (reindex_now _ _ _ _ _) as [[]|e]|];
    simpl; try destruct (is_OwlException e); simpl;
    by rewrite <- ?(assoc_L (++)).
Qed.

Lemma delete_row_run request table_type table_id row_id reindex (w : World) :
  let table :=
    _get_gen_table config (org_id request) (project_id request) table_type in
  let deleted := EvDeleteRow table table_id row_id in
  let msg := LogDeleteRowFailed row_id table_id in
  delete_row_handler config env request table_type table_id row_id reindex w
  = match delete_row env table table_id row_id with
    | Err e => (Raise e, extend w (deleted :: exception_log e msg))
    | Ok _ =>
        (Ret OkResponse_ok,
         if reindex : bool
         then schedule (extend w [deleted]) (TaskCreateIndexes table table_id)
         else extend w [deleted])
    end.
Proof.
  intros table deleted msg.
  unfold delete_row_handler. fold table deleted msg.
  unfold exception_log, schedule, extend. unfold_m.
  destruct (delete_row env table _ _) as [[]|e];
    [destruct reindex|];
    simpl; try destruct (is_OwlException e); simpl;
    by rewrite <- ?(assoc_L (++)).
Qed.

(** What the reindex decision does to a world in which the rows have
    already been changed. *)
Lemma policy_after_mutation (reindex : option bool) table table_id
    (w : World) (ev : Event) (now : bool) :
  (∀ t i, ev ≠ EvCreateIndexes t i) →
  reindex_now config env reindex table table_id = Ok now →
  follows_reindex_policy config env reindex table table_id w
    (if now then schedule (extend w [ev]) (TaskCreateIndexes table table_id)
     else extend w [ev]).
Proof.
  intros Hev. rewrite reindex_now_spec.
  assert (∀ t i, EvCreateIndexes t i ∉ [ev]) as Hnot.
  { intros t i Hin. apply list_elem_of_singleton in Hin. by eapply Hev. }
  unfold follows_reindex_policy, reindex_due, reindex_not_due.
  destruct reindex as [[]|].
  - intros [= <-]. simpl. split; [done|]. split; [intros [?|[? _]]; done|].
    by eexists.
  - intros [= <-]. simpl. split; [intros [?|[? _]]; done|]. split; [done|].
    by eexists.
  - destruct (count_rows env table table_id) as [n|e]; [|done].
    intros [= <-]. case_bool_decide; simpl.
    + split; [done|]. split; [intros [?|[_ (? & [= <-] & ?)]]; (done || lia)|].
      by eexists.
    + split; [intros [?|[_ (? & [= <-] & ?)]]; (done || lia)|]. split; [done|].
      by eexists.
Qed.

Lemma reindex_now_raises (reindex : option bool) table table_id e :
  reindex_now config env reindex table table_id = Err e ↔
  reindex = None ∧ count_rows env table table_id = Err e.
Proof.
  rewrite reindex_now_spec. destruct reindex as [b|].
  - split; [done|]. by intros [? _].
  - destruct (count_rows env table table_id) as [n|e'].
    + split; [done|]. by intros [_ ?].
    + split; [by intros [= ->]|]. by intros [_ [= ->]].
Qed.

(** X6. [update_row], [delete_rows] and [delete_row] change the rows
    first and decide about reindexing afterwards.  When the storage call
    raises, the handler raises the same exception, nothing has been
    scheduled, and the failure is logged unless it is a domain error. *)
Theorem failed_mutation_schedules_nothing (request : Request)
    (table_type : TableType) (w : World) (e : exn) :
  let table :=
    _get_gen_table config (org_id request) (project_id request) table_type in
  (∀ body : RowUpdateRequest,
     let where_ := "`ID` = '" +:+ update_row_id body +:+ "'" in
     ¬ (table_type = knowledge ∧ touches_fixed_embedding (update_data body)) →
     update_rows env table (update_table_id body) where_ (update_data body)
     = Err e →
     update_row config env request table_type body w
     = (Raise e,
        extend w
          (EvUpdateRows table (update_table_id body) where_ (update_data body)
           :: exception_log e (LogUpdateRowsFailed body))))
  ∧ (∀ body : RowDeleteRequest,
       delete_rows env table (delete_table_id body) (delete_where body) = Err e →
       delete_rows_handler config env request table_type body w
       = (Raise e,
          extend w
            (EvDeleteRows table (delete_table_id body) (delete_where body)
             :: exception_log e (LogDeleteRowsFailed body))))
  ∧ (∀ table_id row_id reindex,
       delete_row env table table_id row_id = Err e →
       delete_row_handler config env request table_type table_id row_id reindex w
       = (Raise e,
          extend w
            (EvDeleteRow table table_id row_id
             :: exception_log e (LogDeleteRowFailed row_id table_id)))).
Proof.
  intros table. split; [|split].
  - intros body where_ Hfree Hfail.
    rewrite update_row_run by done. fold table where_. by rewrite Hfail.
  - intros body Hfail. rewrite delete_rows_run. fold table. by rewrite Hfail.
  - intros table_id row_id reindex Hfail.
    rewrite delete_row_run. fold table. by rewrite Hfail.
Qed.

(** X7. Once the storage call has returned, [update_row] and
    [delete_rows] follow the reindex policy of the generation handlers and
    return the OK response; the one way to fail is an auto intent whose row
    count raises: the handler then raises that exception although the rows
    have been changed.  [delete_row] never counts rows: it schedules a
    reindex exactly when its flag is set. *)
Theorem mutations_then_reindex_policy (request : Request)
    (table_type : TableType) (w : World) :
  let table :=
    _get_gen_table config (org_id request) (project_id request) table_type in
  (∀ body : RowUpdateRequest,
     let where_ := "`ID` = '" +:+ update_row_id body +:+ "'" in
     let updated :=
       EvUpdateRows table (update_table_id body) where_ (update_data body) in
     let run := update_row config env request table_type body w in
     ¬ (table_type = knowledge ∧ touches_fixed_embedding (update_data body)) →
     update_rows env table (update_table_id body) where_ (update_data body)
     = Ok () →
     (run.1 = Ret OkResponse_ok
      ∧ follows_reindex_policy config env (update_reindex body) table
          (update_table_id body) w run.2)
     ∨ (∃ e, update_reindex body = None
             ∧ count_rows env table (update_table_id body) = Err e
             ∧ run = (Raise e,
                      extend w (updated
                                :: exception_log e (LogUpdateRowsFailed body)))))
  ∧ (∀ body : RowDeleteRequest,
       let deleted :=
         EvDeleteRows table (delete_table_id body) (delete_where body) in
       let run := delete_rows_handler config env request table_type body w in
       delete_rows env table (delete_table_id body) (delete_where body) = Ok () →
       (run.1 = Ret OkResponse_ok
        ∧ follows_reindex_policy config env (delete_reindex body) table
            (delete_table_id body) w run.2)
       ∨ (∃ e, delete_reindex body = None
               ∧ count_rows env table (delete_table_id body) = Err e
               ∧ run = (Raise e,
                        extend w (deleted
                                  :: exception_log e (LogDeleteRowsFailed body)))))
  ∧ (∀ table_id row_id (reindex : bool),
       delete_row env table table_id row_id = Ok () →
       delete_row_handler config env request table_type table_id row_id reindex w
       = (Ret OkResponse_ok,
          {| trace := trace w ++ [EvDeleteRow table table_id row_id];
             bg_tasks := bg_tasks w
               ++ (if reindex then [TaskCreateIndexes table table_id] else []);
             held := held w |})).
Proof.
  intros table. split; [|split].
  - intros body where_ updated run Hfree Hok. unfold run.
    rewrite update_row_run by done. fold table where_ updated. rewrite Hok.
    destruct (reindex_now config env (update_reindex body) table
                (update_table_id body)) as [now|e] eqn:Hnow.
    + left. split; [done|]. simpl. by apply policy_after_mutation.
    + right. apply reindex_now_raises in Hnow as [Hnone Hcount]. by exists e.
  - intros body deleted run Hok. unfold run.
    rewrite delete_rows_run. fold table deleted. rewrite Hok.
    destruct (reindex_now config env (delete_reindex body) table
                (delete_table_id body)) as [now|e] eqn:Hnow.
    + left. split; [done|]. simpl. by apply policy_after_mutation.
    + right. apply reindex_now_raises in Hnow as [Hnone Hcount]. by exists e.
  - intros table_id row_id reindex Hok.
    rewrite delete_row_run. fold table. rewrite Hok.
    destruct reindex; unfold schedule, extend; simpl; [done|].
    by rewrite app_nil_r.
Qed.

(** ** What the generation handlers return *)

Lemma regen_rows_run request table_type body keys (w : World) :
  let table :=
    _get_gen_table config (org_id request) (project_id request) table_type in
  regen_rows config env request table_type body keys w
  = match reindex_now config env (regen_reindex body) table (regen_table_id body) with
    | Err e => (Raise e, extend w (exception_log e (LogRegenRowFailed body)))
    | Ok now =>
        let w1 :=
          if now then schedule w (TaskCreateIndexes table (regen_table_id body))
          else w in
        match gen_rows env table request (RegenBody body)
                (owl_concurrent_rows_batch_size config)
                (owl_concurrent_cols_batch_size config) keys with
        | Ok out =>
            (Ret (respond (regen_stream body) out),
             extend w1 [EvGenRows table (RegenBody body)])
        | Err e =>
            (Raise e,
             extend w1 (EvGenRows table (RegenBody body)
                        :: exception_log e (LogRegenRowFailed body)))
        end
    end.
Proof.
  intros table. unfold regen_rows, run_executor. fold table.
  unfold exception_log, schedule, extend. unfold_m.
  destruct (reindex_now _ _ _ _ _) as [now|e].
  - destruct now, (gen_rows _ _ _ _ _ _ _) as [out|e]; simpl;
      try destruct (is_OwlException e); simpl;
      by rewrite <- ?(assoc_L (++)).
  - destruct (is_OwlException e); simpl; [|done].
    destruct w; simpl. by rewrite app_nil_r.
Qed.

(** X8. [add_rows] and [regen_rows] decide about reindexing before they
    generate.  With an auto intent, a row count that raises ends the request
    before any row is generated.  When the executor raises, the handler
    raises the same exception and the reindex task that the policy asked
    for stays scheduled.  When the executor returns, the handler returns its
    output, wrapped in a server-sent-event stream with status 200 exactly
    when the body asks for streaming. *)
Theorem generation_handlers_outcomes (request : Request)
    (table_type : TableType) (keys : ApiKeys) (w : World) :
  let table :=
    _get_gen_table config (org_id request) (project_id request) table_type in
  let executor body :=
    gen_rows env table request body (owl_concurrent_rows_batch_size config)
      (owl_concurrent_cols_batch_size config) keys in
  (∀ body : RowAddRequest,
     let run := add_rows config env request table_type body keys w in
     let scheduled now :=
       if now : bool then [TaskCreateIndexes table (add_table_id body)] else [] in
     (∀ e, add_reindex body = None →
           count_rows env table (add_table_id body) = Err e →
           run = (Raise e, extend w (exception_log e (LogAddRowFailed body))))
     ∧ (∀ now e,
          reindex_now config env (add_reindex body) table (add_table_id body)
          = Ok now →
          executor (AddBody body) = Err e →
          run.1 = Raise e
          ∧ bg_tasks run.2 = bg_tasks w ++ scheduled now
          ∧ trace run.2
            = trace w ++ EvGenRows table (AddBody body)
                         :: exception_log e (LogAddRowFailed body))
     ∧ (∀ now out,
          reindex_now config env (add_reindex body) table (add_table_id body)
          = Ok now →
          executor (AddBody body) = Ok out →
          run.1 = Ret (if add_stream body
                       then StreamingResponse out 200 "text/event-stream"
                              [("X-Accel-Buffering", "no")]
                       else Materialized out)
          ∧ bg_tasks run.2 = bg_tasks w ++ scheduled now
          ∧ trace run.2 = trace w ++ [EvGenRows table (AddBody body)]))
  ∧ (∀ body : RowRegenRequest,
       let run := regen_rows config env request table_type body keys w in
       let scheduled now :=
         if now : bool then [TaskCreateIndexes table (regen_table_id body)]
         else [] in
       (∀ e, regen_reindex body = None →
             count_rows env table (regen_table_id body) = Err e →
             run = (Raise e, extend w (exception_log e (LogRegenRowFailed body))))
       ∧ (∀ now e,
            reindex_now config env (regen_reindex body) table
              (regen_table_id body) = Ok now →
            executor (RegenBody body) = Err e →
            run.1 = Raise e
            ∧ bg_tasks run.2 = bg_tasks w ++ scheduled now
            ∧ trace run.2
              = trace w ++ EvGenRows table (RegenBody body)
                           :: exception_log e (LogRegenRowFailed body))
       ∧ (∀ now out,
            reindex_now config env (regen_reindex body) table
              (regen_table_id body) = Ok now →
            executor (RegenBody body) = Ok out →
            run.1 = Ret (if regen_stream body
                         then StreamingResponse out 200 "text/event-stream"
                                [("X-Accel-Buffering", "no")]
                         else Materialized out)
            ∧ bg_tasks run.2 = bg_tasks w ++ scheduled now
            ∧ trace run.2 = trace w ++ [EvGenRows table (RegenBody body)])).
Proof.
  intros table executor. split.
  - intros body run scheduled. unfold run, executor.
    rewrite add_rows_run. fold table. cbv zeta.
    split; [|split].
    + intros e Hnone Hcount.
      by rewrite (proj2 (reindex_now_raises _ _ _ e) (conj Hnone Hcount)).
    + intros now e -> ->. destruct now; simpl; by rewrite ?app_nil_r.
    + intros now out -> ->. destruct now; simpl; by rewrite ?app_nil_r.
  - intros body run scheduled. unfold run, executor.
    rewrite regen_rows_run. fold table. cbv zeta.
    split; [|split].
    + intros e Hnone Hcount.
      by rewrite (proj2 (reindex_now_raises _ _ _ e) (conj Hnone Hcount)).
    + intros now e -> ->. destruct now; simpl; by rewrite ?app_nil_r.
    + intros now out -> ->. destruct now; simpl; by rewrite ?app_nil_r.
Qed.

(** ** File ingestion, beyond the claims *)

(** [_add_file] up to its comment "--- Add into Knowledge Table ---". *)
Lemma add_file_after_prelude request request_id table_id file_info cs co keys
    chunks model models (w : World) :
  ingest_chunks env file_info cs co = Ok chunks →
  model_names env (DEFAULT_CHAT_MODEL env) ["chat"] keys = Ok (model :: models) →
  let answer := predict_title env request model (excerpt_of chunks) keys in
  _add_file config env request request_id table_id file_info cs co keys w
  = add_into_knowledge_table config env request table_id file_info chunks
      (title_of answer) keys
      (extend w (prelude_log request_id (fi_File_Name file_info) model
                   (excerpt_of chunks) answer)).
Proof.
  intros Hchunks Hmodel answer. rewrite add_file_run. cbv zeta.
  unfold ingest_chunks in Hchunks. unfold_r.
  destruct (load_file env _ _) as [raw|e]; [|done].
  rewrite Hchunks, Hmodel. done.
Qed.

(** The column loop over a list in two parts. *)
Lemma embed_columns_app pre post title chunks keys te0 tes0 :
  embed_columns env (pre ++ post) title chunks keys te0 tes0
  = match embed_columns env pre title chunks keys te0 tes0 with
    | Ok (te, tes) => embed_columns env post title chunks keys te tes
    | Err e => Err e
    end.
Proof.
  revert te0 tes0. induction pre as [|col pre IH]; intros te0 tes0; [done|].
  rewrite <- app_comm_cons, !embed_columns_cons. cbv zeta.
  repeat case_bool_decide; try apply IH;
    destruct (EmbedGenConfig_model_validate env _) as [m|e]; try done;
    destruct (get_api_key env m keys) as [k|e]; try done;
    try apply IH;
    destruct (_embed env _ _ _) as [a|e]; try done; try apply IH.
  by destruct (np_rows env a).
Qed.

(** X9. Every column with a non-zero vector length has its generation
    config validated and its API key looked up, whatever its name.  When
    either step raises for a column, also for one that is neither
    'Title Embed' nor 'Text Embed', the ingestion raises that exception:
    no row is generated, nothing is reindexed, and the only effects are the
    log lines made before the table was opened. *)
Theorem embedding_config_errors_are_fatal (request : Request)
    (request_id table_id : string) (file_info : FileInfo)
    (chunk_size chunk_overlap : Z) (keys : ApiKeys) (w : World)
    (chunks : list Chunk) (model : string) (models : list string)
    (meta : TableMeta) (pre post : list ColumnSchema) (col : ColumnSchema)
    (scanned : option Vector * list Vector) (e : exn) :
  let table :=
    _get_gen_table config (org_id request) (project_id request) knowledge in
  let answer := predict_title env request model (excerpt_of chunks) keys in
  ingest_chunks env file_info chunk_size chunk_overlap = Ok chunks →
  model_names env (DEFAULT_CHAT_MODEL env) ["chat"] keys = Ok (model :: models) →
  open_meta env table table_id = Ok meta →
  meta_cols meta = pre ++ col :: post →
  embed_columns env pre (title_of answer) chunks keys None [] = Ok scanned →
  col_vlen col ≠ 0 →
  (EmbedGenConfig_model_validate env (col_gen_config col) = Err e
   ∨ ∃ embedding_model,
       EmbedGenConfig_model_validate env (col_gen_config col) = Ok embedding_model
       ∧ get_api_key env embedding_model keys = Err e) →
  _add_file config env request request_id table_id file_info chunk_size
    chunk_overlap keys w
  = (Raise e,
     extend w (prelude_log request_id (fi_File_Name file_info) model
                 (excerpt_of chunks) answer)).
Proof.
  intros table answer Hchunks Hmodel Hmeta Hcols Hpre Hvlen Hfail.
  rewrite (add_file_after_prelude _ _ _ _ _ _ _ _ _ _ _ Hchunks Hmodel).
  fold answer. rewrite add_into_knowledge_table_run. fold table.
  rewrite Hmeta, Hcols, embed_columns_app, Hpre. destruct scanned as [te tes].
  rewrite embed_columns_cons.
  rewrite (bool_decide_eq_false_2 (col_vlen col = 0)) by done.
  destruct Hfail as [->|(m & -> & ->)]; done.
Qed.

(** X10. The rows of a successful ingestion are built by pairing the
    chunks with the rows of the text embedding, in order, and pairing stops
    at the shorter of the two: with an embedder that answers fewer rows than
    it was given texts, the chunks beyond the last embedding are dropped
    and the upload still succeeds. *)
Theorem ingestion_pairs_chunks_with_embeddings (request : Request)
    (request_id table_id : string) (file_info : FileInfo)
    (chunk_size chunk_overlap : Z) (keys : ApiKeys) (w w' : World)
    (resp : OkResponse) :
  let table :=
    _get_gen_table config (org_id request) (project_id request) knowledge in
  _add_file config env request request_id table_id file_info chunk_size
    chunk_overlap keys w = (Ret resp, w') →
  ∃ chunks title title_embed text_embeds rows,
    ingest_chunks env file_info chunk_size chunk_overlap = Ok chunks
    ∧ embedding_of env (chunk_text <$> chunks) text_embeds
    ∧ rows = ingest_row title (fi_ID file_info) title_embed
               <$> zip chunks text_embeds
    ∧ length rows = (length chunks `min` length text_embeds)%nat
    ∧ EvGenRows table (AddBody (ingest_request env table_id rows)) ∈ trace w'
    ∧ (∀ body, EvGenRows table body ∈ trace w' →
         EvGenRows table body ∈ trace w
         ∨ body = AddBody (ingest_request env table_id rows)).
Proof.
  intros table Hrun. rewrite add_file_run in Hrun. cbv zeta in Hrun.
  unfold ingest_chunks. unfold_r.
  destruct (load_file env _ _) as [raw|e]; [|discriminate Hrun].
  destruct (split_chunks env raw _ _) as [chunks|e]; [|discriminate Hrun].
  destruct (model_names env _ _ _) as [[|model models]|e];
    try discriminate Hrun.
  apply add_into_knowledge_table_ok in Hrun
    as (meta & te & tes & Hmeta & Hscan & Hne & Htrace).
  apply embed_columns_provenance in Hscan as [_ [->|Htext]]; [done|].
  eexists chunks, _, te, tes, _.
  split; [done|]. split; [done|]. split; [done|].
  split; [by rewrite length_fmap, length_zip_with|].
  fold table in Htrace. rewrite Htrace. split.
  - apply elem_of_app. right. apply elem_of_cons. by left.
  - intros body Hin. apply elem_of_app in Hin as [Hin|Hin].
    + simpl in Hin. apply elem_of_app in Hin as [Hin|Hin]; [by left|].
      exfalso.
      pose proof (prelude_log_is_log (Vector:=Vector)
                    request_id (fi_File_Name file_info) model
                    (excerpt_of chunks)
                    (predict_title env request model (excerpt_of chunks) keys))
        as Hlogs.
      rewrite Forall_forall in Hlogs. by apply Hlogs in Hin.
    + apply elem_of_cons in Hin as [Hin|Hin]; [right; by injection Hin|].
      apply list_elem_of_singleton in Hin. discriminate Hin.
Qed.

(** X11. After the rows have been generated, [_add_file] calls
    [create_indexes] on the table directly, whether or not the policy of
    [add_rows] scheduled a reindex of it and whatever the number of rows.
    The answer of that call is not looked at; when the call raises, the
    upload raises although the rows have been submitted. *)
Theorem upload_reindexes_directly (request : Request)
    (request_id table_id : string) (file_info : FileInfo)
    (chunk_size chunk_overlap : Z) (keys : ApiKeys) (w : World)
    (chunks : list Chunk) (model : string) (models : list string)
    (meta : TableMeta) (title_embed : Vector) (text_embeds : list Vector)
    (now : bool) (out : GenOutput) :
  let table :=
    _get_gen_table config (org_id request) (project_id request) knowledge in
  let answer := predict_title env request model (excerpt_of chunks) keys in
  let rows :=
    ingest_row (title_of answer) (fi_ID file_info) title_embed
      <$> zip chunks text_embeds in
  let body := ingest_request env table_id rows in
  ingest_chunks env file_info chunk_size chunk_overlap = Ok chunks →
  model_names env (DEFAULT_CHAT_MODEL env) ["chat"] keys = Ok (model :: models) →
  open_meta env table table_id = Ok meta →
  embed_columns env (meta_cols meta) (title_of answer) chunks keys None []
  = Ok (Some title_embed, text_embeds) →
  text_embeds ≠ [] →
  reindex_now config env (RowAddRequest_reindex_default env) table table_id
  = Ok now →
  gen_rows env table request (AddBody body)
    (owl_concurrent_rows_batch_size config)
    (owl_concurrent_cols_batch_size config) keys = Ok out →
  _add_file config env request request_id table_id file_info chunk_size
    chunk_overlap keys w
  = (match create_indexes env (GenT table) table_id with
     | Ok _ => Ret OkResponse_ok
     | Err e => Raise e
     end,
     {| trace := trace w
          ++ prelude_log request_id (fi_File_Name file_info) model
               (excerpt_of chunks) answer
          ++ [EvGenRows table (AddBody body);
              EvCreateIndexes (GenT table) table_id];
        bg_tasks := bg_tasks w
          ++ (if now then [TaskCreateIndexes table table_id] else []);
        held := held w |}).
Proof.
  intros table answer rows body Hchunks Hmodel Hmeta Hscan Hne Hnow Hgen.
  rewrite (add_file_after_prelude _ _ _ _ _ _ _ _ _ _ _ Hchunks Hmodel).
  fold answer. rewrite add_into_knowledge_table_run. fold table.
  rewrite Hmeta, Hscan.
  rewrite bool_decide_eq_false_2 by (by destruct text_embeds).
  cbv zeta. fold rows body. rewrite add_rows_run. fold table. cbv zeta.
  unfold body at 1 2. unfold ingest_request at 1 2. simpl.
  rewrite Hnow. fold body. rewrite Hgen.
  f_equal. destruct now; unfold extend, schedule; simpl;
    rewrite <- ?(assoc_L (++)), ?app_nil_r; done.
Qed.

(** X12. [upload_file] registers the file and asks for a title before it
    looks the knowledge table up.  An upload into a table that cannot be
    opened raises the exception of [open_meta] after the file has been
    added to the file table; the failure is logged unless it is a domain
    error, and no row is generated. *)
Theorem upload_registers_file_before_opening_table (request : Request)
    (file : bytes) (file_name table_id : string)
    (chunk_size chunk_overlap : Z) (keys : ApiKeys) (w : World)
    (file_info : FileInfo) (chunks : list Chunk) (model : string)
    (models : list string) (e : exn) :
  let table :=
    _get_gen_table config (org_id request) (project_id request) knowledge in
  let file_table :=
    _get_file_table config (org_id request) (project_id request) in
  let answer := predict_title env request model (excerpt_of chunks) keys in
  add_file env file_table file_name file (checksum env (2 ^ 10) file)
  = Ok file_info →
  ingest_chunks env file_info chunk_size chunk_overlap = Ok chunks →
  model_names env (DEFAULT_CHAT_MODEL env) ["chat"] keys = Ok (model :: models) →
  open_meta env table table_id = Err e →
  upload_file config env request file file_name table_id chunk_size
    chunk_overlap keys w
  = (Raise e,
     extend w
       ([EvLog info (LogUploading (request_id request) file_name table_id
                       chunk_size chunk_overlap);
         EvFileAdd file_table file_name file (checksum env (2 ^ 10) file)]
        ++ prelude_log (request_id request) (fi_File_Name file_info) model
             (excerpt_of chunks) answer
        ++ exception_log e
             (LogUploadFailed (org_id request) (project_id request) file_name))).
Proof.
  intros table file_table answer Hadd Hchunks Hmodel Hopen.
  rewrite upload_file_run. fold file_table. cbv zeta. rewrite Hadd.
  rewrite (add_file_after_prelude _ _ _ _ _ _ _ _ _ _ _ Hchunks Hmodel).
  fold answer. rewrite add_into_knowledge_table_run. fold table.
  rewrite Hopen. rewrite !extend_extend.
  repeat (rewrite <- ?(assoc_L (++)); simpl). done.
Qed.

(** ** The generated title *)

Lemma append_cons (c : ascii) (s t : string) :
  String c s +:+ t = String c (s +:+ t).
Proof. reflexivity. Qed.

Lemma append_empty_r (s : string) : s +:+ "" = s.
Proof.
  induction s as [|c s IH]; [done|]. by rewrite append_cons, IH.
Qed.

Lemma concat_cons (x : string) (l : list string) :
  String.concat "" (x :: l) = x +:+ String.concat "" l.
Proof. destruct l; simpl; [by rewrite append_empty_r|done]. Qed.

Lemma concat_snoc (l : list string) (x : string) :
  String.concat "" (l ++ [x]) = String.concat "" l +:+ x.
Proof.
  induction l as [|y l IH]; [done|].
  rewrite <- app_comm_cons, !concat_cons, IH.
  clear IH. induction y as [|c y IH]; [done|].
  by rewrite !append_cons, IH.
Qed.

(** The characters of a string, put together again, are the string. *)
Lemma concat_chars (s : string) : String.concat "" (chars s) = s.
Proof.
  induction s as [|c s IH]; [done|].
  destruct s as [|c' s']; [done|].
  change (chars (String c (String c' s')))
    with (if is_continuation c'
          then match chars (String c' s') with
               | ch :: rest => String c ch :: rest
               | [] => [String c ""]
               end
          else String c "" :: chars (String c' s')).
  destruct (is_continuation c').
  - destruct (chars (String c' s')) as [|ch rest]; [done|].
    rewrite concat_cons in *. by rewrite append_cons, IH.
  - by rewrite concat_cons, IH.
Qed.

(** A string that does not start in the middle of a character. *)
Definition starts_character (t : string) : Prop :=
  match t with
  | EmptyString => True
  | String c _ => is_continuation c = false
  end.

Lemma chars_nonempty (c : ascii) (s : string) :
  ∃ tail rest, chars (String c s) = String c tail :: rest.
Proof.
  destruct s as [|c' s']; [by exists "", []|].
  change (chars (String c (String c' s')))
    with (if is_continuation c'
          then match chars (String c' s') with
               | ch :: rest => String c ch :: rest
               | [] => [String c ""]
               end
          else String c "" :: chars (String c' s')).
  destruct (is_continuation c'); [|by eauto].
  destruct (chars (String c' s')); by eauto.
Qed.

Lemma chars_app (s t : string) :
  starts_character t → chars (s +:+ t) = chars s ++ chars t.
Proof.
  intros Ht. induction s as [|c s IH]; [done|].
  rewrite append_cons. destruct s as [|c' s'].
  - destruct t as [|c' t']; [done|].
    simpl in Ht. change ("" +:+ String c' t') with (String c' t').
    change (chars (String c (String c' t')))
      with (if is_continuation c'
            then match chars (String c' t') with
                 | ch :: rest => String c ch :: rest
                 | [] => [String c ""]
                 end
            else String c "" :: chars (String c' t')).
    by rewrite Ht.
  - rewrite append_cons in *.
    change (chars (String c (String c' (s' +:+ t))))
      with (if is_continuation c'
            then match chars (String c' (s' +:+ t)) with
                 | ch :: rest => String c ch :: rest
                 | [] => [String c ""]
                 end
            else String c "" :: chars (String c' (s' +:+ t))).
    change (chars (String c (String c' s')))
      with (if is_continuation c'
            then match chars (String c' s') with
                 | ch :: rest => String c ch :: rest
                 | [] => [String c ""]
                 end
            else String c "" :: chars (String c' s')).
    rewrite IH.
    destruct (is_continuation c'); [|done].
    by destruct (chars_nonempty c' s') as (tail & rest & ->).
Qed.

Lemma space_starts_character (c : ascii) :
  is_space c = true → is_continuation c = false.
Proof. destruct c as [[] [] [] [] [] [] [] []]; by vm_compute. Qed.

Lemma all_space_starts_character (ws : string) :
  all_space ws = true → starts_character ws.
Proof.
  destruct ws as [|c ws]; [done|]. simpl.
  intros [Hc _]%andb_true_iff. by apply space_starts_character.
Qed.

Lemma chars_spaces (ws : string) :
  all_space ws = true → Forall (λ ch, is_whitespace ch = true) (chars ws).
Proof.
  induction ws as [|c ws IH]; [constructor|].
  intros Hall. simpl in Hall. apply andb_true_iff in Hall as [Hc Hws].
  change (String c ws) with (String c "" +:+ ws).
  rewrite chars_app by by apply all_space_starts_character.
  constructor; [done|by apply IH].
Qed.

Lemma quoted_not_whitespace (tail : string) :
  is_whitespace (String dquote tail) = false.
Proof.
  destruct tail as [|c tail]; [done|].
  unfold is_whitespace. apply bool_decide_eq_false_2.
  unfold unicode_spaces, codes. simpl.
  intros Hin.
  repeat (apply elem_of_cons in Hin as [Hin|Hin]; [discriminate Hin|]).
  by apply elem_of_nil in Hin.
Qed.

Lemma drop_while_all {A} (p : A → bool) (l k : list A) :
  Forall (λ x, p x = true) l → drop_while p (l ++ k) = drop_while p k.
Proof. induction 1 as [|x l Hx _ IH]; simpl; [done|]. by rewrite Hx. Qed.

Lemma drop_while_stop {A} (p : A → bool) (x : A) (l : list A) :
  p x = false → drop_while p (x :: l) = x :: l.
Proof. intros Hx. simpl. by rewrite Hx. Qed.

Lemma rstrip_spaces (chs ws : list string) (ch : string) :
  is_whitespace ch = false → Forall (λ x, is_whitespace x = true) ws →
  rstrip (chs ++ ch :: ws) = chs ++ [ch].
Proof.
  intros Hch Hws. unfold rstrip.
  rewrite reverse_app, reverse_cons, <- (assoc_L (++)).
  rewrite drop_while_all by by apply Forall_reverse.
  simpl. rewrite Hch.
  change (ch :: reverse chs) with ([ch] ++ reverse chs).
  by rewrite reverse_app, reverse_involutive.
Qed.

Lemma last_char_snoc (s : string) (c : ascii) :
  last_char (s +:+ String c "") = Some c.
Proof.
  induction s as [|a s IH]; simpl; [done|].
  rewrite IH. by destruct s.
Qed.

Lemma drop_last_snoc (s : string) (c : ascii) :
  drop_last (s +:+ String c "") = s.
Proof.
  induction s as [|a s IH]; simpl; [done|].
  rewrite IH. by destruct s.
Qed.

(** X13. A generated title that comes wrapped in double quotes, with
    white space around them, is stored as what stands between the first and
    the last quote.  One pair of quotes is removed and the result is not
    stripped again: quotes and white space inside the pair are kept. *)
Theorem clean_title_removes_one_pair_of_quotes (before after inner : string) :
  all_space before = true → all_space after = true →
  clean_title (before +:+ String dquote (inner +:+ String dquote after))
  = inner.
Proof.
  intros Hbefore Hafter.
  assert (strip (before +:+ String dquote (inner +:+ String dquote after))
          = String dquote inner +:+ String dquote "") as Hstrip.
  { unfold strip.
    rewrite chars_app by done.
    change (String dquote (inner +:+ String dquote after))
      with (String dquote inner +:+ (String dquote "" +:+ after)).
    rewrite chars_app by done.
    rewrite chars_app by by apply all_space_starts_character.
    unfold lstrip. rewrite drop_while_all by by apply chars_spaces.
    destruct (chars_nonempty dquote inner) as (tail & rest & Hhead).
    rewrite Hhead, <- app_comm_cons.
    rewrite drop_while_stop by apply quoted_not_whitespace.
    rewrite app_comm_cons, <- Hhead.
    change (chars (String dquote "") ++ chars after)
      with (String dquote "" :: chars after).
    rewrite rstrip_spaces; [|done|by apply chars_spaces].
    by rewrite concat_snoc, concat_chars. }
  unfold clean_title. rewrite Hstrip.
  rewrite last_char_snoc, bool_decide_eq_true_2 by done.
  assert (startswith (String dquote "")
            (String dquote inner +:+ String dquote "") = true) as ->.
  { rewrite append_cons. unfold startswith. simpl.
    generalize (inner +:+ String dquote ""). by intros [|c rest]. }
  rewrite append_cons. simpl. apply drop_last_snoc.
Qed.

(** ** The blocks of the checksum loop *)

Lemma range_0_lookup (stop step : Z) (k : nat) (i : Z) :
  (0 < step)%Z →
  range_0 stop step !! k = Some i →
  i = (Z.of_nat k * step)%Z ∧ (i < stop)%Z.
Proof.
  intros Hstep. unfold range_0. rewrite list_lookup_fmap.
  destruct (seqZ 0 _ !! k) as [j|] eqn:Hj; [|done].
  intros [= <-]. apply lookup_seqZ in Hj as [-> Hlt].
  split; [lia|].
  rewrite Z.add_0_l.
  destruct (decide (Z.of_nat k * step < stop)%Z) as [|Hge]; [done|].
  exfalso.
  assert ((stop + step - 1) `div` step < Z.of_nat k + 1)%Z; [|lia].
  apply Z.div_lt_upper_bound; lia.
Qed.

Lemma checksum_blocks (block_size : Z) (content : bytes) :
  checksum env block_size content
  = hasher_hexdigest (blake2b env)
      (fold_left (hasher_update (blake2b env)) (blocks block_size content)
         (hasher_new (blake2b env))).
Proof. unfold checksum, blocks. by rewrite fold_left_fmap. Qed.

(** X14. The checksum loop feeds the hasher blocks of at most
    [block_size] bytes, none of them empty: block [k] has [block_size]
    bytes, or what is left of the content after [k] full blocks if that is
    less.  There are as many blocks as [block_size] goes into the length,
    rounded up; an empty file gives no block, and its checksum is the digest
    of a hasher that was never updated. *)
Theorem checksum_reads_bounded_blocks (block_size : Z) (content : bytes) :
  (0 < block_size)%Z →
  let n := Z.of_nat (length content) in
  checksum env block_size content
  = hasher_hexdigest (blake2b env)
      (fold_left (hasher_update (blake2b env)) (blocks block_size content)
         (hasher_new (blake2b env)))
  ∧ Z.of_nat (length (blocks block_size content))
    = ((n + block_size - 1) `div` block_size)%Z
  ∧ (∀ (k : nat) (b : bytes),
       blocks block_size content !! k = Some b →
       Z.of_nat (length b) = (block_size `min` (n - Z.of_nat k * block_size))%Z
       ∧ (0 < length b)%nat)
  ∧ (content = [] →
     checksum env block_size content
     = hasher_hexdigest (blake2b env) (hasher_new (blake2b env))).
Proof.
  intros Hbs n. split; [apply checksum_blocks|]. split; [|split].
  - unfold blocks, range_0. rewrite !length_fmap, length_seqZ.
    rewrite Z2Nat.id; [done|]. apply Z.div_pos; lia.
  - intros k b Hb. unfold blocks in Hb. rewrite list_lookup_fmap in Hb.
    destruct (range_0 _ _ !! k) as [i|] eqn:Hi; [|done].
    injection Hb as <-.
    apply range_0_lookup in Hi as [-> Hlt]; [|done].
    unfold slice. rewrite length_take, length_drop. fold n in Hlt. lia.
  - intros ->. rewrite checksum_blocks. unfold blocks, range_0. simpl.
    rewrite seqZ_nil; [done|].
    rewrite Z.div_small; lia.
Qed.

(** ** Table addressing *)

Lemma append_inj_l (a b c : string) : a +:+ b = a +:+ c → b = c.
Proof. induction a as [|x a IH]; simpl; [done|]. intros [= H]. by apply IH. Qed.

Lemma append_assoc (a b c : string) : (a +:+ b) +:+ c = a +:+ (b +:+ c).
Proof.
  induction a as [|x a IH]; [done|].
  change (String x ((a +:+ b) +:+ c) = String x (a +:+ b +:+ c)).
  by rewrite IH.
Qed.

Lemma segment_split (a a' r r' : string) :
  no_slash a = true → no_slash a' = true →
  a +:+ String "/" r = a' +:+ String "/" r' → a = a' ∧ r = r'.
Proof.
  revert a'. induction a as [|x a IH]; intros [|x' a'] Ha Ha' H; simpl in *.
  - by injection H as ->.
  - injection H as <- _. by rewrite Ascii.eqb_refl in Ha'.
  - injection H as -> _. by rewrite Ascii.eqb_refl in Ha.
  - injection H as -> H.
    apply andb_true_iff in Ha as [_ Ha]. apply andb_true_iff in Ha' as [_ Ha'].
    destruct (IH a' Ha Ha' H) as [-> ->]. done.
Qed.

Lemma table_path_split (db o p o' p' leaf leaf' : string) :
  no_slash o = true → no_slash p = true →
  no_slash o' = true → no_slash p' = true →
  db +:+ "/" +:+ o +:+ "/" +:+ p +:+ "/" +:+ leaf
  = db +:+ "/" +:+ o' +:+ "/" +:+ p' +:+ "/" +:+ leaf' →
  o = o' ∧ p = p' ∧ leaf = leaf'.
Proof.
  intros Ho Hp Ho' Hp' H. apply append_inj_l in H. simpl in H.
  injection H as H.
  apply segment_split in H as [-> H]; [|done|done].
  apply segment_split in H as [-> H]; done.
Qed.

(** X15. Tables are addressed by paths built from the organisation id,
    the project id and the table type.  For ids that hold no slash, two
    requests get the same generative table only if organisation, project
    and table type all agree, the same file table only if organisation and
    project agree, and the file table of a project never shares its
    directory with a generative table.  The ids are not checked: an id that
    holds a slash reaches into the tables of another organisation. *)
Theorem table_addressing_separates_projects (org_id project_id org_id'
    project_id' : string) (table_type table_type' : TableType) :
  no_slash org_id = true → no_slash project_id = true →
  no_slash org_id' = true → no_slash project_id' = true →
  (_get_gen_table config org_id project_id table_type
   = _get_gen_table config org_id' project_id' table_type' →
   org_id = org_id' ∧ project_id = project_id' ∧ table_type = table_type')
  ∧ (_get_file_table config org_id project_id
     = _get_file_table config org_id' project_id' →
     org_id = org_id' ∧ project_id = project_id')
  ∧ ft_path (_get_file_table config org_id project_id)
    ≠ lance_path_of (_get_gen_table config org_id' project_id' table_type')
  ∧ (∀ a b c : string,
       _get_gen_table config (a +:+ "/" +:+ b) c table_type
       = _get_gen_table config a (b +:+ "/" +:+ c) table_type).
Proof.
  intros Ho Hp Ho' Hp'. split; [|split; [|split]].
  - intros H.
    assert (lance_path_of (_get_gen_table config org_id project_id table_type)
            = lance_path_of
                (_get_gen_table config org_id' project_id' table_type')) as Hpath
      by by rewrite H.
    assert (table_type = table_type') as <-.
    { destruct table_type, table_type'; done. }
    assert (∀ o p, lance_path_of (_get_gen_table config o p table_type)
                   = owl_db_dir config +:+ "/" +:+ o +:+ "/" +:+ p +:+ "/"
                     +:+ TableType_value table_type) as Hlance.
    { intros o p. by destruct table_type. }
    rewrite !Hlance in Hpath.
    apply table_path_split in Hpath as (-> & -> & _); done.
  - intros H. apply (f_equal ft_path) in H. simpl in H.
    apply table_path_split in H as (-> & -> & _); done.
  - intros H.
    assert (lance_path_of (_get_gen_table config org_id' project_id' table_type')
            = owl_db_dir config +:+ "/" +:+ org_id' +:+ "/" +:+ project_id'
              +:+ "/" +:+ TableType_value table_type') as Hlance
      by by destruct table_type'.
    rewrite Hlance in H. simpl in H.
    apply table_path_split in H as (_ & _ & H); [|done..].
    by destruct table_type'.
  - intros a b c.
    assert (∀ rest, (a +:+ "/" +:+ b) +:+ "/" +:+ c +:+ rest
                    = a +:+ "/" +:+ (b +:+ "/" +:+ c) +:+ rest) as Hassoc.
    { intros rest. by rewrite !append_assoc. }
    unfold _get_gen_table. rewrite Hassoc. done.
Qed.

(** ** The whole enumeration *)

Lemma gen_seq_normal (g k : Gen (GenConfig:=GenConfig)) :
  gen_end g = Ret () →
  gen_items (gen_seq g k) = gen_items g ++ gen_items k
  ∧ gen_end (gen_seq g k) = gen_end k.
Proof.
  induction g as [|it rest IH|e|]; simpl; try done.
  intros Hend. destruct (IH Hend) as [-> ->]. done.
Qed.

Lemma gen_for_normal {A} (xs : list A) (body : A → Gen (GenConfig:=GenConfig))
    (items_of : A → list Item) :
  (∀ x, x ∈ xs → gen_items (body x) = items_of x ∧ gen_end (body x) = Ret ()) →
  gen_items (gen_for xs body) = xs ≫= items_of
  ∧ gen_end (gen_for xs body) = Ret ().
Proof.
  induction xs as [|x xs IH]; intros Hbody; simpl; [done|].
  destruct (Hbody x) as [Hitems Hend]; [by apply elem_of_cons; left|].
  destruct (gen_seq_normal (body x) (gen_for xs body) Hend) as [-> ->].
  destruct IH as [-> ->].
  { intros y Hy. apply Hbody. by apply elem_of_cons; right. }
  by rewrite Hitems.
Qed.

Lemma bind_directories {B} (dirs : list DirEntry) (f : DirEntry → list B) :
  dirs ≫= (λ d, if negb (de_is_dir d) then [] else f d)
  = filter (λ d, de_is_dir d) dirs ≫= f.
Proof.
  induction dirs as [|d dirs IH]; [done|].
  rewrite filter_cons, bind_cons, IH.
  destruct (de_is_dir d); cbn [negb].
  - rewrite decide_True by done. by rewrite bind_cons.
  - by rewrite decide_False by (by intros []).
Qed.

(** X16. Over a storage directory whose listings succeed and whose
    table stores answer page requests from fixed lists, the enumeration
    yields every table of every project exactly once and then ends: entries
    that are not directories are passed over, and each project gives its
    action, knowledge and chat tables, in that order, followed by its file
    table. *)
Theorem enumeration_yields_every_table_once (fuel : nat)
    (org_dirs : list DirEntry) (projects_of : DirEntry → list DirEntry)
    (metas_of : GenerativeTable → list TableMeta) :
  iterdir env (owl_db_dir config) = Ok org_dirs →
  (∀ org_dir, org_dir ∈ org_dirs → de_is_dir org_dir = true →
     iterdir env (de_path org_dir) = Ok (projects_of org_dir)) →
  (∀ table, paged_store env table 200 (metas_of table)) →
  (∀ table,
     (S (pages_left (Z.of_nat (length (metas_of table))) 200 200) ≤ fuel)%nat) →
  let g := _iter_all_tables config env fuel 200 in
  gen_items g = all_items config org_dirs projects_of metas_of
  ∧ gen_end g = Ret ().
Proof.
  intros Horgs Hprojects Hstore Hfuel g. unfold g, _iter_all_tables, all_items.
  rewrite Horgs. rewrite <- bind_directories.
  apply gen_for_normal. intros org_dir Horg. unfold iter_org.
  destruct (de_is_dir org_dir) eqn:Hdir; cbn [negb]; [|done].
  rewrite Hprojects by done. rewrite <- bind_directories.
  apply gen_for_normal. intros project_dir _. unfold iter_project.
  destruct (de_is_dir project_dir); cbn [negb]; [|done].
  unfold project_items.
  destruct (gen_for_normal table_types
    (λ table_type,
       iter_pages env fuel 200
         (_get_gen_table config (de_name org_dir) (de_name project_dir) table_type)
         (de_path project_dir) table_type 0 1)
    (λ table_type,
       table_item
         (_get_gen_table config (de_name org_dir) (de_name project_dir) table_type)
         (de_path project_dir) table_type
       <$> metas_of (_get_gen_table config (de_name org_dir)
                       (de_name project_dir) table_type)))
    as [Hitems Hend].
  { intros table_type _.
    rewrite iter_pages_all
      with (metas:=metas_of (_get_gen_table config (de_name org_dir)
                               (de_name project_dir) table_type));
      [|done|apply Hstore|apply Hfuel].
    split; [apply gen_for_yields|apply gen_end_yields]. }
  match goal with
  | |- context [gen_seq ?a ?b] =>
      destruct (gen_seq_normal a b Hend) as [-> ->]
  end.
  by rewrite Hitems.
Qed.

(** ** The handlers' epilogue *)

Lemma appends_ret {A} P (a : A) : appends (Vector:=Vector) P (mret a : M A).
Proof. intros w. exists []. simpl. by rewrite app_nil_r. Qed.

Lemma appends_raise {A} P e : appends (Vector:=Vector) P (raise e : M A).
Proof. intros w. exists []. simpl. by rewrite app_nil_r. Qed.

Lemma appends_call {A} P (r : result A) : appends (Vector:=Vector) P (call r).
Proof. destruct r; [apply appends_ret|apply appends_raise]. Qed.

Lemma appends_add_task P t : appends (Vector:=Vector) P (add_task t).
Proof. intros w. exists []. simpl. by rewrite app_nil_r. Qed.

Lemma appends_emit (P : Event → Prop) ev :
  P ev → appends (Vector:=Vector) P (emit ev).
Proof. intros Hev w. exists [ev]. simpl. split; [done|]. by repeat constructor. Qed.

Lemma appends_bind {A B} P (m : M A) (f : A → M B) :
  appends (Vector:=Vector) P m → (∀ a, appends P (f a)) → appends P (m ≫= f).
Proof.
  intros Hm Hf w. rewrite run_bind.
  destruct (Hm w) as (evs & Htrace & Hevs).
  destruct (m w) as [[a|e|] w1]; simpl in *; try by eauto.
  destruct (Hf a w1) as (evs' & Htrace' & Hevs').
  exists (evs ++ evs'). rewrite Htrace', Htrace, (assoc_L (++)).
  split; [done|]. by apply Forall_app.
Qed.

Lemma appends_try_except {A} P (m : M A) (h : exn → M A) :
  appends (Vector:=Vector) P m → (∀ e, appends P (h e)) →
  appends P (try_except m h).
Proof.
  intros Hm Hh w. unfold try_except.
  destruct (Hm w) as (evs & Htrace & Hevs).
  destruct (m w) as [[a|e|] w1]; simpl in *; try by eauto.
  destruct (Hh e w1) as (evs' & Htrace' & Hevs').
  exists (evs ++ evs'). rewrite Htrace', Htrace, (assoc_L (++)).
  split; [done|]. by apply Forall_app.
Qed.

Lemma appends_call_ev {A} (P : Event → Prop) ev (r : result A) :
  P ev → appends (Vector:=Vector) P (call_ev ev r).
Proof.
  intros Hev. unfold call_ev.
  apply appends_bind; [by apply appends_emit|]. intros _. apply appends_call.
Qed.

Lemma appends_logger (P : Event → Prop) level msg :
  P (EvLog level msg) → appends (Vector:=Vector) P (logger level msg).
Proof. apply appends_emit. Qed.

Lemma appends_reraising {A} (P : Event → Prop) msg (m : M A) :
  P (EvLog exception msg) → appends (Vector:=Vector) P m →
  appends P (reraising msg m).
Proof.
  intros Hmsg Hm. unfold reraising. apply appends_try_except; [done|].
  intros e. destruct (is_OwlException e); [apply appends_raise|].
  apply appends_bind; [by apply appends_logger|].
  intros _. apply appends_raise.
Qed.

(** Steps through a handler body, one statement at a time. *)
Ltac appends_step :=
  match goal with
  | |- appends _ (mret _) => apply appends_ret
  | |- appends _ (raise _) => apply appends_raise
  | |- appends _ (call _) => apply appends_call
  | |- appends _ (add_task _) => apply appends_add_task
  | |- appends _ (call_ev _ _) => apply appends_call_ev; [done|]
  | |- appends _ (call_ev _ _) => apply appends_call_ev; done
  | |- appends _ (logger _ _) => apply appends_logger; done
  | |- _ => apply appends_reraising; [done|]
  | |- appends _ (try_except _ _) => apply appends_try_except; [|intros ?]
  | |- appends _ (_ ≫= _) => apply appends_bind; [|intros ?]
  | |- appends _ (match ?x with _ => _ end) => destruct x
  end.

Lemma reraising_logs_once {A} (msg : LogMsg (Vector:=Vector)) (m : M A)
    (w : World) :
  appends (λ ev, ev ≠ EvLog exception msg) m →
  logs_failure_once msg w (reraising msg m w).
Proof.
  intros Hm. destruct (Hm w) as (evs & Htrace & Hevs).
  unfold logs_failure_once, reraising, try_except.
  destruct (m w) as [[a|e|] w1]; simpl in *;
    try (exists evs; by rewrite app_nil_r).
  exists evs.
  destruct (is_OwlException e) eqn:Hdomain; unfold_m; simpl;
    unfold exception_log; rewrite Hdomain, Htrace, ?app_nil_r,
      <- ?(assoc_L (++)); done.
Qed.

(** X17. Every row handler, and the upload handler, ends with the same
    epilogue: an exception that is not a domain error is logged once, with
    the handler's own message, as the last thing the handler does before it
    raises; a domain error is raised without that line, and a run that
    returns has not logged it either.  Whatever else a handler does only
    appends to the trace. *)
Theorem handlers_log_unexpected_failures_once (request : Request) (w : World) :
  (∀ table_type body keys,
     logs_failure_once (LogAddRowFailed body) w
       (add_rows config env request table_type body keys w))
  ∧ (∀ table_type body keys,
       logs_failure_once (LogRegenRowFailed body) w
         (regen_rows config env request table_type body keys w))
  ∧ (∀ table_type body,
       logs_failure_once (LogUpdateRowsFailed body) w
         (update_row config env request table_type body w))
  ∧ (∀ table_type body,
       logs_failure_once (LogDeleteRowsFailed body) w
         (delete_rows_handler config env request table_type body w))
  ∧ (∀ table_type table_id row_id reindex,
       logs_failure_once (LogDeleteRowFailed row_id table_id) w
         (delete_row_handler config env request table_type table_id row_id
            reindex w))
  ∧ (∀ file file_name table_id chunk_size chunk_overlap keys,
       logs_failure_once
         (LogUploadFailed (org_id request) (project_id request) file_name) w
         (upload_file config env request file file_name table_id chunk_size
            chunk_overlap keys w)).
Proof.
  repeat split.
  - intros table_type body keys. unfold add_rows, run_executor.
    apply reraising_logs_once. cbv zeta. repeat appends_step.
  - intros table_type body keys. unfold regen_rows, run_executor.
    apply reraising_logs_once. cbv zeta. repeat appends_step.
  - intros table_type body. unfold update_row.
    apply reraising_logs_once. cbv zeta. repeat appends_step.
  - intros table_type body. unfold delete_rows_handler.
    apply reraising_logs_once. cbv zeta. repeat appends_step.
  - intros table_type table_id row_id reindex. unfold delete_row_handler.
    apply reraising_logs_once. cbv zeta. repeat appends_step.
  - intros file file_name table_id chunk_size chunk_overlap keys.
    set (msg := LogUploadFailed (Vector:=Vector) (org_id request)
                  (project_id request) file_name).
    set (started := EvLog (Vector:=Vector) info
                      (LogUploading (request_id request) file_name table_id
                         chunk_size chunk_overlap)).
    unfold upload_file. fold msg. rewrite run_bind.
    unfold logger at 1, emit at 1. fold started.
    match goal with
    | |- logs_failure_once _ _ (reraising _ ?m ?w1) =>
        destruct (reraising_logs_once msg m w1) as (evs & Htrace & Hevs)
    end.
    { unfold _add_file, extract_title, add_into_knowledge_table, add_rows,
        run_executor.
      cbv zeta. repeat (appends_step; cbv zeta). }
    exists (started :: evs). split.
    + rewrite Htrace. simpl. by rewrite <- (assoc_L (++)).
    + constructor; [done|exact Hevs].
Qed.

(** ** The reindex decision and the configuration *)

(** X18. The reindex decision reads one configuration field, the
    threshold [owl_immediate_reindex_max_rows], and is monotone in it:
    under a configuration with a threshold at least as high, every request
    that led to a reindex still does, and the decision raises for the same
    requests.  A request with an explicit intent is decided without the
    row count, so a failing count cannot make it raise. *)
Theorem reindex_decision_is_monotone (config' : Config)
    (reindex : option bool) (table : GenerativeTable) (table_id : string) :
  (owl_immediate_reindex_max_rows config
   ≤ owl_immediate_reindex_max_rows config')%Z →
  (reindex_now config env reindex table table_id = Ok true →
   reindex_now config' env reindex table table_id = Ok true)
  ∧ (∀ e, reindex_now config env reindex table table_id = Err e ↔
          reindex_now config' env reindex table table_id = Err e)
  ∧ (owl_immediate_reindex_max_rows config
     = owl_immediate_reindex_max_rows config' →
     reindex_now config env reindex table table_id
     = reindex_now config' env reindex table table_id)
  ∧ (∀ b, reindex = Some b →
          reindex_now config env reindex table table_id = Ok b).
Proof.
  intros Hle.
  pose proof (reindex_now_spec config env reindex table table_id) as Hnow.
  pose proof (reindex_now_spec config' env reindex table table_id) as Hnow'.
  rewrite Hnow, Hnow'. clear Hnow Hnow'.
  destruct reindex as [b|]; [by repeat split; try intros ? [= ->]|].
  destruct (count_rows env table table_id) as [n|e].
  - split; [|split; [|split]]; try done.
    + intros [= Hn]. f_equal. apply bool_decide_eq_true in Hn.
      apply bool_decide_eq_true. lia.
    + by intros ->.
  - by repeat split.
Qed.

End MoreProperties.

(** * The further properties on the two deployments *)

(** A tick of the reindex job on the deployment: three tables with a
    session, two reindexed, one skipped. *)
Lemma reindex_job_outcomes_witness :
  ∃ evs,
    trace (periodic_reindex Demo.config Demo.env 5 Demo.w0).2
    = evs ++ [EvLog info (LogReindexCompleted 2 1 0)].
Proof.
  destruct (reindex_job_outcomes Demo.config Demo.env Demo.w0) as (_ & Htick).
  destruct (Htick 5%nat) as (evs & _ & Htrace & _).
  - simpl. set_solver.
  - vm_compute. reflexivity.
  - exists evs. rewrite Htrace. reflexivity.
Defined.

(** Ticks on the deployment whose second organisation cannot be read
    return and give the locks back; a tick on the store that never stops
    growing does not return, and keeps the lock. *)
Lemma ticks_never_raise_and_release_witness :
  held (periodic_reindex Demo.config Demo2.env 5 Demo.w0).2 = held Demo.w0
  ∧ held (periodic_optimize Demo.config Demo2.env 5 Demo.w0).2 = held Demo.w0
  ∧ (periodic_reindex Demo.config Demo2.endless 50 Demo.w0).1 = Stall
  ∧ held (periodic_reindex Demo.config Demo2.endless 50 Demo.w0).2
    = {["db/periodic_reindex.lock"]} ∪ held Demo.w0.
Proof.
  destruct (ticks_never_raise_and_release Demo.config Demo2.env 5 Demo.w0)
    as (_ & _ & _ & _ & Hends & _).
  destruct (ticks_never_raise_and_release Demo.config Demo2.endless 50 Demo.w0)
    as (_ & _ & _ & _ & _ & Hstalls).
  destruct Hends as [Hreindex Hoptimize]; [vm_compute; discriminate|].
  destruct Hstalls as [Hkept _]; [vm_compute; reflexivity|].
  destruct Hkept as [Hstall Hheld]; [simpl; set_solver|].
  repeat split; assumption.
Defined.

(** The unreadable organisation ends the tick after the tables of the
    first one, with the error line in place of the counts. *)
Lemma enumeration_failure_ends_tick_witness :
  ∃ evs,
    periodic_optimize Demo.config Demo2.env 5 Demo.w0
    = (Ret (),
       extend Demo.w0
         (evs ++ [EvRelease "db/periodic_optimization.lock";
                  EvLog exception LogOptimizeError]))
    ∧ length evs = 9%nat.
Proof.
  destruct (enumeration_failure_ends_tick Demo.config Demo2.env 5 Demo.w0
              (OtherException "FileNotFoundError")) as [_ Hoptimize].
  - vm_compute. reflexivity.
  - eexists. split.
    + rewrite Hoptimize by (simpl; set_solver).
      rewrite (assoc_L (++)). reflexivity.
    + vm_compute. reflexivity.
Defined.

(** The three knowledge tables, fetched in pages of two. *)
Lemma pagination_yields_every_table_once_witness :
  meta_id <$> (gen_items (iter_pages Demo.env 2 2 Demo.knowledge_table
                            "db/acme/kb" knowledge 0 1) ≫= λ it,
               option_list (it_meta it))
  = ["docs"; "big"; "plain"].
Proof.
  destruct (pagination_yields_every_table_once Demo.env 2 2
              Demo.knowledge_table "db/acme/kb" knowledge Demo.metas)
    as [-> _].
  - lia.
  - intros offset _. reflexivity.
  - vm_compute. lia.
  - reflexivity.
Defined.

Lemma demo_totals_bounded : totals_bounded Demo.env 3.
Proof.
  intros table offset limit metas total. simpl.
  destruct (Demo.is_knowledge table); intros [= _ <-]; simpl; lia.
Qed.

(** One page per table type is enough on the deployment. *)
Lemma ticks_return_with_enough_fuel_witness :
  (periodic_reindex Demo.config Demo.env 1 Demo.w0).1 = Ret ()
  ∧ periodic_optimize Demo.config Demo.env 7 Demo.w0
    = periodic_optimize Demo.config Demo.env 1 Demo.w0.
Proof.
  destruct (ticks_return_with_enough_fuel Demo.config Demo.env 3 1 7 Demo.w0)
    as (Hreindex & _ & _ & Hoptimize).
  - apply demo_totals_bounded.
  - vm_compute. lia.
  - lia.
  - split; [exact Hreindex|exact Hoptimize].
Defined.

(** Deleting a row of the dropped table raises the domain error, unlogged,
    and schedules nothing. *)
Lemma failed_mutation_schedules_nothing_witness :
  delete_row_handler Demo.config Demo2.env Demo.request knowledge "gone"
    "row-1" true Demo.w0
  = (Raise (OwlException "Table not found"),
     extend Demo.w0 [EvDeleteRow Demo.knowledge_table "gone" "row-1"]).
Proof.
  destruct (failed_mutation_schedules_nothing Demo.config Demo2.env
              Demo.request knowledge Demo.w0 (OwlException "Table not found"))
    as (_ & _ & Hrow).
  apply (Hrow "gone" "row-1" true). reflexivity.
Defined.

(** A delete on the small table schedules a reindex; the same delete on
    the table whose rows cannot be counted raises after the rows are gone. *)
Lemma mutations_then_reindex_policy_witness :
  bg_tasks (delete_rows_handler Demo.config Demo2.env Demo.request knowledge
              (Demo2.delete_body "docs") Demo.w0).2
  = [TaskCreateIndexes Demo.knowledge_table "docs"]
  ∧ (delete_rows_handler Demo.config Demo2.env Demo.request knowledge
       (Demo2.delete_body "locked") Demo.w0).1
    = Raise (OtherException "lance: dataset unavailable").
Proof.
  destruct (mutations_then_reindex_policy Demo.config Demo2.env Demo.request
              knowledge Demo.w0) as (_ & Hrows & _).
  split.
  - destruct (Hrows (Demo2.delete_body "docs") eq_refl)
      as [[_ (Hdue & _)]|(e & _ & Hcount & _)]; [|discriminate Hcount].
    apply Hdue. right. split; [reflexivity|].
    exists 10. split; [reflexivity|]. vm_compute. discriminate.
  - destruct (Hrows (Demo2.delete_body "locked") eq_refl)
      as [[Hret _]|(e & _ & Hcount & ->)].
    + vm_compute in Hret. discriminate Hret.
    + injection Hcount as <-. reflexivity.
Defined.

(** An add on the deployment answers with the executor's output; a
    regeneration with the provider down raises, and the reindex it asked
    for stays scheduled. *)
Lemma generation_handlers_outcomes_witness :
  (add_rows Demo.config Demo.env Demo.request knowledge
     (Demo.add_body "docs" None) Demo.keys Demo.w0).1
  = Ret (Materialized 1%nat)
  ∧ bg_tasks (regen_rows Demo.config Demo2.env Demo.request knowledge
                Demo2.regen_body Demo.keys Demo.w0).2
    = [TaskCreateIndexes Demo.knowledge_table "docs"].
Proof.
  split.
  - destruct (generation_handlers_outcomes Demo.config Demo.env Demo.request
                knowledge Demo.keys Demo.w0) as [Hadd _].
    destruct (Hadd (Demo.add_body "docs" None)) as (_ & _ & Hok).
    destruct (Hok true 1%nat) as (Hret & _); [reflexivity|reflexivity|].
    exact Hret.
  - destruct (generation_handlers_outcomes Demo.config Demo2.env Demo.request
                knowledge Demo.keys Demo.w0) as [_ Hregen].
    destruct (Hregen Demo2.regen_body) as (_ & Hfail & _).
    destruct (Hfail true (OtherException "provider unavailable"))
      as (_ & Htasks & _); [reflexivity|reflexivity|].
    exact Htasks.
Defined.

(** Table "draft" has a summary column with a retired embedding model:
    nothing can be ingested into it, although the column has no part in
    ingestion. *)
Lemma embedding_config_errors_are_fatal_witness :
  ∃ evs,
    _add_file Demo.config Demo2.env Demo.request "req-1" "draft" Demo.file_info
      1000 200 Demo.keys Demo.w0
    = (Raise (OtherException "ValidationError: unknown embedding model"),
       extend Demo.w0 evs)
    ∧ Forall is_log evs.
Proof.
  eexists. split.
  - apply (embedding_config_errors_are_fatal Demo.config Demo2.env
             Demo.request "req-1" "draft" Demo.file_info 1000 200 Demo.keys
             Demo.w0 Demo.chunks "openai/gpt-4o-mini" [] Demo2.draft_meta
             [Demo.column "Text" 0]
             [Demo.column "Title Embed" 2; Demo.column "Text Embed" 2]
             {| col_id := "Summary Embed"; col_vlen := 2;
                col_dtype := "float32"; col_gen_config := "retired-model" |}
             (None, [])).
    + reflexivity.
    + reflexivity.
    + reflexivity.
    + reflexivity.
    + reflexivity.
    + simpl. lia.
    + left. reflexivity.
  - vm_compute. repeat constructor.
Defined.

(** With an embedder that answers two rows at most, the upload of a file
    of three chunks succeeds with two rows. *)
Lemma ingestion_pairs_chunks_with_embeddings_witness :
  ∃ rows : list (gmap string Value),
    length rows = 2%nat
    ∧ EvGenRows Demo.knowledge_table
        (AddBody (ingest_request Demo2.env "docs" rows))
      ∈ trace (_add_file Demo.config Demo2.env Demo.request "req-1" "docs"
                 Demo.file_info 1000 200 Demo.keys Demo.w0).2.
Proof.
  destruct (ingestion_pairs_chunks_with_embeddings Demo.config Demo2.env
              Demo.request "req-1" "docs" Demo.file_info 1000 200 Demo.keys
              Demo.w0
              (_add_file Demo.config Demo2.env Demo.request "req-1" "docs"
                 Demo.file_info 1000 200 Demo.keys Demo.w0).2
              OkResponse_ok)
    as (chunks & title & te & tes & rows & Hchunks & Htext & _ & Hlen & Hin & _).
  - vm_compute. reflexivity.
  - exists rows. split; [|exact Hin].
    injection Hchunks as <-.
    destruct Htext as (embedder & dtype & a & Ha & ->).
    rewrite Hlen. vm_compute in Ha. injection Ha as <-. reflexivity.
Defined.

(** An upload into the table of 2500 rows schedules no reindex, and
    reindexes the table all the same. *)
Lemma upload_reindexes_directly_witness :
  let run :=
    _add_file Demo.config Demo.env Demo.request "req-1" "big" Demo.file_info
      1000 200 Demo.keys Demo.w0 in
  bg_tasks run.2 = []
  ∧ last (trace run.2) = Some (EvCreateIndexes (GenT Demo.knowledge_table) "big")
  ∧ create_indexes Demo.env (GenT Demo.knowledge_table) "big" = Ok false
  ∧ run.1 = Ret OkResponse_ok.
Proof.
  intros run. unfold run.
  rewrite (upload_reindexes_directly Demo.config Demo.env Demo.request "req-1"
             "big" Demo.file_info 1000 200 Demo.keys Demo.w0 Demo.chunks
             "openai/gpt-4o-mini" [] Demo.big_meta [1; 0]
             [[1; 0]; [1; 0]; [1; 0]] false 3%nat).
  - repeat split.
  - reflexivity.
  - reflexivity.
  - reflexivity.
  - vm_compute. reflexivity.
  - discriminate.
  - reflexivity.
  - reflexivity.
Defined.

(** An upload into a table that does not exist leaves the file in the
    file table. *)
Lemma upload_registers_file_before_opening_table_witness :
  let run :=
    upload_file Demo.config Demo.env Demo.request Demo.abc "notes.txt"
      "missing" 1000 200 Demo.keys Demo.w0 in
  run.1 = Raise (OwlException "Table not found")
  ∧ EvFileAdd (_get_file_table Demo.config "acme" "kb") "notes.txt" Demo.abc
      (checksum Demo.env (2 ^ 10) Demo.abc)
    ∈ trace run.2.
Proof.
  intros run. unfold run.
  rewrite (upload_registers_file_before_opening_table Demo.config Demo.env
             Demo.request Demo.abc "notes.txt" "missing" 1000 200 Demo.keys
             Demo.w0 Demo.file_info Demo.chunks "openai/gpt-4o-mini" []
             (OwlException "Table not found")).
  - split; [reflexivity|]. simpl.
    apply elem_of_cons. right. apply elem_of_cons. by left.
  - reflexivity.
  - reflexivity.
  - reflexivity.
  - reflexivity.
Defined.

(** The title the deployment's model answers with. *)
Lemma clean_title_removes_one_pair_of_quotes_witness :
  clean_title (" " +:+ String dquote ("Versions in Lance" +:+ String dquote " "))
  = "Versions in Lance".
Proof.
  apply (clean_title_removes_one_pair_of_quotes " " " " "Versions in Lance");
    reflexivity.
Defined.

(** With a retention window of 10^10 days the window cannot be built:
    after the compaction of "docs" the visit fails, and
    [cleanup_old_versions] is not called. *)
Lemma optimize_fails_on_a_window_out_of_range :
  optimize_visit Demo2.keep_all_config Demo.env Demo2.docs_item Demo.w0
  = (Ret job_failed,
     extend Demo.w0
       [EvCompactFiles (GenT Demo.knowledge_table) (Some "docs");
        EvLog exception (LogOptimizeTableFailed "db/acme/kb/knowledge/docs")]).
Proof. reflexivity. Qed.

(** White space beyond ASCII is stripped as well: a title followed by an
    ideographic space (U+3000, the bytes E3 80 80) and one preceded by a
    no-break space (U+00A0, the bytes C2 A0). *)
Lemma clean_title_strips_unicode_spaces :
  clean_title
    (" " +:+ String dquote ("Title" +:+ String dquote
       (String (ascii_of_nat 227) (String (ascii_of_nat 128)
          (String (ascii_of_nat 128) "")))))
  = "Title"
  ∧ clean_title
      (String (ascii_of_nat 194) (String (ascii_of_nat 160)
         (String dquote ("Title" +:+ String dquote ""))))
    = "Title".
Proof. split; reflexivity. Qed.

(** Three bytes in blocks of two: a full block and the last byte. *)
Lemma checksum_reads_bounded_blocks_witness :
  length <$> blocks 2 Demo.abc = [2%nat; 1%nat]
  ∧ length (blocks 2 Demo.abc) = 2%nat.
Proof.
  destruct (checksum_reads_bounded_blocks Demo.env 2 Demo.abc)
    as (_ & Hcount & _); [lia|].
  split; [reflexivity|]. apply Nat2Z.inj. rewrite Hcount. reflexivity.
Defined.

(** Two projects of one organisation get different knowledge tables. *)
Lemma table_addressing_separates_projects_witness :
  _get_gen_table Demo.config "acme" "kb" knowledge
  ≠ _get_gen_table Demo.config "acme" "crm" knowledge.
Proof.
  intros Hsame.
  destruct (table_addressing_separates_projects Demo.config "acme" "kb"
              "acme" "crm" knowledge knowledge) as (Hgen & _);
    try reflexivity.
  destruct (Hgen Hsame) as (_ & Hproject & _). discriminate Hproject.
Defined.

(** The deployment holds four tables: three knowledge tables and the file
    table of the project. *)
Lemma enumeration_yields_every_table_once_witness :
  it_path <$> gen_items (_iter_all_tables Demo.config Demo.env 1 200)
  = ["db/acme/kb/knowledge/docs"; "db/acme/kb/knowledge/big";
     "db/acme/kb/knowledge/plain"; "db/acme/kb/file/file"].
Proof.
  destruct (enumeration_yields_every_table_once Demo.config Demo.env 1
              Demo2.org_dirs Demo2.projects_of Demo2.metas_of) as [-> _].
  - reflexivity.
  - intros org_dir Hin Hdir.
    apply elem_of_cons in Hin as [->|Hin]; [reflexivity|].
    apply list_elem_of_singleton in Hin as ->. discriminate Hdir.
  - intros table offset _. simpl. unfold Demo2.metas_of.
    destruct (Demo.is_knowledge table); [reflexivity|].
    by rewrite drop_nil, take_nil.
  - intros table. unfold Demo2.metas_of.
    destruct (Demo.is_knowledge table); vm_compute; lia.
  - reflexivity.
Defined.

(** The failed regeneration is logged once, as the last event. *)
Lemma handlers_log_unexpected_failures_once_witness :
  last (trace (regen_rows Demo.config Demo2.env Demo.request knowledge
                 Demo2.regen_body Demo.keys Demo.w0).2)
  = Some (EvLog exception (LogRegenRowFailed Demo2.regen_body)).
Proof.
  destruct (handlers_log_unexpected_failures_once Demo.config Demo2.env
              Demo.request Demo.w0) as (_ & Hregen & _).
  destruct (Hregen knowledge Demo2.regen_body Demo.keys) as (evs & Htrace & _).
  rewrite Htrace. simpl. apply last_snoc.
Defined.

(** With the threshold at 5000 rows the table of 2500 rows is reindexed
    at once. *)
Lemma reindex_decision_is_monotone_witness :
  reindex_now Demo2.eager_config Demo.env None Demo.knowledge_table "docs"
  = Ok true.
Proof.
  destruct (reindex_decision_is_monotone Demo.config Demo.env
              Demo2.eager_config None Demo.knowledge_table "docs")
    as (Hmore & _).
  - vm_compute. discriminate.
  - apply Hmore. reflexivity.
Defined.

(** * Normalisation of the embeddings *)

Module Normalisation.

Import QArith Qabs Lqa.
Import UnitNorm.

Local Open Scope Q_scope.

(** ** From the accuracy of the two operations to the norm *)







(** ** What [_embed] computes *)

Section Embed.

Context {Vector NDArray RawEmbeddings GenConfig GenOutput : Type}.
Context (env : @Env Vector NDArray RawEmbeddings GenConfig GenOutput).

(** How the entries of a row are read as numbers. *)
Variable value : Vector → list Q.



End Embed.

(** ** On float16 and float32 *)


(** In float32, the squares of a vector as small as (2^-100, 0) underflow
    to zero, and the division by the zero norm gives infinity and NaN. *)
Lemma embed_float32_underflows :
  ∃ a,
    _embed Numpy.env Numpy.embedder ["tiny"] "float32" = Ok a
    ∧ np_rows Numpy.env a
      = [[SpecFloat.S754_infinity false; SpecFloat.S754_nan]].
Proof. eexists. split; [vm_compute; reflexivity|reflexivity]. Qed.


End Normalisation.
